(** * organize_photos.py: a shallow embedding and its verified properties

    The program sorts photo and video files, optionally paired with a JSON
    sidecar, into a [year/year-month-day] tree.  Everything the script
    obtains from the outside world (PIL, hachoir, [os.path], [glob],
    [json], the local time zone) is gathered in one interface, [Platform];
    the functions of the script are then ordinary functions over it.

    Conventions.
    - Python [str] values are [string]s; [lower]/[upper] act on the ASCII
      letters, paths follow [posixpath].
    - Timestamps are rationals ([Q]): every finite float and every int is
      one, and the script only compares them and passes them on.
    - A Python call that may raise returns [exc A]; [try]/[except] is
      [catch].  Only [Exception] subclasses are modelled.
    - [print] is not modelled, except for the driver's own report lines. *)

From Stdlib Require Import ZArith QArith Bool List Ascii String DecimalString Lia.
Import ListNotations.

Local Open Scope string_scope.
Local Open Scope Z_scope.

(* ================================================================== *)
(** ** Exceptions *)

Inductive exn : Type :=
| FileNotFoundError (msg : string)
| OSError (msg : string)
| KeyError (key : string)
| TypeError
| ValueError
| OverflowError
| AttributeError.

Inductive exc (A : Type) : Type :=
| Ok (a : A)
| Raise (e : exn).
Arguments Ok {A} a.
Arguments Raise {A} e.

Definition bind {A B} (m : exc A) (k : A -> exc B) : exc B :=
  match m with
  | Ok a => k a
  | Raise e => Raise e
  end.

(** [try: m except Exception: h] *)
Definition catch {A} (m : exc A) (h : exn -> exc A) : exc A :=
  match m with
  | Ok a => Ok a
  | Raise e => h e
  end.

Notation "x <- m ;; k" := (bind m (fun x => k))
  (at level 61, m at next level, right associativity).
Notation "' p <- m ;; k" := (bind m (fun p => k))
  (at level 61, p pattern, m at next level, right associativity).

Definition returns {A} (m : exc A) : Prop := exists a, m = Ok a.

(** [str(e)] for the exceptions above.  The four classes that carry no
    payload here stand for exceptions whose message is not modelled; for
    them the class name takes the place of the message. *)
Definition str_exn (e : exn) : string :=
  match e with
  | FileNotFoundError m => m
  | OSError m => m
  | KeyError k => "'" ++ k ++ "'"
  | TypeError => "TypeError"
  | ValueError => "ValueError"
  | OverflowError => "OverflowError"
  | AttributeError => "AttributeError"
  end.

(* ================================================================== *)
(** ** Strings *)

Definition is_upper (c : ascii) : bool :=
  let n := N_of_ascii c in (65 <=? n)%N && (n <=? 90)%N.
Definition is_lower (c : ascii) : bool :=
  let n := N_of_ascii c in (97 <=? n)%N && (n <=? 122)%N.

Definition lower_char (c : ascii) : ascii :=
  if is_upper c then ascii_of_N (N_of_ascii c + 32) else c.
Definition upper_char (c : ascii) : ascii :=
  if is_lower c then ascii_of_N (N_of_ascii c - 32) else c.

Fixpoint map_str (f : ascii -> ascii) (s : string) : string :=
  match s with
  | EmptyString => EmptyString
  | String c r => String (f c) (map_str f r)
  end.

(** [s.lower()], [s.upper()] on ASCII letters; every other character is
    kept as it is, where Python follows the Unicode case mappings. *)
Definition lower (s : string) : string := map_str lower_char s.
Definition upper (s : string) : string := map_str upper_char s.

(** [s.startswith(p)] *)
Fixpoint startswith (s p : string) {struct p} : bool :=
  match p, s with
  | EmptyString, _ => true
  | String a p', String b s' => Ascii.eqb a b && startswith s' p'
  | String _ _, EmptyString => false
  end.

Fixpoint rev_str (acc s : string) : string :=
  match s with
  | EmptyString => acc
  | String c r => rev_str (String c acc) r
  end.

(** [s.endswith(p)] *)
Definition endswith (s p : string) : bool :=
  startswith (rev_str "" s) (rev_str "" p).

Definition nonempty (s : string) : bool :=
  match s with EmptyString => false | _ => true end.

Definition sep : ascii := "/"%char.
Definition extsep : ascii := "."%char.

(** [sub in s] for a one-character [sub] *)
Fixpoint contains_char (c : ascii) (s : string) : bool :=
  match s with
  | EmptyString => false
  | String a r => Ascii.eqb a c || contains_char c r
  end.

(* ================================================================== *)
(** ** [posixpath] *)

(** [(p[:i], p[i:])] with [i = p.rfind('/') + 1]. *)
Fixpoint split_tail (p : string) : string * string :=
  match p with
  | EmptyString => ("", "")
  | String c s =>
      let '(h, t) := split_tail s in
      if Ascii.eqb c sep || nonempty h then (String c h, t)
      else ("", String c t)
  end.

(** [os.path.basename] *)
Definition basename (p : string) : string := snd (split_tail p).

(** [s.rstrip('/')] *)
Fixpoint rstrip_sep (s : string) : string :=
  match s with
  | EmptyString => ""
  | String c r =>
      let r' := rstrip_sep r in
      if Ascii.eqb c sep && negb (nonempty r') then "" else String c r'
  end.

(** [os.path.dirname]: the head, without its trailing slashes unless it
    consists of slashes only. *)
Definition dirname (p : string) : string :=
  let h := fst (split_tail p) in
  if nonempty h && nonempty (rstrip_sep h) then rstrip_sep h else h.

(** The leading dots of a file name, and what follows them. *)
Fixpoint span_dots (s : string) : string * string :=
  match s with
  | String c r =>
      if Ascii.eqb c extsep then
        let '(d, t) := span_dots r in (String c d, t)
      else ("", s)
  | EmptyString => ("", "")
  end.

(** [(s[:j], s[j:])] with [j = s.rfind('.')], when [s] has a dot. *)
Fixpoint split_last_dot (s : string) : option (string * string) :=
  match s with
  | EmptyString => None
  | String c r =>
      match split_last_dot r with
      | Some (a, b) => Some (String c a, b)
      | None => if Ascii.eqb c extsep then Some ("", s) else None
      end
  end.

(** [os.path.splitext]: the extension starts at the last dot of the last
    path component, provided a character other than a dot precedes it in
    that component. *)
Definition splitext (p : string) : string * string :=
  let '(h, base) := split_tail p in
  let '(dots, rest) := span_dots base in
  match split_last_dot rest with
  | Some (stem, ext) => (h ++ dots ++ stem, ext)
  | None => (p, "")
  end.

(** [os.path.join(a, b)] *)
Definition join2 (a b : string) : string :=
  if startswith b "/" then b
  else if negb (nonempty a) || endswith a "/" then a ++ b
  else a ++ "/" ++ b.

(** [os.path.join(a, *bs)] *)
Definition join (a : string) (bs : list string) : string :=
  fold_left join2 bs a.

(** [s.split('/')] *)
Fixpoint split_sep (s : string) : list string :=
  match s with
  | EmptyString => [""]
  | String c r =>
      if Ascii.eqb c sep then "" :: split_sep r
      else match split_sep r with
           | h :: t => String c h :: t
           | [] => [String c ""]
           end
  end.

(** One round of the component loop of [normpath]; [acc] is [new_comps]. *)
Definition normpath_step (initial_slashes : Z) (acc : list string)
    (comp : string) : list string :=
  if String.eqb comp "" || String.eqb comp "." then acc
  else if negb (String.eqb comp "..")
          || ((initial_slashes =? 0) && match acc with [] => true | _ => false end)
          || match rev acc with
             | l :: _ => String.eqb l ".."
             | [] => false
             end
       then acc ++ [comp]
       else removelast acc.

(** [os.path.normpath] *)
Definition normpath (path : string) : string :=
  if String.eqb path "" then "."
  else
    let initial_slashes :=
      if startswith path "/" then
        if startswith path "//" && negb (startswith path "///") then 2 else 1
      else 0 in
    let comps := fold_left (normpath_step initial_slashes) (split_sep path) [] in
    let path' := String.concat "/" comps in
    let path' :=
      match initial_slashes with
      | 0 => path'
      | 1 => "/" ++ path'
      | _ => "//" ++ path'
      end in
    if nonempty path' then path' else ".".

Example splitext_ex1 : splitext "/a/b/IMG_001.JPG" = ("/a/b/IMG_001", ".JPG").
Proof. reflexivity. Qed.
Example splitext_ex2 : splitext "/a.d/.bashrc" = ("/a.d/.bashrc", "").
Proof. reflexivity. Qed.
Example splitext_ex3 : splitext "..x.tar.gz" = ("..x.tar", ".gz").
Proof. reflexivity. Qed.
Example dirname_ex : dirname "/a//b" = "/a" /\ dirname "/b" = "/" /\ dirname "b" = "".
Proof. repeat split; reflexivity. Qed.
Example join_ex : join "2021" ["2021-01-01"; "a.jpg"] = "2021/2021-01-01/a.jpg".
Proof. reflexivity. Qed.
Example normpath_ex :
  normpath "/a/./b/../c//" = "/a/c" /\ normpath "//x" = "//x" /\
  normpath "../a/.." = ".." /\ normpath "/.." = "/".
Proof. repeat split; reflexivity. Qed.

(* ================================================================== *)
(** ** Module constants *)

(** [PHOTO_EXTENSIONS].  The set display of the source lists ['.dng']
    twice and has a stray comma after ['.rw2']; the elements are these. *)
Definition PHOTO_EXTENSIONS : list string :=
  [".jpg"; ".jpeg"; ".png"; ".gif"; ".bmp"; ".tiff"; ".webp";
   ".raw"; ".cr2"; ".nef"; ".arw"; ".dng"; ".orf"; ".rw2"; ".dng"; ".pef"].

Definition VIDEO_EXTENSIONS : list string :=
  [".mp4"; ".mov"; ".avi"; ".wmv"; ".flv"; ".webm"; ".mkv";
   ".m4v"; ".3gp"; ".mpg"; ".mpeg"].

(** [x in s] *)
Definition mem (x : string) (s : list string) : bool :=
  existsb (String.eqb x) s.

(** [PHOTO_EXTENSIONS | VIDEO_EXTENSIONS], as a membership test. *)
Definition in_ALL_MEDIA_EXTENSIONS (x : string) : bool :=
  mem x PHOTO_EXTENSIONS || mem x VIDEO_EXTENSIONS.

(** A list [order] is an iteration order of the set [ALL_MEDIA_EXTENSIONS]
    when it enumerates exactly its elements.  Python fixes no order for a
    set of strings, so the functions that loop over the set take it as an
    argument. *)
Definition iterates_ALL_MEDIA_EXTENSIONS (order : list string) : Prop :=
  NoDup order /\ forall x, In x order <-> in_ALL_MEDIA_EXTENSIONS x = true.

Definition MIN_VALID_TIMESTAMP : Z := 946684800.

(** [t > MIN_VALID_TIMESTAMP] *)
Definition above_min (t : Q) : bool :=
  negb (Qle_bool t (inject_Z MIN_VALID_TIMESTAMP)).

(** Truth value of a Python number: [if t:] *)
Definition truthy (t : Q) : bool := negb (Qeq_bool t 0).

(* ================================================================== *)
(** ** JSON values, as [json.load] returns them *)

#[warning="-register-all"] Inductive json : Type :=
| JNull
| JBool (b : bool)
| JInt (z : Z)
| JFloat (q : option Q)          (* [None]: nan or an infinity *)
| JStr (s : string)
| JArr (l : list json)
| JObj (l : list (string * json)). (* a dict: the keys are distinct *)

Fixpoint assoc (k : string) (l : list (string * json)) : option json :=
  match l with
  | [] => None
  | (k', v) :: r => if String.eqb k k' then Some v else assoc k r
  end.

(** [j[k]] for a string key [k] *)
Definition getitem (j : json) (k : string) : exc json :=
  match j with
  | JObj l => match assoc k l with
              | Some v => Ok v
              | None => Raise (KeyError k)
              end
  | _ => Raise TypeError
  end.

Definition is_space (c : ascii) : bool :=
  let n := N_of_ascii c in ((9 <=? n)%N && (n <=? 13)%N) || (n =? 32)%N.

Definition digit_val (c : ascii) : option Z :=
  let n := N_of_ascii c in
  if (48 <=? n)%N && (n <=? 57)%N then Some (Z.of_N n - 48) else None.

Fixpoint lstrip (s : string) : string :=
  match s with
  | String c r => if is_space c then lstrip r else s
  | EmptyString => ""
  end.

(** [s.strip()] *)
Definition strip (s : string) : string :=
  rev_str "" (lstrip (rev_str "" (lstrip s))).

(** Digits of a decimal literal; [after_digit] tells whether the previous
    character was a digit, which is where one underscore may stand. *)
Fixpoint parse_digits (after_digit : bool) (acc : Z) (s : string) : option Z :=
  match s with
  | EmptyString => if after_digit then Some acc else None
  | String c r =>
      match digit_val c with
      | Some d => parse_digits true (10 * acc + d) r
      | None =>
          if Ascii.eqb c "_" && after_digit then
            match r with
            | String c' _ =>
                match digit_val c' with
                | Some _ => parse_digits false acc r
                | None => None
                end
            | EmptyString => None
            end
          else None
      end
  end.

(** [int(s)] for a [str]: ASCII digits and ASCII white space, and no limit
    on the number of digits. *)
Definition int_of_str (s : string) : exc Z :=
  let body :=
    match strip s with
    | String "+" r => option_map (fun z => z) (parse_digits false 0 r)
    | String "-" r => option_map Z.opp (parse_digits false 0 r)
    | r => parse_digits false 0 r
    end in
  match body with
  | Some z => Ok z
  | None => Raise ValueError
  end.

(** [int(j)] *)
Definition py_int (j : json) : exc Z :=
  match j with
  | JInt z => Ok z
  | JBool b => Ok (if b then 1 else 0)
  | JFloat (Some q) => Ok (Z.quot (Qnum q) (Z.pos (Qden q)))
  | JFloat None => Raise OverflowError
  | JStr s => int_of_str s
  | JNull | JArr _ | JObj _ => Raise TypeError
  end.

Example int_of_str_ex :
  int_of_str "1609459200" = Ok 1609459200 /\ int_of_str " -1_000 " = Ok (-1000) /\
  int_of_str "12a" = Raise ValueError /\ int_of_str "" = Raise ValueError /\
  int_of_str "1__0" = Raise ValueError.
Proof. repeat split; reflexivity. Qed.

(* ================================================================== *)
(** ** What PIL and hachoir hand back *)

(** A value of the EXIF dictionary. *)
Inductive exif_value : Type :=
| ExifStr (s : string)
| ExifOther.                       (* bytes, numbers, tuples *)

(** [PIL.ExifTags.TAGS.get], on the three names the script looks for. *)
Definition TAGS_get (tag_id : Z) : option string :=
  if tag_id =? 36867 then Some "DateTimeOriginal"
  else if tag_id =? 306 then Some "DateTime"
  else if tag_id =? 36868 then Some "DateTimeDigitized"
  else None.

(** A date object read from video metadata: falsy, or a value on which
    [time.mktime(date.timetuple())] gives the recorded outcome. *)
Inductive pydate : Type :=
| DateFalsy
| Date (mktime : exc Q).

(** Outcome of [hasattr(o, name)] followed by [getattr(o, name)]. *)
Inductive probe (A : Type) : Type :=
| ProbeRaises (e : exn)
| ProbeMissing
| ProbeValue (a : A).
Arguments ProbeRaises {A} e.
Arguments ProbeMissing {A}.
Arguments ProbeValue {A} a.

Record stream : Type := { stream_creation_date : probe pydate }.

Record video_metadata : Type := {
  meta_truthy : bool;                      (* [if metadata:] *)
  meta_attr : string -> probe pydate;
  meta_streams : probe (list stream)
}.

(** A hachoir parser, with what [extractMetadata] makes of it. *)
Record parser : Type := { extractMetadata : exc (option video_metadata) }.

(* ================================================================== *)
(** ** The platform *)

Class Platform (FS : Type) : Type := {
  (** [Image.open(p)] then [img._getexif()]: the dictionary in iteration
      order, or [None]. *)
  image_getexif : FS -> string -> exc (option (list (Z * exif_value)));
  (** [time.mktime(datetime.strptime(s, '%Y:%m:%d %H:%M:%S').timetuple())] *)
  strptime_mktime : string -> exc Q;
  (** [hachoir.parser.createParser(p)] *)
  createParser : FS -> string -> exc (option parser);
  (** [os.path.exists], [os.path.getctime], [os.path.getmtime] *)
  path_exists : FS -> string -> bool;
  getctime : FS -> string -> exc Q;
  getmtime : FS -> string -> exc Q;
  (** [glob.glob(pattern)] *)
  glob_glob : FS -> string -> list string;
  (** [open(p)] then [json.load(f)] *)
  json_load : FS -> string -> exc json;
  (** Offset of local time from UTC, in seconds, at a UTC second. *)
  utcoffset : Z -> Z;
  (** [os.getcwd()]; it is an absolute path. *)
  getcwd : string;
  getcwd_absolute : startswith getcwd "/" = true;
  (** [os.makedirs(d, exist_ok=True)], [shutil.move(src, dst)]: the file
      system they leave behind, and whether they raised. *)
  makedirs : FS -> string -> FS * exc unit;
  shutil_move : FS -> string -> string -> FS * exc unit
}.

(* ================================================================== *)
(** ** The timestamp extractors and resolvers *)

Section Resolver.
Context {FS : Type} {P : Platform FS}.

(** The three date tags, in the order [get_exif_date] looks for them. *)
Definition date_tags : list string :=
  ["DateTimeOriginal"; "DateTime"; "DateTimeDigitized"].

(** [time.mktime(datetime.strptime(date_str, ...).timetuple())] on a
    dictionary value; [strptime] refuses what is not a [str]. *)
Definition parse_exif_date (v : exif_value) : exc Q :=
  match v with
  | ExifStr s => strptime_mktime s
  | ExifOther => Raise TypeError
  end.

(** The inner loop [for tag_id in exif] of [get_exif_date], for one [tag];
    [Some t] is the [return timestamp]. *)
Fixpoint exif_scan_ids (tag : string) (exif : list (Z * exif_value)) : option Q :=
  match exif with
  | [] => None
  | (tag_id, date_str) :: rest =>
      match TAGS_get tag_id with
      | Some name =>
          if String.eqb name tag then
            match parse_exif_date date_str with
            | Ok timestamp =>
                if above_min timestamp then Some timestamp
                else exif_scan_ids tag rest
            | Raise _ => exif_scan_ids tag rest      (* except: continue *)
            end
          else exif_scan_ids tag rest
      | None => exif_scan_ids tag rest
      end
  end.

(** The outer loop [for tag in date_tags]. *)
Fixpoint exif_scan_tags (tags : list string) (exif : list (Z * exif_value)) : option Q :=
  match tags with
  | [] => None
  | tag :: rest =>
      match exif_scan_ids tag exif with
      | Some t => Some t
      | None => exif_scan_tags rest exif
      end
  end.

Definition get_exif_date (fs : FS) (file_path : string) : exc (option Q) :=
  catch
    (exif <- image_getexif fs file_path ;;
     match exif with
     | Some (e :: es) => Ok (exif_scan_tags date_tags (e :: es))
     | Some [] | None => Ok None
     end)
    (fun _ => Ok None).

(** [if hasattr(o, f): date = getattr(o, f); if date: timestamp = ...;
    if timestamp > MIN_VALID_TIMESTAMP: return timestamp], as run inside the
    [try] of [get_video_creation_time]: [Ok (Some t)] returns [t], [Ok None]
    goes on, [Raise] leaves the [try]. *)
Definition probe_date (p : probe pydate) : exc (option Q) :=
  match p with
  | ProbeRaises e => Raise e
  | ProbeMissing => Ok None
  | ProbeValue DateFalsy => Ok None
  | ProbeValue (Date mk) =>
      timestamp <- mk ;;
      Ok (if above_min timestamp then Some timestamp else None)
  end.

Definition date_fields : list string :=
  ["creation_date"; "last_modification"; "record_date"; "date_time_original"].

Fixpoint video_scan_fields (metadata : video_metadata) (fields : list string)
  : exc (option Q) :=
  match fields with
  | [] => Ok None
  | field :: rest =>
      r <- probe_date (meta_attr metadata field) ;;
      match r with
      | Some t => Ok (Some t)
      | None => video_scan_fields metadata rest
      end
  end.

Fixpoint video_scan_streams (streams : list stream) : exc (option Q) :=
  match streams with
  | [] => Ok None
  | s :: rest =>
      r <- probe_date (stream_creation_date s) ;;
      match r with
      | Some t => Ok (Some t)
      | None => video_scan_streams rest
      end
  end.

Definition get_video_creation_time (fs : FS) (file_path : string) : exc (option Q) :=
  catch
    (parser <- createParser fs file_path ;;
     match parser with
     | None => Ok None
     | Some parser =>
         metadata <- extractMetadata parser ;;
         match metadata with
         | None => Ok None        (* hasattr(None, 'streams') is False *)
         | Some metadata =>
             r <- (if meta_truthy metadata
                   then video_scan_fields metadata date_fields
                   else Ok None) ;;
             match r with
             | Some t => Ok (Some t)
             | None =>
                 match meta_streams metadata with
                 | ProbeRaises e => Raise e
                 | ProbeMissing => Ok None
                 | ProbeValue streams => video_scan_streams streams
                 end
             end
         end
     end)
    (fun _ => Ok None).

(** [int(metadata[field]['timestamp'])] *)
Definition json_timestamp (metadata : json) (field : string) : exc Z :=
  a <- getitem metadata field ;;
  b <- getitem a "timestamp" ;;
  py_int b.

(** The second [try] of [get_json_date] and the final [return None, None]. *)
Definition get_json_date_creation (metadata : json) : option (Z * string) :=
  match json_timestamp metadata "creationTime" with
  | Ok creation_timestamp =>
      if MIN_VALID_TIMESTAMP <? creation_timestamp
      then Some (creation_timestamp, "JSON creationTime")
      else None
  | Raise _ => None
  end.

(** [get_json_date]; [None] stands for the pair [(None, None)]. *)
Definition get_json_date (metadata : json) : option (Z * string) :=
  match json_timestamp metadata "photoTakenTime" with
  | Ok photo_taken_timestamp =>
      if MIN_VALID_TIMESTAMP <? photo_taken_timestamp
      then Some (photo_taken_timestamp, "JSON photoTakenTime")
      else get_json_date_creation metadata
  | Raise _ => get_json_date_creation metadata
  end.

(** [get_file_date].  In the first block [Ok (Some r)] is a [return r] and
    [Ok None] falls through to the statements after the [if]. *)
Definition get_file_date (fs : FS) (file_path : string) : exc (Q * string) :=
  let file_ext := lower (snd (splitext file_path)) in
  r <- (if mem file_ext PHOTO_EXTENSIONS then
          exif_date <- get_exif_date fs file_path ;;
          match exif_date with
          | Some t => if truthy t then Ok (Some (t, "EXIF")) else Ok None
          | None => Ok None
          end
        else if mem file_ext VIDEO_EXTENSIONS then
          video_date <- get_video_creation_time fs file_path ;;
          match video_date with
          | Some t => if truthy t then Ok (Some (t, "Video metadata")) else Ok None
          | None => Ok None
          end
        else Ok None) ;;
  match r with
  | Some found => Ok found
  | None =>
      r <- catch
             (creation_time <- getctime fs file_path ;;
              if above_min creation_time
              then Ok (Some (creation_time, "File creation time"))
              else Ok None)
             (fun _ => Ok None) ;;
      match r with
      | Some found => Ok found
      | None =>
          modification_time <- getmtime fs file_path ;;
          Ok (modification_time, "File modification time")
      end
  end.

(** [get_valid_timestamp], with the same reading of the early returns. *)
Definition get_valid_timestamp (fs : FS) (metadata : json) (media_path : string)
  : exc (Q * string) :=
  let file_ext := lower (snd (splitext media_path)) in
  r <- (if mem file_ext PHOTO_EXTENSIONS then
          exif_date <- get_exif_date fs media_path ;;
          match exif_date with
          | Some t => if truthy t then Ok (Some (t, "EXIF")) else Ok None
          | None => Ok None
          end
        else if mem file_ext VIDEO_EXTENSIONS then
          video_date <- get_video_creation_time fs media_path ;;
          match video_date with
          | Some t => if truthy t then Ok (Some (t, "Video metadata")) else Ok None
          | None => Ok None
          end
        else Ok None) ;;
  match r with
  | Some found => Ok found
  | None =>
      match
        match get_json_date metadata with
        | Some (json_date, json_source) =>
            if truthy (inject_Z json_date)
            then Some (inject_Z json_date, json_source)
            else None
        | None => None
        end
      with
      | Some found => Ok found
      | None =>
          r <- catch
                 (creation_time <- getctime fs media_path ;;
                  if above_min creation_time
                  then Ok (Some (creation_time, "File creation time"))
                  else Ok None)
                 (fun _ => Ok None) ;;
          match r with
          | Some found => Ok found
          | None =>
              modification_time <- getmtime fs media_path ;;
              Ok (modification_time, "File modification time")
          end
      end
  end.

End Resolver.

(* ================================================================== *)
(** ** Local calendar dates *)

(** Year, month and day of the proleptic Gregorian calendar, from the
    number of days since 1970-01-01. *)
Definition civil_from_days (z : Z) : Z * Z * Z :=
  let z := z + 719468 in
  let era := z / 146097 in
  let doe := z mod 146097 in
  let yoe := (doe - doe / 1460 + doe / 36524 - doe / 146096) / 365 in
  let doy := doe - (365 * yoe + yoe / 4 - yoe / 100) in
  let mp := (5 * doy + 2) / 153 in
  let d := doy - (153 * mp + 2) / 5 + 1 in
  let m := if mp <? 10 then mp + 3 else mp - 9 in
  let y := yoe + era * 400 + (if m <=? 2 then 1 else 0) in
  (y, m, d).

(** A timestamp in whole microseconds, rounded half to even, which is how
    [datetime.fromtimestamp] reads a float. *)
Definition round_half_even (n d : Z) : Z :=
  let q := n / d in
  let r := n mod d in
  if 2 * r <? d then q
  else if d <? 2 * r then q + 1
  else if Z.even q then q else q + 1.

Definition microseconds (t : Q) : Z :=
  round_half_even (Qnum t * 1000000) (Z.pos (Qden t)).

(** [str(n)] for an int, [s.zfill(width)] for a string without sign. *)
Definition str_int (n : Z) : string := NilZero.string_of_int (Z.to_int n).

Fixpoint zeros (n : nat) : string :=
  match n with
  | O => ""
  | S n' => String "0" (zeros n')
  end.

Definition zfill (width : nat) (s : string) : string :=
  zeros (width - String.length s) ++ s.

Example civil_ex :
  civil_from_days 0 = (1970, 1, 1) /\ civil_from_days 18628 = (2021, 1, 1) /\
  civil_from_days 19782 = (2024, 2, 29) /\ civil_from_days (-1) = (1969, 12, 31) /\
  civil_from_days 11016 = (2000, 2, 29) /\ civil_from_days 47540 = (2100, 2, 28).
Proof. repeat split; reflexivity. Qed.

Example zfill_ex : zfill 2 (str_int 7) = "07" /\ zfill 2 (str_int 12) = "12".
Proof. split; reflexivity. Qed.

(* ================================================================== *)
(** ** Matching, planning and the two per-file pipelines *)

Section Pipeline.
Context {FS : Type} {P : Platform FS}.

(** [datetime.fromtimestamp(timestamp)], reduced to the fields the script
    reads; years outside 1..9999 are refused.  The refusal is always a
    [ValueError] here; for instants far outside that range the interpreter
    raises [OverflowError] or [OSError] instead. *)
Definition fromtimestamp (timestamp : Q) : exc (Z * Z * Z) :=
  let seconds := microseconds timestamp / 1000000 in
  let '(y, m, d) := civil_from_days ((seconds + utcoffset seconds) / 86400) in
  if (1 <=? y) && (y <=? 9999) then Ok (y, m, d) else Raise ValueError.

Definition get_target_path (timestamp : Q) (media_path : string)
  : exc (string * string) :=
  '(y, m, d) <- fromtimestamp timestamp ;;
  let year := str_int y in
  let month := zfill 2 (str_int m) in
  let day := zfill 2 (str_int d) in
  let media_extension := lower (snd (splitext media_path)) in
  let media_filename := fst (splitext (basename media_path)) in
  Ok (join year [year ++ "-" ++ month ++ "-" ++ day;
                 media_filename ++ media_extension],
      media_extension).

(** A [for ext in ...: if ...: return ...] loop: the first extension, in
    iteration order, whose body returns. *)
Fixpoint first_ext (body : string -> option string) (exts : list string)
  : option string :=
  match exts with
  | [] => None
  | ext :: rest =>
      match body ext with
      | Some r => Some r
      | None => first_ext body rest
      end
  end.

Definition tier1 (fs : FS) (base_path ext : string) : option string :=
  if path_exists fs (base_path ++ lower ext) || path_exists fs (base_path ++ upper ext)
  then Some (base_path ++ lower ext) else None.

Definition tier2 (fs : FS) (dir_path title_without_ext ext : string) : option string :=
  let potential_path := join2 dir_path (title_without_ext ++ ext) in
  if path_exists fs potential_path then Some potential_path else None.

Definition tier3 (fs : FS) (dir_path title_without_ext ext : string) : option string :=
  let pattern := join2 dir_path ("*" ++ title_without_ext ++ "*" ++ ext) in
  match glob_glob fs pattern with
  | m :: _ => Some m
  | [] => None
  end.

(** [str(title)] inside the f-string of the error message; only a [str]
    title reaches it. *)
Definition not_found_message (json_path title : string) : string :=
  "No media file found for " ++ json_path ++ " (title: " ++ title ++ ")".

(** [find_media_file]; [exts] is the iteration order of
    [ALL_MEDIA_EXTENSIONS].  [os.path.splitext(title)] raises on a title
    that is not a [str]. *)
Definition find_media_file (exts : list string) (fs : FS)
    (json_path : string) (title : json) : exc string :=
  let base_path := fst (splitext json_path) in
  match first_ext (tier1 fs base_path) exts with
  | Some r => Ok r
  | None =>
      let dir_path := dirname json_path in
      match title with
      | JStr title =>
          let title_without_ext := fst (splitext title) in
          match first_ext (tier2 fs dir_path title_without_ext) exts with
          | Some r => Ok r
          | None =>
              match first_ext (tier3 fs dir_path title_without_ext) exts with
              | Some r => Ok r
              | None => Raise (FileNotFoundError (not_found_message json_path title))
              end
          end
      | _ => Raise TypeError
      end
  end.

Definition process_media_without_json (fs : FS) (media_path : string)
  : exc (string * string) :=
  '(timestamp, source) <- get_file_date fs media_path ;;
  _ <- fromtimestamp timestamp ;;          (* the f-string of the [print] *)
  get_target_path timestamp media_path.

Definition process_json_file (exts : list string) (fs : FS) (json_path : string)
  : exc (string * string * string) :=
  metadata <- json_load fs json_path ;;
  title <- getitem metadata "title" ;;
  media_path <- find_media_file exts fs json_path title ;;
  '(timestamp, source) <- get_valid_timestamp fs metadata media_path ;;
  _ <- fromtimestamp timestamp ;;
  '(target_path, media_ext) <- get_target_path timestamp media_path ;;
  Ok (target_path, media_ext, media_path).

End Pipeline.

(* ================================================================== *)
(** ** The driver *)

(** The [stats] dictionary of [organize_media]; its keys are fixed. *)
Record stats : Type := {
  processed : Z;
  processed_with_json : Z;
  processed_without_json : Z;
  errors : Z;
  photos : Z;
  videos : Z;
  skipped_directories : Z
}.

Definition stats0 : stats :=
  {| processed := 0; processed_with_json := 0; processed_without_json := 0;
     errors := 0; photos := 0; videos := 0; skipped_directories := 0 |}.

(** The four statements after a successful move. *)
Definition count_moved (with_json : bool) (media_ext : string) (s : stats) : stats :=
  {| processed := processed s + 1;
     processed_with_json := processed_with_json s + (if with_json then 1 else 0);
     processed_without_json := processed_without_json s + (if with_json then 0 else 1);
     errors := errors s;
     photos := photos s + (if mem media_ext PHOTO_EXTENSIONS then 1 else 0);
     videos := videos s + (if mem media_ext PHOTO_EXTENSIONS then 0 else 1);
     skipped_directories := skipped_directories s |}.

(** [stats['errors'] += 1] *)
Definition count_error (s : stats) : stats :=
  {| processed := processed s;
     processed_with_json := processed_with_json s;
     processed_without_json := processed_without_json s;
     errors := errors s + 1;
     photos := photos s;
     videos := videos s;
     skipped_directories := skipped_directories s |}.

(** [stats['skipped_directories'] += 1] *)
Definition count_skipped (s : stats) : stats :=
  {| processed := processed s;
     processed_with_json := processed_with_json s;
     processed_without_json := processed_without_json s;
     errors := errors s;
     photos := photos s;
     videos := videos s;
     skipped_directories := skipped_directories s + 1 |}.

(** [should_process_directory] *)
Definition should_process_directory (path target_dir : string) : bool :=
  let norm_path := lower (normpath path) in
  let norm_target := lower (normpath target_dir) in
  negb (startswith norm_path norm_target).

Section Driver.
Context {FS : Type} {P : Platform FS}.

(** The state a run of [organize_media] carries from file to file: the file
    system, [stats], the set [processed_media_files] and the report lines
    printed so far. *)
Record run : Type := {
  run_fs : FS;
  run_stats : stats;
  run_claimed : list string;
  run_log : list string
}.

(** The [except Exception as e] handler shared by both passes. *)
Definition failed (file : string) (e : exn) (fs : FS) (claimed : list string)
    (r : run) : run :=
  {| run_fs := fs;
     run_stats := count_error (run_stats r);
     run_claimed := claimed;
     run_log := run_log r ++ ["Error processing " ++ file ++ ": " ++ str_exn e] |}.

(** [os.path.abspath] *)
Definition abspath (p : string) : string := normpath (join2 getcwd p).

(** Body of [for file in files] in the first pass. *)
Definition json_step (exts : list string) (target_dir root file : string)
    (r : run) : run :=
  if endswith file ".json" then
    let json_path := join2 root file in
    match process_json_file exts (run_fs r) json_path with
    | Raise e => failed file e (run_fs r) (run_claimed r) r
    | Ok (target_path, media_ext, media_path) =>
        let claimed := lower media_path :: run_claimed r in
        let full_target_dir := join2 target_dir (dirname target_path) in
        let '(fs1, made) := makedirs (run_fs r) full_target_dir in
        match made with
        | Raise e => failed file e fs1 claimed r
        | Ok _ =>
            let '(fs2, moved) :=
              shutil_move fs1 media_path (join2 target_dir target_path) in
            match moved with
            | Raise e => failed file e fs2 claimed r
            | Ok _ =>
                let '(fs3, moved') :=
                  shutil_move fs2 json_path
                    (join target_dir [dirname target_path; basename json_path]) in
                match moved' with
                | Raise e => failed file e fs3 claimed r
                | Ok _ =>
                    {| run_fs := fs3;
                       run_stats := count_moved true media_ext (run_stats r);
                       run_claimed := claimed;
                       run_log := run_log r ++
                         ["Moved (with JSON) " ++ basename media_path ++ " to "
                          ++ target_path] |}
                end
            end
        end
    end
  else r.

(** Body of [for file in files] in the second pass. *)
Definition media_step (target_dir root file : string) (r : run) : run :=
  let file_path := join2 root file in
  if negb (mem (lower file_path) (run_claimed r)) then
    let file_ext := lower (snd (splitext file)) in
    if in_ALL_MEDIA_EXTENSIONS file_ext then
      match process_media_without_json (run_fs r) file_path with
      | Raise e => failed file e (run_fs r) (run_claimed r) r
      | Ok (target_path, media_ext) =>
          let full_target_dir := join2 target_dir (dirname target_path) in
          let '(fs1, made) := makedirs (run_fs r) full_target_dir in
          match made with
          | Raise e => failed file e fs1 (run_claimed r) r
          | Ok _ =>
              let '(fs2, moved) :=
                shutil_move fs1 file_path (join2 target_dir target_path) in
              match moved with
              | Raise e => failed file e fs2 (run_claimed r) r
              | Ok _ =>
                  {| run_fs := fs2;
                     run_stats := count_moved false media_ext (run_stats r);
                     run_claimed := run_claimed r;
                     run_log := run_log r ++
                       ["Moved (without JSON) " ++ file ++ " to " ++ target_path] |}
              end
          end
      end
    else r
  else r.

(** Body of [for root, _, files in os.walk(source_dir)], first pass. *)
Definition json_directory (exts : list string) (target_dir : string)
    (r : run) (entry : string * list string) : run :=
  let '(root, files) := entry in
  if negb (should_process_directory root target_dir) then
    {| run_fs := run_fs r;
       run_stats := count_skipped (run_stats r);
       run_claimed := run_claimed r;
       run_log := run_log r |}
  else fold_left (fun r file => json_step exts target_dir root file r) files r.

(** The same for the second pass. *)
Definition media_directory (target_dir : string)
    (r : run) (entry : string * list string) : run :=
  let '(root, files) := entry in
  if negb (should_process_directory root target_dir) then r
  else fold_left (fun r file => media_step target_dir root file r) files r.

(** [organize_media].  [walk1] and [walk2] are the [(root, files)] pairs the
    two calls of [os.walk(source_dir)] yield; the walk is lazy and sees the
    moves of the run, so the pairs are taken as they come. *)
Definition organize_media (exts : list string) (fs : FS)
    (source_dir target_dir : string)
    (walk1 walk2 : list (string * list string)) : run :=
  let target_dir := abspath target_dir in
  let r0 := {| run_fs := fs; run_stats := stats0;
               run_claimed := []; run_log := [] |} in
  let r1 := fold_left (json_directory exts target_dir) walk1 r0 in
  fold_left (media_directory target_dir) walk2 r1.

End Driver.

Arguments run FS : clear implicits.

(* ================================================================== *)
(** ** A small in-memory platform, to run the functions on *)

Module Mem.

(** What the platform answers about one file. *)
Record file : Type := {
  f_exif : exc (option (list (Z * exif_value)));
  f_parser : exc (option parser);
  f_ctime : exc Q;
  f_mtime : exc Q;
  f_json : exc json
}.

(** A file system: the paths that exist, with their files. *)
Definition fs : Type := list (string * file).

Fixpoint find (p : string) (d : fs) : option file :=
  match d with
  | [] => None
  | (q, f) :: r => if String.eqb p q then Some f else find p r
  end.

Fixpoint remove (p : string) (d : fs) : fs :=
  match d with
  | [] => []
  | (q, f) :: r => if String.eqb p q then remove p r else (q, f) :: remove p r
  end.

Definition missing (p : string) : exn :=
  FileNotFoundError ("[Errno 2] No such file or directory: '" ++ p ++ "'").

Definition ask {A} (get : file -> exc A) (d : fs) (p : string) : exc A :=
  match find p d with
  | Some f => get f
  | None => Raise (missing p)
  end.

(** Shell-style matching with [*] as the only wildcard.  Here [*] also
    matches a separator and a leading dot, which [glob] does not. *)
Fixpoint wildcard (pat : string) : string -> bool :=
  match pat with
  | EmptyString => fun s => negb (nonempty s)
  | String c pat' =>
      if Ascii.eqb c "*" then
        fix star (s : string) : bool :=
          wildcard pat' s ||
          match s with
          | EmptyString => false
          | String _ s' => star s'
          end
      else fun s =>
        match s with
        | String d s' => Ascii.eqb c d && wildcard pat' s'
        | EmptyString => false
        end
  end.

Definition glob (d : fs) (pattern : string) : list string :=
  filter (wildcard pattern) (map fst d).

Definition move (d : fs) (src dst : string) : fs * exc unit :=
  match find src d with
  | Some f => ((dst, f) :: remove dst (remove src d), Ok tt)
  | None => (d, Raise (missing src))
  end.

Fixpoint lookup_date (s : string) (dates : list (string * Q)) : exc Q :=
  match dates with
  | [] => Raise ValueError
  | (k, t) :: r => if String.eqb s k then Ok t else lookup_date s r
  end.

(** The platform over [fs], in a zone [tz] seconds east of UTC; [dates]
    lists the strings [strptime] accepts, each with its [mktime] value. *)
Definition platform (tz : Z) (dates : list (string * Q)) : Platform fs :=
  {| image_getexif := ask f_exif;
     strptime_mktime := fun s => lookup_date s dates;
     createParser := ask f_parser;
     path_exists := fun d p => match find p d with Some _ => true | None => false end;
     getctime := ask f_ctime;
     getmtime := ask f_mtime;
     glob_glob := glob;
     json_load := ask f_json;
     utcoffset := fun _ => tz;
     getcwd := "/home/user";
     getcwd_absolute := eq_refl;
     makedirs := fun d _ => (d, Ok tt);
     shutil_move := move |}.

(** A file without embedded metadata, created and modified at [t]. *)
Definition plain (t : Q) : file :=
  {| f_exif := Ok None; f_parser := Ok None;
     f_ctime := Ok t; f_mtime := Ok t; f_json := Raise ValueError |}.

(** A sidecar holding [j]. *)
Definition sidecar (t : Q) (j : json) : file :=
  {| f_exif := Raise (OSError "cannot identify image file");
     f_parser := Ok None;
     f_ctime := Ok t; f_mtime := Ok t; f_json := Ok j |}.

(** The sidecar JSON of a photo export. *)
Definition taken (title timestamp : string) : json :=
  JObj [("title", JStr title);
        ("photoTakenTime", JObj [("timestamp", JStr timestamp)])].

(** The enumeration order of the extension set used in the examples. *)
Definition exts : list string :=
  [".jpg"; ".jpeg"; ".png"; ".gif"; ".bmp"; ".tiff"; ".webp";
   ".raw"; ".cr2"; ".nef"; ".arw"; ".dng"; ".orf"; ".rw2"; ".pef";
   ".mp4"; ".mov"; ".avi"; ".wmv"; ".flv"; ".webm"; ".mkv";
   ".m4v"; ".3gp"; ".mpg"; ".mpeg"].

Lemma exts_iterates : iterates_ALL_MEDIA_EXTENSIONS exts.
Proof.
  split.
  - unfold exts. repeat (constructor; [simpl; intuition discriminate | ]).
    constructor.
  - intros x. split.
    + intros H. simpl in H.
      repeat (destruct H as [<- | H]; [reflexivity | ]). destruct H.
    + unfold in_ALL_MEDIA_EXTENSIONS, mem. rewrite <- existsb_app.
      intros H. apply existsb_exists in H. destruct H as (e & Hin & He).
      apply String.eqb_eq in He. subst e. simpl in Hin. simpl. tauto.
Qed.

End Mem.

(** The scenario of the specification: [IMG_001.jpg] with its sidecar and a
    lone [clip.mp4] last modified on 2019-05-05, run in UTC. *)
Definition scenario : Mem.fs :=
  [("/home/user/in/IMG_001.jpg", Mem.plain (1 # 1));
   ("/home/user/in/IMG_001.json",
      Mem.sidecar (1 # 1) (Mem.taken "IMG_001.jpg" "1700000000"));
   ("/home/user/in/clip.mp4", Mem.plain (1557057600 # 1))].

Definition scenario_run : run Mem.fs :=
  organize_media (P := Mem.platform 0 []) Mem.exts scenario "/home/user/in" "out"
    [("/home/user/in", ["IMG_001.jpg"; "IMG_001.json"; "clip.mp4"])]
    [("/home/user/in", ["clip.mp4"]); ("/home/user/out", []);
     ("/home/user/out/2023", []); ("/home/user/out/2023/2023-11-14",
       ["IMG_001.jpg"; "IMG_001.json"])].

Example scenario_ok :
  run_stats scenario_run =
    {| processed := 2; processed_with_json := 1; processed_without_json := 1;
       errors := 0; photos := 1; videos := 1; skipped_directories := 0 |}
  /\ run_log scenario_run =
       ["Moved (with JSON) IMG_001.jpg to 2023/2023-11-14/IMG_001.jpg";
        "Moved (without JSON) clip.mp4 to 2019/2019-05-05/clip.mp4"]
  /\ map fst (run_fs scenario_run) =
       ["/home/user/out/2019/2019-05-05/clip.mp4";
        "/home/user/out/2023/2023-11-14/IMG_001.json";
        "/home/user/out/2023/2023-11-14/IMG_001.jpg"].
Proof. vm_compute. repeat split. Qed.

(* ================================================================== *)
(** * Properties *)

(** ** Statistics *)

(** The two sums the counters keep. *)
Definition stats_ok (s : stats) : Prop :=
  processed s = processed_with_json s + processed_without_json s /\
  processed s = photos s + videos s.

(** A per-file step leaves the counters alone, counts one move, or counts
    one error. *)
Inductive stats_step (with_json : bool) (s : stats) : stats -> Prop :=
| step_untouched : stats_step with_json s s
| step_moved media_ext : stats_step with_json s (count_moved with_json media_ext s)
| step_failed : stats_step with_json s (count_error s).

Lemma stats_ok_moved with_json media_ext s :
  stats_ok s -> stats_ok (count_moved with_json media_ext s).
Proof.
  intros [Hj Hk]. unfold stats_ok, count_moved.
  destruct with_json, (mem media_ext PHOTO_EXTENSIONS); cbn; lia.
Qed.

Lemma stats_ok_error s : stats_ok s -> stats_ok (count_error s).
Proof. intros H; exact H. Qed.

Lemma stats_step_ok with_json s s' :
  stats_step with_json s s' -> stats_ok s -> stats_ok s'.
Proof.
  intros [ | ext | ] H; auto using stats_ok_moved, stats_ok_error.
Qed.

Section DriverFacts.
Context {FS : Type} {P : Platform FS}.

Lemma json_step_stats exts target_dir root file (r : run FS) :
  stats_step true (run_stats r) (run_stats (json_step exts target_dir root file r)).
Proof.
  unfold json_step.
  destruct (endswith file ".json"); [ | constructor ].
  destruct (process_json_file _ _ _) as [[[target_path media_ext] media_path] | e];
    [ | constructor ].
  destruct (makedirs _ _) as [fs1 [ [] | e ]]; [ | constructor ].
  destruct (shutil_move fs1 _ _) as [fs2 [ [] | e ]]; [ | constructor ].
  destruct (shutil_move fs2 _ _) as [fs3 [ [] | e ]]; constructor.
Qed.

Lemma media_step_stats target_dir root file (r : run FS) :
  stats_step false (run_stats r) (run_stats (media_step target_dir root file r)).
Proof.
  unfold media_step.
  destruct (negb _); [ | constructor ].
  destruct (in_ALL_MEDIA_EXTENSIONS _); [ | constructor ].
  destruct (process_media_without_json _ _) as [[target_path media_ext] | e];
    [ | constructor ].
  destruct (makedirs _ _) as [fs1 [ [] | e ]]; [ | constructor ].
  destruct (shutil_move fs1 _ _) as [fs2 [ [] | e ]]; constructor.
Qed.

Lemma json_files_ok exts target_dir root files : forall r : run FS,
  stats_ok (run_stats r) ->
  stats_ok (run_stats
    (fold_left (fun r file => json_step exts target_dir root file r) files r)).
Proof.
  induction files as [ | file files IH]; intros r H; simpl; [exact H | ].
  apply IH. eapply stats_step_ok; [apply json_step_stats | exact H].
Qed.

Lemma media_files_ok target_dir root files : forall r : run FS,
  stats_ok (run_stats r) ->
  stats_ok (run_stats
    (fold_left (fun r file => media_step target_dir root file r) files r)).
Proof.
  induction files as [ | file files IH]; intros r H; simpl; [exact H | ].
  apply IH. eapply stats_step_ok; [apply media_step_stats | exact H].
Qed.

(** The report of a whole run satisfies both sums. *)
Lemma organize_media_stats_ok exts fs source_dir target_dir walk1 walk2 :
  stats_ok (run_stats (organize_media exts fs source_dir target_dir walk1 walk2)).
Proof.
  unfold organize_media.
  set (t := abspath target_dir).
  set (r0 := {| run_fs := fs; run_stats := stats0;
                run_claimed := []; run_log := [] |}).
  assert (H0 : stats_ok (run_stats r0)) by (split; reflexivity).
  assert (H1 : stats_ok (run_stats (fold_left (json_directory exts t) walk1 r0))).
  { clearbody r0. revert r0 H0.
    induction walk1 as [ | [root files] w IH]; intros r H; simpl; [exact H | ].
    apply IH. unfold json_directory.
    destruct (negb _); [exact H | now apply json_files_ok]. }
  revert H1. generalize (fold_left (json_directory exts t) walk1 r0).
  induction walk2 as [ | [root files] w IH]; intros r H; simpl; [exact H | ].
  apply IH. unfold media_directory.
  destruct (negb _); [exact H | now apply media_files_ok].
Qed.

End DriverFacts.

(** The counters after one failed file: [errors] is one more, every other
    counter is as before. *)
Definition only_error (s s' : stats) : Prop :=
  errors s' = errors s + 1 /\
  processed s' = processed s /\
  processed_with_json s' = processed_with_json s /\
  processed_without_json s' = processed_without_json s /\
  photos s' = photos s /\
  videos s' = videos s /\
  skipped_directories s' = skipped_directories s.

(** The counters after one moved file of extension [media_ext]. *)
Definition one_move (with_json : bool) (media_ext : string) (s s' : stats) : Prop :=
  errors s' = errors s /\
  processed s' = processed s + 1 /\
  processed_with_json s' = processed_with_json s + (if with_json then 1 else 0) /\
  processed_without_json s' = processed_without_json s + (if with_json then 0 else 1) /\
  photos s' = photos s + (if mem media_ext PHOTO_EXTENSIONS then 1 else 0) /\
  videos s' = videos s + (if mem media_ext PHOTO_EXTENSIONS then 0 else 1) /\
  skipped_directories s' = skipped_directories s.

Section Bodies.
Context {FS : Type} {P : Platform FS}.

(** The [try] block of the first pass up to the counters: the sidecar is
    processed, the directory made, the media file and then the sidecar
    moved.  The first statement that raises ends the block. *)
Definition json_body (exts : list string) (target_dir json_path : string) (fs : FS)
  : FS * exc (string * string * string) :=
  match process_json_file exts fs json_path with
  | Raise e => (fs, Raise e)
  | Ok (target_path, media_ext, media_path) =>
      let '(fs1, made) := makedirs fs (join2 target_dir (dirname target_path)) in
      match made with
      | Raise e => (fs1, Raise e)
      | Ok _ =>
          let '(fs2, moved) :=
            shutil_move fs1 media_path (join2 target_dir target_path) in
          match moved with
          | Raise e => (fs2, Raise e)
          | Ok _ =>
              let '(fs3, moved') :=
                shutil_move fs2 json_path
                  (join target_dir [dirname target_path; basename json_path]) in
              match moved' with
              | Raise e => (fs3, Raise e)
              | Ok _ => (fs3, Ok (target_path, media_ext, media_path))
              end
          end
      end
  end.

(** The [try] block of the second pass up to the counters. *)
Definition media_body (target_dir file_path : string) (fs : FS)
  : FS * exc (string * string) :=
  match process_media_without_json fs file_path with
  | Raise e => (fs, Raise e)
  | Ok (target_path, media_ext) =>
      let '(fs1, made) := makedirs fs (join2 target_dir (dirname target_path)) in
      match made with
      | Raise e => (fs1, Raise e)
      | Ok _ =>
          let '(fs2, moved) :=
            shutil_move fs1 file_path (join2 target_dir target_path) in
          match moved with
          | Raise e => (fs2, Raise e)
          | Ok _ => (fs2, Ok (target_path, media_ext))
          end
      end
  end.

(** Whether the first pass enters its [try] block for [file], and how the
    block ends. *)
Definition json_outcome (exts : list string) (target_dir root file : string)
    (r : run FS) : option (exc (string * string * string)) :=
  if endswith file ".json"
  then Some (snd (json_body exts target_dir (join2 root file) (run_fs r)))
  else None.

(** The same for the second pass. *)
Definition media_outcome (target_dir root file : string) (r : run FS)
  : option (exc (string * string)) :=
  if negb (mem (lower (join2 root file)) (run_claimed r)) then
    if in_ALL_MEDIA_EXTENSIONS (lower (snd (splitext file)))
    then Some (snd (media_body target_dir (join2 root file) (run_fs r)))
    else None
  else None.

Lemma json_step_counts exts target_dir root file (r : run FS) :
  run_stats (json_step exts target_dir root file r) =
    match json_outcome exts target_dir root file r with
    | None => run_stats r
    | Some (Raise _) => count_error (run_stats r)
    | Some (Ok (_, media_ext, _)) => count_moved true media_ext (run_stats r)
    end.
Proof.
  unfold json_step, json_outcome, json_body.
  destruct (endswith file ".json"); [ | reflexivity].
  destruct (process_json_file _ _ _) as [[[target_path media_ext] media_path] | e];
    [ | reflexivity].
  destruct (makedirs _ _) as [fs1 [ [] | e ]]; [ | reflexivity].
  destruct (shutil_move fs1 _ _) as [fs2 [ [] | e ]]; [ | reflexivity].
  destruct (shutil_move fs2 _ _) as [fs3 [ [] | e ]]; reflexivity.
Qed.

Lemma media_step_counts target_dir root file (r : run FS) :
  run_stats (media_step target_dir root file r) =
    match media_outcome target_dir root file r with
    | None => run_stats r
    | Some (Raise _) => count_error (run_stats r)
    | Some (Ok (_, media_ext)) => count_moved false media_ext (run_stats r)
    end.
Proof.
  unfold media_step, media_outcome, media_body.
  destruct (negb _); [ | reflexivity].
  destruct (in_ALL_MEDIA_EXTENSIONS _); [ | reflexivity].
  destruct (process_media_without_json _ _) as [[target_path media_ext] | e];
    [ | reflexivity].
  destruct (makedirs _ _) as [fs1 [ [] | e ]]; [ | reflexivity].
  destruct (shutil_move fs1 _ _) as [fs2 [ [] | e ]]; reflexivity.
Qed.

End Bodies.

Lemma count_error_only s : only_error s (count_error s).
Proof. unfold only_error, count_error. cbn. repeat split; lia. Qed.

Lemma count_moved_one with_json media_ext s :
  one_move with_json media_ext s (count_moved with_json media_ext s).
Proof. unfold one_move, count_moved. cbn. repeat split; lia. Qed.

(** C10.  Every per-file step of either pass keeps both sums: [processed]
    is [processed_with_json + processed_without_json] and is
    [photos + videos].  What the step does to the counters is decided by
    how its [try] block ends: when a statement of the block raises (the
    failed file), [errors] is one more and every other counter is as
    before; when the block runs through, [errors] is as before,
    [processed] and the counter of the pass are one more, and so is
    [photos] or [videos]; a file for which the block is not entered leaves
    the counters as they were. *)
Theorem stats_invariant_per_file :
  forall (FS : Type) (P : Platform FS) exts target_dir root file (r : run FS),
    stats_ok (run_stats r) ->
    let s := run_stats r in
    let s1 := run_stats (json_step exts target_dir root file r) in
    let s2 := run_stats (media_step target_dir root file r) in
    stats_ok s1 /\ stats_ok s2 /\
    match json_outcome exts target_dir root file r with
    | None => s1 = s
    | Some (Raise _) => only_error s s1
    | Some (Ok (_, media_ext, _)) => one_move true media_ext s s1
    end /\
    match media_outcome target_dir root file r with
    | None => s2 = s
    | Some (Raise _) => only_error s s2
    | Some (Ok (_, media_ext)) => one_move false media_ext s s2
    end.
Proof.
  intros FS P exts target_dir root file r Hok s s1 s2.
  assert (H1 : match json_outcome exts target_dir root file r with
               | None => s1 = s
               | Some (Raise _) => only_error s s1
               | Some (Ok (_, media_ext, _)) => one_move true media_ext s s1
               end).
  { subst s1. rewrite json_step_counts.
    destruct (json_outcome exts target_dir root file r)
      as [[[[target_path media_ext] media_path] | e] | ];
      [apply count_moved_one | apply count_error_only | reflexivity]. }
  assert (H2 : match media_outcome target_dir root file r with
               | None => s2 = s
               | Some (Raise _) => only_error s s2
               | Some (Ok (_, media_ext)) => one_move false media_ext s s2
               end).
  { subst s2. rewrite media_step_counts.
    destruct (media_outcome target_dir root file r)
      as [[[target_path media_ext] | e] | ];
      [apply count_moved_one | apply count_error_only | reflexivity]. }
  assert (Hkeep : forall b s', stats_ok s ->
            match b with
            | None => s' = s
            | Some None => only_error s s'
            | Some (Some (with_json, media_ext)) => one_move with_json media_ext s s'
            end -> stats_ok s').
  { clear. intros b s' (Ha & Hb) H. unfold stats_ok.
    destruct b as [[[with_json media_ext] | ] | ].
    - unfold one_move in H.
      destruct with_json, (mem media_ext PHOTO_EXTENSIONS); lia.
    - unfold only_error in H. lia.
    - subst s'. auto. }
  split; [ | split; [ | split; [exact H1 | exact H2]]].
  - destruct (json_outcome exts target_dir root file r)
      as [[[[target_path media_ext] media_path] | e] | ].
    + exact (Hkeep (Some (Some (true, media_ext))) s1 Hok H1).
    + exact (Hkeep (Some None) s1 Hok H1).
    + exact (Hkeep None s1 Hok H1).
  - destruct (media_outcome target_dir root file r)
      as [[[target_path media_ext] | e] | ].
    + exact (Hkeep (Some (Some (false, media_ext))) s2 Hok H2).
    + exact (Hkeep (Some None) s2 Hok H2).
    + exact (Hkeep None s2 Hok H2).
Qed.

(** A [.json] name whose file cannot be opened: the step fails. *)
Lemma stats_invariant_per_file_witness :
  stats_ok stats0 /\
  (let r := {| run_fs := @nil (string * Mem.file); run_stats := stats0;
               run_claimed := []; run_log := [] |} in
   only_error stats0
     (run_stats (json_step (P := Mem.platform 0 []) Mem.exts "/home/user/out"
                   "/home/user/in" "x.json" r))).
Proof.
  assert (H0 : stats_ok stats0) by (split; reflexivity).
  split; [exact H0 | ].
  intros r.
  pose proof (stats_invariant_per_file Mem.fs (Mem.platform 0 []) Mem.exts
                "/home/user/out" "/home/user/in" "x.json" r H0)
    as (_ & _ & H & _).
  exact H.
Defined.

(* ================================================================== *)
(** ** The media matcher *)

Lemma first_ext_none body exts :
  (forall ext, In ext exts -> body ext = None) -> first_ext body exts = None.
Proof.
  induction exts as [ | e exts IH]; intros H; simpl; [reflexivity | ].
  rewrite (H e (or_introl eq_refl)). apply IH. intros ext Hin. apply H. now right.
Qed.

Lemma first_ext_some body exts r :
  first_ext body exts = Some r ->
  exists pre ext post,
    exts = (pre ++ ext :: post)%list /\ body ext = Some r /\
    forall e, In e pre -> body e = None.
Proof.
  induction exts as [ | e exts IH]; simpl; [discriminate | ].
  destruct (body e) as [r' | ] eqn:He.
  - intros [= <-]. exists [], e, exts. repeat split; auto. intros ? [].
  - intros H. destruct (IH H) as (pre & ext & post & -> & Hb & Hpre).
    exists (e :: pre), ext, post. repeat split; auto.
    intros e' [<- | Hin]; auto.
Qed.

(** C7.  When no tier matches, [find_media_file] raises the not-found error
    whose message holds the sidecar path and the title; [json_step] then
    leaves the file system and the claimed set as they were, makes [errors]
    one more and changes no other counter, reports the error, and the loop
    goes on with the next file of the directory. *)
Theorem no_match_is_counted_and_skipped :
  forall (FS : Type) (P : Platform FS) exts target_dir root file rest
         (r : run FS) metadata title,
    endswith file ".json" = true ->
    should_process_directory root target_dir = true ->
    json_load (run_fs r) (join2 root file) = Ok metadata ->
    getitem metadata "title" = Ok (JStr title) ->
    (forall ext, In ext exts ->
       tier1 (run_fs r) (fst (splitext (join2 root file))) ext = None /\
       tier2 (run_fs r) (dirname (join2 root file)) (fst (splitext title)) ext = None /\
       tier3 (run_fs r) (dirname (join2 root file)) (fst (splitext title)) ext = None) ->
    let json_path := join2 root file in
    let message :=
      "No media file found for " ++ json_path ++ " (title: " ++ title ++ ")" in
    let s := run_stats r in
    let r' := {| run_fs := run_fs r;
                 run_stats :=
                   {| processed := processed s;
                      processed_with_json := processed_with_json s;
                      processed_without_json := processed_without_json s;
                      errors := errors s + 1;
                      photos := photos s;
                      videos := videos s;
                      skipped_directories := skipped_directories s |};
                 run_claimed := run_claimed r;
                 run_log := run_log r ++ ["Error processing " ++ file ++ ": " ++ message] |} in
    find_media_file exts (run_fs r) json_path (JStr title)
      = Raise (FileNotFoundError message) /\
    json_step exts target_dir root file r = r' /\
    errors (run_stats (json_step exts target_dir root file r)) = errors s + 1 /\
    json_directory exts target_dir r (root, file :: rest)
      = json_directory exts target_dir r' (root, rest).
Proof.
  intros FS P exts target_dir root file rest r metadata title
         Hjson Hdir Hload Htitle Hnone json_path message s r'.
  subst json_path.
  assert (Hfind : find_media_file exts (run_fs r) (join2 root file) (JStr title)
                  = Raise (FileNotFoundError message)).
  { unfold find_media_file.
    rewrite first_ext_none by (intros ext Hin; apply (Hnone ext Hin)).
    rewrite first_ext_none by (intros ext Hin; apply (Hnone ext Hin)).
    rewrite first_ext_none by (intros ext Hin; apply (Hnone ext Hin)).
    reflexivity. }
  assert (Hstep : json_step exts target_dir root file r = r').
  { unfold json_step. rewrite Hjson. unfold process_json_file.
    rewrite Hload. cbn [bind]. rewrite Htitle. cbn [bind].
    rewrite Hfind. reflexivity. }
  split; [exact Hfind | ]. split; [exact Hstep | ]. split.
  - rewrite Hstep. reflexivity.
  - unfold json_directory. rewrite Hdir. cbn [negb fold_left].
    now rewrite Hstep.
Qed.

(** A lone sidecar whose media file is nowhere to be found. *)
Definition orphan : Mem.fs :=
  [("/home/user/in/x.json", Mem.sidecar (1 # 1) (Mem.taken "x.jpg" "1700000000"))].

Lemma no_match_is_counted_and_skipped_witness :
  let r := {| run_fs := orphan; run_stats := stats0;
              run_claimed := []; run_log := [] |} in
  run_stats
    (json_step (P := Mem.platform 0 []) Mem.exts "/home/user/out"
       "/home/user/in" "x.json" r)
  = {| processed := 0; processed_with_json := 0; processed_without_json := 0;
       errors := 1; photos := 0; videos := 0; skipped_directories := 0 |}.
Proof.
  intros r.
  refine (f_equal run_stats
    (proj1 (proj2 (no_match_is_counted_and_skipped Mem.fs (Mem.platform 0 [])
       Mem.exts "/home/user/out" "/home/user/in" "x.json" [] r
       (Mem.taken "x.jpg" "1700000000") "x.jpg" _ _ _ _ _)))).
  - reflexivity.
  - reflexivity.
  - reflexivity.
  - reflexivity.
  - intros ext Hin. simpl in Hin.
    repeat (destruct Hin as [<- | Hin]; [repeat split; reflexivity | ]).
    destruct Hin.
Defined.

(* ================================================================== *)
(** ** The validity threshold *)

Definition threshold : Q := inject_Z MIN_VALID_TIMESTAMP.

Lemma above_min_true t : above_min t = true <-> (threshold < t)%Q.
Proof.
  unfold above_min, threshold. rewrite negb_true_iff. split.
  - intros H. apply Qnot_le_lt. intros Hle.
    apply Qle_bool_iff in Hle. congruence.
  - intros H. destruct (Qle_bool t _) eqn:E; [ | reflexivity].
    apply Qle_bool_iff in E. exfalso. exact (Qlt_not_le _ _ H E).
Qed.

Lemma above_min_false t : above_min t = false <-> (t <= threshold)%Q.
Proof.
  unfold above_min, threshold. rewrite negb_false_iff. apply Qle_bool_iff.
Qed.

Lemma above_min_truthy t : above_min t = true -> truthy t = true.
Proof.
  intros H. apply above_min_true in H. unfold truthy.
  destruct (Qeq_bool t 0) eqn:E; [ | reflexivity].
  apply Qeq_bool_eq in E. exfalso.
  rewrite E in H. revert H. unfold threshold, Qlt. simpl. lia.
Qed.

Lemma above_min_int t :
  (MIN_VALID_TIMESTAMP <? t) = above_min (inject_Z t).
Proof.
  destruct (MIN_VALID_TIMESTAMP <? t) eqn:E; symmetry.
  - apply above_min_true. unfold threshold. rewrite <- Zlt_Qlt. now apply Z.ltb_lt.
  - apply above_min_false. unfold threshold. rewrite <- Zle_Qle. apply Z.ltb_ge in E. lia.
Qed.

Section ExtractorFacts.
Context {FS : Type} {P : Platform FS}.

Lemma exif_scan_ids_above tag exif t :
  exif_scan_ids tag exif = Some t -> above_min t = true.
Proof.
  induction exif as [ | [tag_id v] rest IH]; simpl; [discriminate | ].
  destruct (TAGS_get tag_id) as [name | ]; auto.
  destruct (String.eqb name tag); auto.
  destruct (parse_exif_date v) as [ts | e]; auto.
  destruct (above_min ts) eqn:E; auto.
  now intros [= <-].
Qed.

Lemma exif_scan_tags_above tags exif t :
  exif_scan_tags tags exif = Some t -> above_min t = true.
Proof.
  induction tags as [ | tag tags IH]; simpl; [discriminate | ].
  destruct (exif_scan_ids tag exif) as [t' | ] eqn:E; auto.
  intros [= <-]. eapply exif_scan_ids_above; eauto.
Qed.

Lemma get_exif_date_returns fs p : returns (get_exif_date fs p).
Proof.
  unfold get_exif_date, returns.
  destruct (image_getexif fs p) as [[[ | e es] | ] | e]; simpl; eauto.
Qed.

Lemma get_exif_date_above fs p t :
  get_exif_date fs p = Ok (Some t) -> above_min t = true.
Proof.
  unfold get_exif_date.
  destruct (image_getexif fs p) as [[[ | e es] | ] | e]; cbn [bind catch];
    try discriminate.
  intros H. apply (exif_scan_tags_above date_tags (e :: es)).
  injection H as H'. exact H'.
Qed.

Lemma probe_date_above p t : probe_date p = Ok (Some t) -> above_min t = true.
Proof.
  destruct p as [e | | [ | [ts | e]]]; simpl; try discriminate.
  destruct (above_min ts) eqn:E; [ | discriminate]. now intros [= <-].
Qed.

Lemma video_scan_fields_above metadata fields t :
  video_scan_fields metadata fields = Ok (Some t) -> above_min t = true.
Proof.
  induction fields as [ | f fields IH]; simpl; [discriminate | ].
  destruct (probe_date (meta_attr metadata f)) as [[t' | ] | e] eqn:E; simpl;
    try discriminate; auto.
  intros [= <-]. eapply probe_date_above; eauto.
Qed.

Lemma video_scan_streams_above streams t :
  video_scan_streams streams = Ok (Some t) -> above_min t = true.
Proof.
  induction streams as [ | s streams IH]; simpl; [discriminate | ].
  destruct (probe_date (stream_creation_date s)) as [[t' | ] | e] eqn:E; simpl;
    try discriminate; auto.
  intros [= <-]. eapply probe_date_above; eauto.
Qed.

Lemma get_video_creation_time_returns fs p :
  returns (get_video_creation_time fs p).
Proof.
  unfold get_video_creation_time, returns, catch.
  match goal with |- exists a, match ?m with _ => _ end = _ => destruct m end; eauto.
Qed.

Lemma get_video_creation_time_above fs p t :
  get_video_creation_time fs p = Ok (Some t) -> above_min t = true.
Proof.
  unfold get_video_creation_time.
  destruct (createParser fs p) as [[parser | ] | e]; cbn [bind catch];
    try discriminate.
  destruct (extractMetadata parser) as [[metadata | ] | e]; cbn [bind catch];
    try discriminate.
  assert (Hfields : forall t',
            (if meta_truthy metadata
             then video_scan_fields metadata date_fields
             else Ok None) = Ok (Some t') -> above_min t' = true).
  { intros t'. destruct (meta_truthy metadata); [ | discriminate].
    apply video_scan_fields_above. }
  destruct (if meta_truthy metadata then _ else _) as [[t' | ] | e];
    cbn [bind catch]; try discriminate.
  - intros [= <-]. now apply Hfields.
  - destruct (meta_streams metadata) as [e | | streams]; cbn [bind catch];
      try discriminate.
    destruct (video_scan_streams streams) as [[t' | ] | e] eqn:E';
      cbn [bind catch]; try discriminate.
    intros [= <-]. eapply video_scan_streams_above; eauto.
Qed.

End ExtractorFacts.

(* ================================================================== *)
(** ** The resolution order *)

(** The order of sources as the specification words it: each source offers
    a labelled timestamp or nothing, and the first offer is taken. *)

Inductive media_kind : Type := Photo | Video | NoMedia.

Definition kind_of (path : string) : media_kind :=
  let ext := lower (snd (splitext path)) in
  if mem ext PHOTO_EXTENSIONS then Photo
  else if mem ext VIDEO_EXTENSIONS then Video
  else NoMedia.

Fixpoint first_accepted {A} (sources : list (option A)) : option A :=
  match sources with
  | [] => None
  | Some a :: _ => Some a
  | None :: rest => first_accepted rest
  end.

Definition accept_above (label : string) (candidate : option Q) : option (Q * string) :=
  match candidate with
  | Some t => if above_min t then Some (t, label) else None
  | None => None
  end.

Definition attempt {A} (m : exc A) : option A :=
  match m with
  | Ok a => Some a
  | Raise _ => None
  end.

Section Order.
Context {FS : Type} {P : Platform FS}.

(** The extractor matching the kind of the file. *)
Definition embedded_source (fs : FS) (path : string) : option (Q * string) :=
  match kind_of path with
  | Photo =>
      match get_exif_date fs path with
      | Ok (Some t) => Some (t, "EXIF")
      | _ => None
      end
  | Video =>
      match get_video_creation_time fs path with
      | Ok (Some t) => Some (t, "Video metadata")
      | _ => None
      end
  | NoMedia => None
  end.

(** A sidecar field [field.timestamp], read as an integer. *)
Definition sidecar_source (metadata : json) (field label : string)
  : option (Q * string) :=
  accept_above label (option_map inject_Z (attempt (json_timestamp metadata field))).

Definition creation_source (fs : FS) (path : string) : option (Q * string) :=
  accept_above "File creation time" (attempt (getctime fs path)).

(** The last resort: no threshold, and nothing behind it. *)
Definition modification_source (fs : FS) (path : string) : exc (Q * string) :=
  t <- getmtime fs path ;; Ok (t, "File modification time").

Definition resolve_with_sidecar (fs : FS) (metadata : json) (path : string)
  : exc (Q * string) :=
  match first_accepted
          [embedded_source fs path;
           sidecar_source metadata "photoTakenTime" "JSON photoTakenTime";
           sidecar_source metadata "creationTime" "JSON creationTime";
           creation_source fs path]
  with
  | Some found => Ok found
  | None => modification_source fs path
  end.

Definition resolve_without_sidecar (fs : FS) (path : string) : exc (Q * string) :=
  match first_accepted [embedded_source fs path; creation_source fs path] with
  | Some found => Ok found
  | None => modification_source fs path
  end.

(** The opening [if]/[elif] of both resolvers is the embedded source. *)
Lemma embedded_block fs path :
  (if mem (lower (snd (splitext path))) PHOTO_EXTENSIONS then
     exif_date <- get_exif_date fs path ;;
     match exif_date with
     | Some t => if truthy t then Ok (Some (t, "EXIF")) else Ok None
     | None => Ok None
     end
   else if mem (lower (snd (splitext path))) VIDEO_EXTENSIONS then
     video_date <- get_video_creation_time fs path ;;
     match video_date with
     | Some t => if truthy t then Ok (Some (t, "Video metadata")) else Ok None
     | None => Ok None
     end
   else Ok None)
  = Ok (embedded_source fs path).
Proof.
  unfold embedded_source, kind_of.
  destruct (mem _ PHOTO_EXTENSIONS).
  - destruct (get_exif_date_returns fs path) as [[t | ] E]; rewrite E; cbn [bind];
      [ | reflexivity].
    now rewrite (above_min_truthy t (get_exif_date_above fs path t E)).
  - destruct (mem _ VIDEO_EXTENSIONS); [ | reflexivity].
    destruct (get_video_creation_time_returns fs path) as [[t | ] E]; rewrite E;
      cbn [bind]; [ | reflexivity].
    now rewrite (above_min_truthy t (get_video_creation_time_above fs path t E)).
Qed.

(** The guarded creation-time block. *)
Lemma creation_block fs path :
  catch
    (creation_time <- getctime fs path ;;
     if above_min creation_time
     then Ok (Some (creation_time, "File creation time"))
     else Ok None)
    (fun _ => Ok None)
  = Ok (creation_source fs path).
Proof.
  unfold creation_source, accept_above, attempt.
  destruct (getctime fs path) as [t | e]; cbn [bind catch]; [ | reflexivity].
  now destruct (above_min t).
Qed.

(** [get_json_date] followed by [if json_date:]. *)
Lemma json_block metadata :
  match get_json_date metadata with
  | Some (json_date, json_source) =>
      if truthy (inject_Z json_date) then Some (inject_Z json_date, json_source)
      else None
  | None => None
  end
  = first_accepted
      [sidecar_source metadata "photoTakenTime" "JSON photoTakenTime";
       sidecar_source metadata "creationTime" "JSON creationTime"].
Proof.
  unfold get_json_date, get_json_date_creation, sidecar_source, accept_above, attempt.
  destruct (json_timestamp metadata "photoTakenTime") as [t | e]; cbn [option_map].
  - rewrite <- above_min_int.
    destruct (MIN_VALID_TIMESTAMP <? t) eqn:E.
    + rewrite above_min_int in E. now rewrite (above_min_truthy _ E).
    + cbn [first_accepted].
      destruct (json_timestamp metadata "creationTime") as [t' | e']; cbn [option_map];
        [ | reflexivity].
      rewrite <- above_min_int.
      destruct (MIN_VALID_TIMESTAMP <? t') eqn:E'; [ | reflexivity].
      rewrite above_min_int in E'. now rewrite (above_min_truthy _ E').
  - cbn [first_accepted].
    destruct (json_timestamp metadata "creationTime") as [t' | e']; cbn [option_map];
      [ | reflexivity].
    rewrite <- above_min_int.
    destruct (MIN_VALID_TIMESTAMP <? t') eqn:E'; [ | reflexivity].
    rewrite above_min_int in E'. now rewrite (above_min_truthy _ E').
Qed.

Lemma get_valid_timestamp_chain fs metadata path :
  get_valid_timestamp fs metadata path = resolve_with_sidecar fs metadata path.
Proof.
  unfold get_valid_timestamp, resolve_with_sidecar.
  cbv zeta. rewrite embedded_block. cbn [bind first_accepted].
  destruct (embedded_source fs path) as [found | ]; [reflexivity | ].
  rewrite json_block. cbn [first_accepted].
  destruct (sidecar_source metadata "photoTakenTime" _) as [found | ]; [reflexivity | ].
  destruct (sidecar_source metadata "creationTime" _) as [found | ]; [reflexivity | ].
  rewrite creation_block. cbn [bind].
  destruct (creation_source fs path); reflexivity.
Qed.

Lemma get_file_date_chain fs path :
  get_file_date fs path = resolve_without_sidecar fs path.
Proof.
  unfold get_file_date, resolve_without_sidecar.
  cbv zeta. rewrite embedded_block. cbn [bind first_accepted].
  destruct (embedded_source fs path) as [found | ]; [reflexivity | ].
  rewrite creation_block. cbn [bind].
  destruct (creation_source fs path); reflexivity.
Qed.

End Order.

(** C1.  With a sidecar, the resolver takes the first source that offers a
    timestamp, in this order: the extractor of the file's kind (EXIF for a
    photo extension, video metadata for a video extension), the sidecar's
    [photoTakenTime.timestamp], its [creationTime.timestamp], the file
    system's creation time, and last the modification time. *)
Theorem with_sidecar_priority_order :
  forall (FS : Type) (P : Platform FS) (fs : FS) (metadata : json) (path : string),
    get_valid_timestamp fs metadata path =
      match first_accepted
              [embedded_source fs path;
               sidecar_source metadata "photoTakenTime" "JSON photoTakenTime";
               sidecar_source metadata "creationTime" "JSON creationTime";
               creation_source fs path]
      with
      | Some found => Ok found
      | None => modification_source fs path
      end.
Proof. intros. apply get_valid_timestamp_chain. Qed.

(* ================================================================== *)
(** ** Files without a sidecar *)

(** The same platform, except that reading a JSON file answers [load]. *)
Definition with_json_load {FS : Type} (P : Platform FS)
    (load : FS -> string -> exc json) : Platform FS :=
  {| image_getexif := image_getexif;
     strptime_mktime := strptime_mktime;
     createParser := createParser;
     path_exists := path_exists;
     getctime := getctime;
     getmtime := getmtime;
     glob_glob := glob_glob;
     json_load := load;
     utcoffset := utcoffset;
     getcwd := getcwd;
     getcwd_absolute := getcwd_absolute;
     makedirs := makedirs;
     shutil_move := shutil_move |}.

(** C5.  Without a sidecar the resolver takes the first of: the extractor
    of the file's kind, the creation time when above the threshold, the
    modification time.  No JSON is read on the way: whatever the JSON files
    of the platform hold, [get_file_date] and the whole pipeline
    [process_media_without_json] give the same result. *)
Theorem without_sidecar_reads_no_json :
  forall (FS : Type) (P : Platform FS) (fs : FS) (path : string),
    get_file_date fs path =
      match first_accepted [embedded_source fs path; creation_source fs path] with
      | Some found => Ok found
      | None => modification_source fs path
      end
    /\ forall load : FS -> string -> exc json,
         get_file_date (P := with_json_load P load) fs path
           = get_file_date (P := P) fs path
         /\ process_media_without_json (P := with_json_load P load) fs path
              = process_media_without_json (P := P) fs path.
Proof.
  intros FS P fs path. split.
  - apply get_file_date_chain.
  - intros load. split; reflexivity.
Qed.

(* ================================================================== *)
(** ** Totality *)

Section Totality.
Context {FS : Type} {P : Platform FS}.

Lemma resolve_with_sidecar_raises fs metadata path e :
  resolve_with_sidecar fs metadata path = Raise e -> getmtime fs path = Raise e.
Proof.
  unfold resolve_with_sidecar, modification_source.
  destruct (first_accepted _); [discriminate | ].
  destruct (getmtime fs path); cbn [bind]; congruence.
Qed.

Lemma resolve_without_sidecar_raises fs path e :
  resolve_without_sidecar fs path = Raise e -> getmtime fs path = Raise e.
Proof.
  unfold resolve_without_sidecar, modification_source.
  destruct (first_accepted _); [discriminate | ].
  destruct (getmtime fs path); cbn [bind]; congruence.
Qed.

Lemma returns_or_raises {A} (m : exc A) :
  (forall e, m = Raise e -> False) -> returns m.
Proof. destruct m as [a | e]; intros H; [now exists a | destruct (H e eq_refl)]. Qed.

End Totality.

(** C8, amended.  Both extractors return for every platform and every
    path, with [None] for "no usable timestamp" and only timestamps above
    the threshold otherwise.  The resolvers return a labelled timestamp
    whenever the modification time of the file can be read; the only
    exception they let through is the one [os.path.getmtime] raises. *)
Theorem extractors_total_resolver_up_to_mtime :
  forall (FS : Type) (P : Platform FS) (fs : FS) (metadata : json) (path : string),
    returns (get_exif_date fs path) /\
    returns (get_video_creation_time fs path) /\
    (returns (getmtime fs path) ->
       returns (get_valid_timestamp fs metadata path) /\
       returns (get_file_date fs path)) /\
    (forall e, get_valid_timestamp fs metadata path = Raise e ->
               getmtime fs path = Raise e) /\
    (forall e, get_file_date fs path = Raise e -> getmtime fs path = Raise e).
Proof.
  intros FS P fs metadata path.
  assert (Hv : forall e, get_valid_timestamp fs metadata path = Raise e ->
                         getmtime fs path = Raise e).
  { intros e. rewrite get_valid_timestamp_chain. apply resolve_with_sidecar_raises. }
  assert (Hf : forall e, get_file_date fs path = Raise e -> getmtime fs path = Raise e).
  { intros e. rewrite get_file_date_chain. apply resolve_without_sidecar_raises. }
  repeat split; auto.
  - apply get_exif_date_returns.
  - apply get_video_creation_time_returns.
  - destruct H as [m Hm]. apply returns_or_raises. intros e He.
    apply Hv in He. congruence.
  - destruct H as [m Hm]. apply returns_or_raises. intros e He.
    apply Hf in He. congruence.
Qed.

Lemma extractors_total_resolver_up_to_mtime_witness :
  returns (getmtime (Platform := Mem.platform 0 []) scenario "/home/user/in/clip.mp4") /\
  returns (get_file_date (P := Mem.platform 0 []) scenario "/home/user/in/clip.mp4").
Proof.
  assert (H : returns (getmtime (Platform := Mem.platform 0 []) scenario
                         "/home/user/in/clip.mp4")).
  { eexists. reflexivity. }
  split; [exact H | ].
  exact (proj2 (proj1 (proj2 (proj2
    (extractors_total_resolver_up_to_mtime Mem.fs (Mem.platform 0 []) scenario
       JNull "/home/user/in/clip.mp4"))) H)).
Defined.

(** A name the directory lists but whose target is gone, such as a dangling
    link: no source offers a timestamp and [os.path.getmtime] raises. *)
Lemma resolver_raises_on_unreadable_file :
  get_valid_timestamp (P := Mem.platform 0 []) scenario
    (Mem.taken "gone.jpg" "1") "/home/user/in/gone.jpg"
  = Raise (Mem.missing "/home/user/in/gone.jpg")
  /\ ~ returns (get_valid_timestamp (P := Mem.platform 0 []) scenario
                  (Mem.taken "gone.jpg" "1") "/home/user/in/gone.jpg")
  /\ ~ returns (get_file_date (P := Mem.platform 0 []) scenario
                  "/home/user/in/gone.jpg").
Proof.
  repeat split.
  - intros [a Ha]. vm_compute in Ha. discriminate.
  - intros [a Ha]. vm_compute in Ha. discriminate.
Qed.

(* ================================================================== *)
(** ** The threshold along the chain *)

Section Threshold.
Context {FS : Type} {P : Platform FS}.






Lemma first_accepted_in {A} (sources : list (option A)) a :
  first_accepted sources = Some a -> In (Some a) sources.
Proof.
  induction sources as [ | [b | ] rest IH]; simpl; [discriminate | | ].
  - intros [= ->]. now left.
  - intros H. right. now apply IH.
Qed.



End Threshold.




(* ================================================================== *)
(** ** Tier order of the matcher *)

Section Matcher.
Context {FS : Type} {P : Platform FS}.

Lemma find_media_file_tier1 exts fs json_path title r :
  first_ext (tier1 fs (fst (splitext json_path))) exts = Some r ->
  find_media_file exts fs json_path title = Ok r.
Proof. intros H. unfold find_media_file. now rewrite H. Qed.

Lemma find_media_file_tier2 exts fs json_path title r :
  first_ext (tier1 fs (fst (splitext json_path))) exts = None ->
  first_ext (tier2 fs (dirname json_path) (fst (splitext title))) exts = Some r ->
  find_media_file exts fs json_path (JStr title) = Ok r.
Proof. intros H1 H2. unfold find_media_file. now rewrite H1, H2. Qed.

Lemma find_media_file_tier3 exts fs json_path title r :
  first_ext (tier1 fs (fst (splitext json_path))) exts = None ->
  first_ext (tier2 fs (dirname json_path) (fst (splitext title))) exts = None ->
  first_ext (tier3 fs (dirname json_path) (fst (splitext title))) exts = Some r ->
  find_media_file exts fs json_path (JStr title) = Ok r.
Proof. intros H1 H2 H3. unfold find_media_file. now rewrite H1, H2, H3. Qed.

(** What tier 1 hands back is always the lower-case spelling, whichever of
    the two spellings exists. *)
Lemma tier1_shape exts fs base r :
  first_ext (tier1 fs base) exts = Some r ->
  exists ext, In ext exts /\ r = base ++ lower ext /\
    (path_exists fs (base ++ lower ext) = true \/
     path_exists fs (base ++ upper ext) = true).
Proof.
  intros H. destruct (first_ext_some _ _ _ H) as (pre & ext & post & -> & Hb & _).
  exists ext. split; [apply in_or_app; right; now left | ].
  unfold tier1 in Hb.
  destruct (path_exists fs (base ++ lower ext)) eqn:E1;
    destruct (path_exists fs (base ++ upper ext)) eqn:E2; cbn in Hb;
    try discriminate; injection Hb as <-; auto.
Qed.

End Matcher.

(** A photo whose extension is spelled in upper case, next to its sidecar,
    on a file system that tells [.JPG] from [.jpg]. *)
Definition upper_case_only : Mem.fs :=
  [("/home/user/in/IMG_001.JPG", Mem.plain (1700000000 # 1));
   ("/home/user/in/IMG_001.json",
      Mem.sidecar (1700000000 # 1) (Mem.taken "IMG_001.JPG" "1700000000"))].

(** C3, where the code departs from it.  The exact-stem match of the
    sidecar [IMG_001.json] is the file [IMG_001.JPG], found by the
    upper-case probe of tier 1; [find_media_file] answers [IMG_001.jpg],
    a path that does not exist.  The move of that path then fails: the
    sidecar is counted as an error, and the photo, already entered in the
    claimed set, is left where it was by both passes. *)
Theorem tier1_upper_case_hit_returns_lower_case_path :
  let P := Mem.platform 0 [] in
  let r0 := {| run_fs := upper_case_only; run_stats := stats0;
               run_claimed := []; run_log := [] |} in
  let files := ["IMG_001.JPG"; "IMG_001.json"] in
  let r := organize_media Mem.exts upper_case_only "/home/user/in" "/home/user/out"
             [("/home/user/in", files)] [("/home/user/in", files)] in
  path_exists upper_case_only "/home/user/in/IMG_001.JPG" = true /\
  path_exists upper_case_only "/home/user/in/IMG_001.jpg" = false /\
  tier1 upper_case_only "/home/user/in/IMG_001" ".jpg"
    = Some "/home/user/in/IMG_001.jpg" /\
  find_media_file Mem.exts upper_case_only "/home/user/in/IMG_001.json"
    (JStr "IMG_001.JPG") = Ok "/home/user/in/IMG_001.jpg" /\
  run_stats (json_step Mem.exts "/home/user/out" "/home/user/in" "IMG_001.json" r0)
    = count_error stats0 /\
  run_stats r = count_error stats0 /\
  run_log r =
    ["Error processing IMG_001.json: " ++
     "[Errno 2] No such file or directory: '/home/user/in/IMG_001.jpg'"] /\
  map fst (run_fs r) = ["/home/user/in/IMG_001.JPG"; "/home/user/in/IMG_001.json"].
Proof. vm_compute. repeat split. Qed.

(* ================================================================== *)
(** ** Facts about strings and paths *)

Local Arguments Ascii.eqb : simpl never.
Local Arguments String.eqb : simpl never.

Lemma append_nil_r (s : string) : s ++ "" = s.
Proof. induction s as [ | c s IH]; simpl; [reflexivity | now rewrite IH]. Qed.

Lemma append_assoc (a b c : string) : (a ++ b) ++ c = a ++ b ++ c.
Proof. induction a as [ | x a IH]; simpl; [reflexivity | now rewrite IH]. Qed.

Lemma contains_char_append c a b :
  contains_char c (a ++ b) = contains_char c a || contains_char c b.
Proof.
  induction a as [ | x a IH]; simpl; [reflexivity | ].
  now rewrite IH, orb_assoc.
Qed.

Lemma lower_char_sep c : Ascii.eqb (lower_char c) sep = Ascii.eqb c sep.
Proof. destruct c as [[] [] [] [] [] [] [] []]; reflexivity. Qed.

Lemma contains_sep_lower s : contains_char sep (lower s) = contains_char sep s.
Proof.
  unfold lower. induction s as [ | c s IH]; simpl; [reflexivity | ].
  now rewrite IH, lower_char_sep.
Qed.

Lemma startswith_sep s :
  contains_char sep s = false -> startswith s "/" = false.
Proof.
  destruct s as [ | c s]; simpl; [reflexivity | ].
  intros H. apply orb_false_iff in H. destruct H as [H _].
  rewrite Ascii.eqb_sym. fold sep. now rewrite H.
Qed.

Lemma startswith_append a b : startswith (a ++ b) a = true.
Proof.
  induction a as [ | x a IH]; simpl; [reflexivity | ].
  now rewrite Ascii.eqb_refl, IH.
Qed.

Lemma startswith_trans a b c :
  startswith a b = true -> startswith b c = true -> startswith a c = true.
Proof.
  revert a b. induction c as [ | z c IH]; intros a b Hab Hbc; [reflexivity | ].
  destruct b as [ | y b]; [discriminate | ].
  destruct a as [ | x a]; [discriminate | ].
  simpl in *. apply andb_true_iff in Hab, Hbc.
  destruct Hab as [Hyx Hab], Hbc as [Hzy Hbc].
  apply Ascii.eqb_eq in Hyx, Hzy. subst.
  rewrite Ascii.eqb_refl. simpl. eauto.
Qed.

Lemma startswith_lower a b :
  startswith a b = true -> startswith (lower a) (lower b) = true.
Proof.
  unfold lower. revert a. induction b as [ | y b IH]; intros a H; [reflexivity | ].
  destruct a as [ | x a]; [discriminate | ].
  simpl in *. apply andb_true_iff in H. destruct H as [Hyx H].
  apply Ascii.eqb_eq in Hyx. subst. rewrite Ascii.eqb_refl. simpl. auto.
Qed.

(** [endswith] of a string whose last character is known. *)
Lemma endswith_last s c :
  endswith (s ++ String c "") "/" = Ascii.eqb sep c.
Proof.
  unfold endswith.
  assert (H : rev_str "" (s ++ String c "") = String c (rev_str "" s)).
  { generalize "" at 1 3. induction s as [ | x s IH]; intros acc; simpl;
      [reflexivity | apply IH]. }
  rewrite H. simpl. now rewrite andb_true_r.
Qed.

Lemma split_tail_spec p :
  p = fst (split_tail p) ++ snd (split_tail p) /\
  contains_char sep (snd (split_tail p)) = false.
Proof.
  induction p as [ | c p [IH1 IH2]]; simpl; [split; reflexivity | ].
  destruct (split_tail p) as [h t]; simpl in *.
  destruct (Ascii.eqb c sep) eqn:E; simpl.
  - split; [now rewrite <- IH1 | assumption].
  - destruct h as [ | x h]; simpl in *.
    + split; [now rewrite <- IH1 | ]. now rewrite E.
    + split; [now rewrite <- IH1 | assumption].
Qed.

Lemma basename_no_sep p : contains_char sep (basename p) = false.
Proof. apply split_tail_spec. Qed.

Lemma split_tail_no_sep s :
  contains_char sep s = false -> split_tail s = ("", s).
Proof.
  induction s as [ | c s IH]; simpl; [reflexivity | ].
  intros H. apply orb_false_iff in H. destruct H as [Hc Hs].
  rewrite (IH Hs). simpl. now rewrite Hc.
Qed.

Lemma span_dots_spec s : s = fst (span_dots s) ++ snd (span_dots s).
Proof.
  induction s as [ | c s IH]; simpl; [reflexivity | ].
  destruct (Ascii.eqb c extsep); simpl; [ | reflexivity].
  destruct (span_dots s) as [d t]; simpl in *. now rewrite <- IH.
Qed.

Lemma split_last_dot_spec s a b : split_last_dot s = Some (a, b) -> s = a ++ b.
Proof.
  revert a b. induction s as [ | c s IH]; intros a b; simpl; [discriminate | ].
  destruct (split_last_dot s) as [[a' b'] | ].
  - intros [= <- <-]. simpl. now rewrite (IH a' b' eq_refl).
  - destruct (Ascii.eqb c extsep); [ | discriminate]. now intros [= <- <-].
Qed.

(** [splitext] cuts its argument in two. *)
Lemma splitext_spec p : p = fst (splitext p) ++ snd (splitext p).
Proof.
  unfold splitext.
  pose proof (split_tail_spec p) as [Hp _].
  destruct (split_tail p) as [h base]; simpl in Hp.
  pose proof (span_dots_spec base) as Hb.
  destruct (span_dots base) as [dots rest]; simpl in Hb.
  destruct (split_last_dot rest) as [[stem ext] | ] eqn:E; simpl.
  - apply split_last_dot_spec in E. subst.
    now rewrite !append_assoc.
  - now rewrite append_nil_r.
Qed.

(** The extension of a path is the extension of its last component. *)
Lemma splitext_basename p : snd (splitext p) = snd (splitext (basename p)).
Proof.
  unfold splitext at 2. unfold basename.
  rewrite (split_tail_no_sep _ (proj2 (split_tail_spec p))).
  unfold splitext.
  destruct (split_tail p) as [h base]; simpl.
  destruct (span_dots base) as [dots rest].
  destruct (split_last_dot rest) as [[stem ext] | ]; reflexivity.
Qed.

(** The name [get_target_path] gives the moved file has no separator. *)
Lemma target_name_no_sep p :
  contains_char sep
    (fst (splitext (basename p)) ++ lower (snd (splitext p))) = false.
Proof.
  rewrite splitext_basename.
  pose proof (basename_no_sep p) as H.
  rewrite (splitext_spec (basename p)), contains_char_append in H.
  apply orb_false_iff in H. destruct H as [H1 H2].
  now rewrite contains_char_append, contains_sep_lower, H1, H2.
Qed.

(* ================================================================== *)
(** ** Joining the three parts of a destination *)

Lemma last_char s :
  nonempty s = true -> exists s' c, s = s' ++ String c "".
Proof.
  induction s as [ | x s IH]; [discriminate | ]. intros _.
  destruct s as [ | y s].
  - now exists "", x.
  - destruct (IH eq_refl) as (s' & c & E). exists (String x s'), c.
    simpl. now rewrite <- E.
Qed.

Lemma endswith_no_sep a b :
  nonempty b = true -> contains_char sep b = false ->
  endswith (a ++ b) "/" = false.
Proof.
  intros Hb Hs. destruct (last_char b Hb) as (b' & c & ->).
  rewrite <- append_assoc, endswith_last.
  rewrite contains_char_append in Hs. apply orb_false_iff in Hs.
  destruct Hs as [_ Hs]. simpl in Hs. rewrite orb_false_r in Hs.
  now rewrite Ascii.eqb_sym.
Qed.

Lemma nonempty_append a b : nonempty a = true -> nonempty (a ++ b) = true.
Proof. destruct a; [discriminate | reflexivity]. Qed.

Lemma join2_plain a b c :
  nonempty b = true -> contains_char sep b = false ->
  contains_char sep c = false ->
  join2 (a ++ b) c = a ++ b ++ "/" ++ c.
Proof.
  intros Hb Hs Hc. unfold join2.
  rewrite (startswith_sep c Hc), (endswith_no_sep a b Hb Hs).
  assert (Hn : nonempty (a ++ b) = true).
  { destruct a; [exact Hb | reflexivity]. }
  rewrite Hn. simpl. now rewrite append_assoc.
Qed.

Lemma join_plan a b c :
  nonempty a = true -> contains_char sep a = false ->
  nonempty b = true -> contains_char sep b = false ->
  contains_char sep c = false ->
  join a [b; c] = a ++ "/" ++ b ++ "/" ++ c.
Proof.
  intros Ha Hsa Hb Hsb Hc. unfold join. cbn [fold_left].
  pose proof (join2_plain "" a b Ha Hsa Hsb) as E1. cbn [append] in E1.
  rewrite E1.
  change (a ++ String "/" b) with (a ++ "/" ++ b).
  rewrite <- append_assoc, (join2_plain (a ++ "/") b c Hb Hsb Hc).
  now rewrite append_assoc.
Qed.

(* ================================================================== *)
(** ** Dates as text *)

Definition is_digit (c : ascii) : bool :=
  match digit_val c with Some _ => true | None => false end.

Fixpoint all_digits (s : string) : bool :=
  match s with
  | EmptyString => true
  | String c r => is_digit c && all_digits r
  end.

(** [s] is the decimal numeral of [n] written with exactly [width] digits. *)
Definition decimal_of (width : nat) (n : Z) (s : string) : bool :=
  (String.length s =? width)%nat && all_digits s &&
  match int_of_str s with
  | Ok v => v =? n
  | Raise _ => false
  end.

Lemma all_digits_no_sep s : all_digits s = true -> contains_char sep s = false.
Proof.
  induction s as [ | c s IH]; simpl; [reflexivity | ].
  intros H. apply andb_true_iff in H. destruct H as [Hc Hs].
  rewrite (IH Hs), orb_false_r.
  destruct (Ascii.eqb c sep) eqn:E; [ | reflexivity].
  apply Ascii.eqb_eq in E. subst. discriminate.
Qed.

Lemma decimal_of_parts width n s :
  decimal_of width n s = true ->
  String.length s = width /\ all_digits s = true /\ int_of_str s = Ok n.
Proof.
  unfold decimal_of. intros H.
  apply andb_true_iff in H. destruct H as [H H3].
  apply andb_true_iff in H. destruct H as [H1 H2].
  apply Nat.eqb_eq in H1. repeat split; auto.
  destruct (int_of_str s) as [v | e]; [ | discriminate].
  apply Z.eqb_eq in H3. now subst.
Qed.

Lemma range_check (f : Z -> bool) (lo : Z) (n : nat) :
  forallb f (map (fun i => lo + Z.of_nat i) (seq 0 n)) = true ->
  forall z, lo <= z < lo + Z.of_nat n -> f z = true.
Proof.
  intros H z Hz. rewrite forallb_forall in H. apply H.
  rewrite in_map_iff. exists (Z.to_nat (z - lo)). split; [lia | ].
  apply in_seq. lia.
Qed.

Lemma str_int_year y :
  1000 <= y <= 9999 -> decimal_of 4 y (str_int y) = true.
Proof.
  intros H.
  apply (range_check (fun y => decimal_of 4 y (str_int y)) 1000 (Z.to_nat 9000));
    [ | lia].
  vm_compute. reflexivity.
Qed.

Lemma zfill_two n :
  0 <= n <= 99 -> decimal_of 2 n (zfill 2 (str_int n)) = true.
Proof.
  intros H.
  apply (range_check (fun n => decimal_of 2 n (zfill 2 (str_int n))) 0 (Z.to_nat 100));
    [ | lia].
  vm_compute. reflexivity.
Qed.

Lemma civil_from_days_range z :
  let '(y, m, d) := civil_from_days z in 1 <= m <= 12 /\ 1 <= d <= 31.
Proof.
  unfold civil_from_days.
  set (doe := (z + 719468) mod 146097).
  assert (Hdoe : 0 <= doe < 146097) by (apply Z.mod_pos_bound; lia).
  set (yoe := (doe - doe / 1460 + doe / 36524 - doe / 146096) / 365).
  set (doy := doe - (365 * yoe + yoe / 4 - yoe / 100)).
  assert (Hdoy : 0 <= doy <= 365).
  { subst doy yoe. clearbody doe. Z.div_mod_to_equations. lia. }
  set (mp := (5 * doy + 2) / 153).
  assert (Hmp : 0 <= mp <= 11 /\ 1 <= doy - (153 * mp + 2) / 5 + 1 <= 31).
  { subst mp. clearbody doy. Z.div_mod_to_equations. lia. }
  destruct Hmp as [Hmp Hd].
  destruct (mp <? 10) eqn:E; split; try exact Hd.
  - apply Z.ltb_lt in E. lia.
  - apply Z.ltb_ge in E. lia.
Qed.

Section Planner.
Context {FS : Type} {P : Platform FS}.

Lemma fromtimestamp_range ts y m d :
  fromtimestamp ts = Ok (y, m, d) ->
  1 <= y <= 9999 /\ 1 <= m <= 12 /\ 1 <= d <= 31.
Proof.
  unfold fromtimestamp.
  set (days := (_ + _) / 86400).
  pose proof (civil_from_days_range days) as H.
  destruct (civil_from_days days) as [[y' m'] d'].
  destruct ((1 <=? y') && (y' <=? 9999)) eqn:E; [ | discriminate].
  intros [= <- <- <-]. split; [ | exact H].
  apply andb_true_iff in E. destruct E as [E1 E2].
  apply Z.leb_le in E1, E2. lia.
Qed.

(** The destination for a date whose three numerals are plain. *)
Lemma get_target_path_plan ts path y m d :
  fromtimestamp ts = Ok (y, m, d) ->
  nonempty (str_int y) = true -> all_digits (str_int y) = true ->
  decimal_of 2 m (zfill 2 (str_int m)) = true ->
  decimal_of 2 d (zfill 2 (str_int d)) = true ->
  get_target_path ts path =
    Ok (str_int y ++ "/" ++
        (str_int y ++ "-" ++ zfill 2 (str_int m) ++ "-" ++ zfill 2 (str_int d)) ++ "/" ++
        fst (splitext (basename path)) ++ lower (snd (splitext path)),
        lower (snd (splitext path))).
Proof.
  intros Hts Hy1 Hy2 Hm Hd. unfold get_target_path. rewrite Hts. cbn [bind].
  apply decimal_of_parts in Hm, Hd.
  destruct Hm as (_ & Hm & _), Hd as (_ & Hd & _).
  rewrite join_plan; auto using all_digits_no_sep, target_name_no_sep.
  - now apply nonempty_append.
  - rewrite !contains_char_append.
    rewrite (all_digits_no_sep _ Hy2), (all_digits_no_sep _ Hm),
      (all_digits_no_sep _ Hd). reflexivity.
Qed.

End Planner.

(* ================================================================== *)
(** ** The path planner *)

(** C4, amended.  [get_target_path] reads nothing but the local time zone:
    two platforms with the same [utcoffset] plan the same path for the same
    timestamp and file name.  When the local date of the timestamp lies in
    the years 1000 to 9999, the path is [YYYY/YYYY-MM-DD/name]: [YYYY] is
    the year in four digits, [MM] and [DD] the month and the day padded to
    two digits, and [name] is the base name of the file up to its
    extension, followed by the extension in lower case. *)
Theorem planned_path_shape :
  forall (FS : Type) (P : Platform FS) (ts : Q) (path : string) (y m d : Z),
    fromtimestamp ts = Ok (y, m, d) ->
    1000 <= y ->
    let stem := fst (splitext (basename path)) in
    let ext := snd (splitext (basename path)) in
    let YYYY := str_int y in
    let MM := zfill 2 (str_int m) in
    let DD := zfill 2 (str_int d) in
    get_target_path ts path =
      Ok (YYYY ++ "/" ++ (YYYY ++ "-" ++ MM ++ "-" ++ DD) ++ "/" ++ stem ++ lower ext,
          lower ext) /\
    decimal_of 4 y YYYY = true /\
    decimal_of 2 m MM = true /\
    decimal_of 2 d DD = true /\
    1 <= m <= 12 /\ 1 <= d <= 31 /\
    basename path = stem ++ ext /\
    contains_char sep (stem ++ lower ext) = false /\
    forall (FS' : Type) (P' : Platform FS'),
      (forall s, utcoffset (Platform := P') s = utcoffset (Platform := P) s) ->
      get_target_path (P := P') ts path = get_target_path (P := P) ts path.
Proof.
  intros FS P ts path y m d Hts Hy stem ext YYYY MM DD.
  destruct (fromtimestamp_range ts y m d Hts) as (Hy' & Hm & Hd).
  assert (HY : decimal_of 4 y YYYY = true) by (apply str_int_year; lia).
  assert (HM : decimal_of 2 m MM = true) by (apply zfill_two; lia).
  assert (HD : decimal_of 2 d DD = true) by (apply zfill_two; lia).
  assert (Hname : contains_char sep (stem ++ lower ext) = false).
  { subst stem ext. rewrite <- splitext_basename. apply target_name_no_sep. }
  repeat split; auto; try lia.
  - subst stem ext. rewrite <- splitext_basename.
    apply get_target_path_plan; auto.
    + apply decimal_of_parts in HY. destruct HY as (HY & _).
      fold YYYY. destruct YYYY; [discriminate | reflexivity].
    + apply decimal_of_parts in HY. tauto.
  - apply splitext_spec.
  - intros FS' P' Hoff. unfold get_target_path, fromtimestamp.
    now rewrite Hoff.
Qed.

Lemma planned_path_shape_witness :
  get_target_path (P := Mem.platform 3600 []) (17000000005 # 10) "/home/user/in/Clip.MP4"
  = Ok ("2023/2023-11-14/Clip.mp4", ".mp4").
Proof.
  refine (proj1 (planned_path_shape Mem.fs (Mem.platform 3600 []) (17000000005 # 10)
                   "/home/user/in/Clip.MP4" 2023 11 14 _ _)).
  - reflexivity.
  - lia.
Defined.

(** A modification time in the year 11476 is refused by
    [datetime.fromtimestamp], so no path is planned; one in the year 987
    gives a year directory of three digits. *)
Lemma planned_path_outside_four_digit_years :
  get_target_path (P := Mem.platform 0 []) (inject_Z 300000000000) "/home/user/in/a.jpg"
    = Raise ValueError /\
  get_target_path (P := Mem.platform 0 []) (inject_Z (-31000000000)) "/home/user/in/a.jpg"
    = Ok ("987/987-08-25/a.jpg", ".jpg").
Proof. split; vm_compute; reflexivity. Qed.

(* ================================================================== *)
(** ** From a sidecar timestamp to a destination *)

(** C6, amended.  A sidecar whose [photoTakenTime.timestamp] is the string
    ["1609459200"], paired with a media file whose extractor yields
    nothing, resolves to that timestamp under the label
    ["JSON photoTakenTime"].  The date is taken in local time: where local
    time is at or ahead of UTC by less than a day, the planned destination
    is [2021/2021-01-01/] followed by the file's name. *)
Theorem sidecar_2021_round_trip :
  forall (FS : Type) (P : Platform FS) (fs : FS) (metadata taken : json)
         (path : string),
    getitem metadata "photoTakenTime" = Ok taken ->
    getitem taken "timestamp" = Ok (JStr "1609459200") ->
    embedded_source fs path = None ->
    0 <= utcoffset 1609459200 < 86400 ->
    let name := fst (splitext (basename path)) ++ lower (snd (splitext path)) in
    get_valid_timestamp fs metadata path
      = Ok (inject_Z 1609459200, "JSON photoTakenTime") /\
    get_target_path (inject_Z 1609459200) path
      = Ok ("2021/2021-01-01/" ++ name, lower (snd (splitext path))) /\
    contains_char sep name = false.
Proof.
  intros FS P fs metadata taken path Hm Ht He Hoff name.
  split; [ | split].
  - rewrite get_valid_timestamp_chain. unfold resolve_with_sidecar.
    rewrite He. cbn [first_accepted].
    unfold sidecar_source at 1. unfold json_timestamp.
    rewrite Hm. cbn [bind]. rewrite Ht. reflexivity.
  - assert (Hts : fromtimestamp (inject_Z 1609459200) = Ok (2021, 1, 1)).
    { unfold fromtimestamp.
      change (microseconds (inject_Z 1609459200) / 1000000) with 1609459200.
      replace ((1609459200 + utcoffset 1609459200) / 86400) with 18628
        by (Z.div_mod_to_equations; lia).
      reflexivity. }
    rewrite (get_target_path_plan _ path 2021 1 1 Hts); reflexivity.
  - apply target_name_no_sep.
Qed.

(** A photo without EXIF data and its sidecar, taken at 2021-01-01 00:00 UTC. *)
Definition new_year : Mem.fs :=
  [("/home/user/in/photo.jpg", Mem.plain (1700000000 # 1));
   ("/home/user/in/photo.json",
      Mem.sidecar (1700000000 # 1) (Mem.taken "photo.jpg" "1609459200"))].

Lemma sidecar_2021_round_trip_witness :
  get_target_path (P := Mem.platform 3600 []) (inject_Z 1609459200)
    "/home/user/in/photo.jpg"
  = Ok ("2021/2021-01-01/photo.jpg", ".jpg").
Proof.
  refine (proj1 (proj2 (sidecar_2021_round_trip Mem.fs (Mem.platform 3600 []) new_year
    (Mem.taken "photo.jpg" "1609459200") (JObj [("timestamp", JStr "1609459200")])
    "/home/user/in/photo.jpg" _ _ _ _))).
  - reflexivity.
  - reflexivity.
  - reflexivity.
  - simpl. lia.
Defined.

(** Five hours west of UTC the same sidecar, still resolved from
    [photoTakenTime], lands in the last day of 2020. *)
Lemma sidecar_2021_west_of_utc :
  let P := Mem.platform (-18000) [] in
  get_valid_timestamp new_year (Mem.taken "photo.jpg" "1609459200")
    "/home/user/in/photo.jpg"
    = Ok (inject_Z 1609459200, "JSON photoTakenTime") /\
  process_json_file Mem.exts new_year "/home/user/in/photo.json"
    = Ok ("2020/2020-12-31/photo.jpg", ".jpg", "/home/user/in/photo.jpg").
Proof. split; vm_compute; reflexivity. Qed.

(* ================================================================== *)
(** ** Normalised paths below an absolute directory *)

(** A name as a directory listing yields it. *)
Definition entry_name (n : string) : Prop :=
  nonempty n = true /\ contains_char sep n = false /\ n <> "." /\ n <> "..".

(** The number [normpath] calls [initial_slashes]. *)
Definition initial_slashes (path : string) : Z :=
  if startswith path "/" then
    if startswith path "//" && negb (startswith path "///") then 2 else 1
  else 0.

(** The components [normpath] keeps. *)
Definition components (path : string) : list string :=
  fold_left (normpath_step (initial_slashes path)) (split_sep path) [].

Definition slashes (n : Z) : string :=
  match n with
  | 0 => ""
  | 1 => "/"
  | _ => "//"
  end.

Lemma normpath_absolute_eq t :
  startswith t "/" = true ->
  normpath t = slashes (initial_slashes t) ++ String.concat "/" (components t).
Proof.
  intros H. unfold normpath.
  destruct t as [ | c t]; [discriminate | ].
  change (String.eqb (String c t) "") with false. cbv iota.
  fold (initial_slashes (String c t)). fold (components (String c t)).
  unfold initial_slashes. rewrite H.
  destruct (startswith (String c t) "//" && negb (startswith (String c t) "///"));
    reflexivity.
Qed.

Lemma split_sep_cons s : exists h t, split_sep s = h :: t.
Proof.
  induction s as [ | c s (h & t & IH)]; simpl; [now exists "", [] | ].
  destruct (Ascii.eqb c sep); [now eexists _, _ | ].
  rewrite IH. now eexists _, _.
Qed.

Lemma split_sep_append a b :
  split_sep (a ++ String sep b) = (split_sep a ++ split_sep b)%list.
Proof.
  induction a as [ | c a IH]; simpl.
  - reflexivity.
  - destruct (Ascii.eqb c sep); [now rewrite IH | ].
    rewrite IH. destruct (split_sep_cons a) as (h & t & E). now rewrite E.
Qed.

Lemma split_sep_name n : contains_char sep n = false -> split_sep n = [n].
Proof.
  induction n as [ | c n IH]; simpl; [reflexivity | ].
  intros H. apply orb_false_iff in H. destruct H as [Hc Hn].
  now rewrite Hc, (IH Hn).
Qed.

Lemma normpath_step_name i acc n :
  entry_name n -> normpath_step i acc n = (acc ++ [n])%list.
Proof.
  intros (Hne & _ & Hdot & Hdotdot). unfold normpath_step.
  destruct (String.eqb_spec n ""); [subst; discriminate | ].
  destruct (String.eqb_spec n "."); [contradiction | ].
  destruct (String.eqb_spec n ".."); [contradiction | ].
  reflexivity.
Qed.

Lemma concat_snoc acc n :
  String.concat "/" (acc ++ [n]) =
    match acc with
    | [] => n
    | _ => String.concat "/" acc ++ "/" ++ n
    end.
Proof.
  induction acc as [ | a acc IH]; [reflexivity | ].
  destruct acc as [ | b acc]; [reflexivity | ].
  change (String.concat "/" ((a :: b :: acc) ++ [n]))
    with (a ++ "/" ++ String.concat "/" ((b :: acc) ++ [n])).
  rewrite IH.
  change (String.concat "/" (a :: b :: acc))
    with (a ++ "/" ++ String.concat "/" (b :: acc)).
  now rewrite !append_assoc.
Qed.

(** A path ending in a slash, cut before that slash. *)
Lemma endswith_sep_cut t :
  endswith t "/" = true -> exists t0, t = t0 ++ "/".
Proof.
  intros H. destruct t as [ | c t]; [discriminate | ].
  destruct (last_char (String c t) eq_refl) as (t0 & x & E).
  rewrite E in H. rewrite endswith_last in H.
  apply Ascii.eqb_eq in H. subst x. now exists t0.
Qed.

Lemma startswith_append_l t s p :
  (String.length p <= String.length t)%nat ->
  startswith (t ++ s) p = startswith t p.
Proof.
  revert t. induction p as [ | x p IH]; intros t H; [reflexivity | ].
  destruct t as [ | c t]; simpl in H; [lia | ].
  simpl. rewrite IH by lia. reflexivity.
Qed.

(** Appending a name below an absolute path keeps [initial_slashes]. *)
Lemma initial_slashes_below t s :
  startswith t "/" = true ->
  (s = "" \/ exists c s', s = String c s' /\
      (endswith t "/" = true -> c <> sep)) ->
  initial_slashes (t ++ s) = initial_slashes t.
Proof.
  intros Ht Hs. destruct Hs as [-> | (c & s' & -> & Hc)];
    [now rewrite append_nil_r | ].
  unfold initial_slashes.
  destruct t as [ | c1 [ | c2 [ | c3 t]]]; [discriminate | | | ].
  - simpl in Ht. rewrite andb_true_r in Ht. apply Ascii.eqb_eq in Ht. subst c1.
    assert (Hne : Ascii.eqb sep c = false).
    { apply Ascii.eqb_neq. intros E. now apply Hc. }
    simpl. fold sep. rewrite Hne. reflexivity.
  - rewrite (startswith_append_l _ _ "/") by (simpl; lia).
    rewrite (startswith_append_l _ _ "//") by (simpl; lia).
    rewrite Ht.
    destruct (startswith (String c1 (String c2 "")) "//") eqn:E2; [ | reflexivity].
    simpl in E2. rewrite andb_true_r in E2.
    apply andb_true_iff in E2. destruct E2 as [E1 E2].
    apply Ascii.eqb_eq in E1, E2. subst c1 c2.
    assert (Hne : Ascii.eqb sep c = false).
    { apply Ascii.eqb_neq. intros E. now apply Hc. }
    simpl. fold sep. rewrite Hne. reflexivity.
  - rewrite (startswith_append_l _ _ "/") by (simpl; lia).
    rewrite (startswith_append_l _ _ "//") by (simpl; lia).
    rewrite (startswith_append_l _ _ "///") by (simpl; lia).
    reflexivity.
Qed.

Lemma fold_normpath_step_empty i xs :
  fold_left (normpath_step i) (xs ++ [""]) [] = fold_left (normpath_step i) xs [].
Proof. now rewrite fold_left_app. Qed.

(** One step down: the kept components gain the name, nothing else moves. *)
Lemma join2_below t n :
  startswith t "/" = true -> entry_name n ->
  startswith (join2 t n) "/" = true /\
  initial_slashes (join2 t n) = initial_slashes t /\
  components (join2 t n) = (components t ++ [n])%list.
Proof.
  intros Ht Hn. pose proof Hn as (Hne & Hsep & _).
  destruct n as [ | c n']; [discriminate | ].
  assert (Hc : c <> sep).
  { intros ->. simpl in Hsep. discriminate. }
  set (n := String c n') in *.
  unfold join2. rewrite (startswith_sep n Hsep).
  assert (Hnt : nonempty t = true) by (destruct t; [discriminate | reflexivity]).
  rewrite Hnt. cbn [negb orb].
  destruct (endswith t "/") eqn:E.
  - assert (Hi : initial_slashes (t ++ n) = initial_slashes t).
    { apply initial_slashes_below; [exact Ht | ]. right. exists c, n'. auto. }
    repeat split.
    + rewrite (startswith_append_l t n "/"); [exact Ht | ].
      destruct t; [discriminate | simpl; lia].
    + exact Hi.
    + unfold components. rewrite Hi.
      destruct (endswith_sep_cut t E) as (t0 & ->).
      rewrite append_assoc. change ("/" ++ n) with (String sep n).
      rewrite !split_sep_append, (split_sep_name n Hsep).
      change (split_sep "") with [""].
      rewrite fold_normpath_step_empty, fold_left_app. cbn [fold_left].
      now apply normpath_step_name.
  - assert (Hi : initial_slashes (t ++ "/" ++ n) = initial_slashes t).
    { apply initial_slashes_below; [exact Ht | ]. right. exists sep, n.
      split; [reflexivity | congruence]. }
    repeat split.
    + rewrite (startswith_append_l t _ "/"); [exact Ht | ].
      destruct t; [discriminate | simpl; lia].
    + exact Hi.
    + unfold components. rewrite Hi.
      change ("/" ++ n) with (String sep n).
      rewrite split_sep_append, (split_sep_name n Hsep), fold_left_app.
      cbn [fold_left]. now apply normpath_step_name.
Qed.

Lemma normpath_below t n :
  startswith t "/" = true -> entry_name n ->
  startswith (normpath (join2 t n)) (normpath t) = true.
Proof.
  intros Ht Hn. destruct (join2_below t n Ht Hn) as (Ha & Hi & Hc).
  rewrite (normpath_absolute_eq _ Ha), (normpath_absolute_eq _ Ht), Hi, Hc.
  rewrite concat_snoc.
  destruct (components t) as [ | a acc].
  - cbn [String.concat]. rewrite append_nil_r. apply startswith_append.
  - rewrite <- append_assoc. apply startswith_append.
Qed.

Lemma normpath_below_all names : forall t,
  startswith t "/" = true -> Forall entry_name names ->
  startswith (join t names) "/" = true /\
  startswith (normpath (join t names)) (normpath t) = true.
Proof.
  induction names as [ | n names IH]; intros t Ht Hn.
  - split; [exact Ht | ]. unfold join. cbn [fold_left].
    rewrite <- (append_nil_r (normpath t)) at 1. apply startswith_append.
  - inversion Hn as [ | ? ? Hn1 Hn2]; subst.
    destruct (join2_below t n Ht Hn1) as (Ha & _).
    destruct (IH (join2 t n) Ha Hn2) as (Hb & Hp).
    split; [exact Hb | ].
    eapply startswith_trans; [exact Hp | now apply normpath_below].
Qed.

Lemma normpath_absolute t :
  startswith t "/" = true -> startswith (normpath t) "/" = true.
Proof.
  intros H. rewrite (normpath_absolute_eq _ H).
  unfold initial_slashes. rewrite H.
  destruct (startswith t "//" && negb (startswith t "///")); reflexivity.
Qed.

Lemma abspath_absolute {FS : Type} {P : Platform FS} p :
  startswith (abspath p) "/" = true.
Proof.
  unfold abspath. apply normpath_absolute. unfold join2.
  destruct (startswith p "/") eqn:E; [exact E | ].
  pose proof getcwd_absolute as H.
  destruct (negb (nonempty getcwd) || endswith getcwd "/");
    (rewrite startswith_append_l; [exact H | ]);
    destruct getcwd; try discriminate; simpl; lia.
Qed.

(** A directory at or below an absolute target is not to be processed. *)
Lemma should_process_directory_below target names :
  startswith target "/" = true -> Forall entry_name names ->
  should_process_directory (join target names) target = false.
Proof.
  intros Ht Hn. unfold should_process_directory.
  destruct (normpath_below_all names target Ht Hn) as (_ & H).
  now rewrite (startswith_lower _ _ H).
Qed.

(* ================================================================== *)
(** ** The target tree is left out of both passes *)

Section Exclusion.
Context {FS : Type} {P : Platform FS}.

(** [r] with [k] more skipped directories. *)
Definition add_skipped (k : Z) (r : run FS) : run FS :=
  {| run_fs := run_fs r;
     run_stats :=
       {| processed := processed (run_stats r);
          processed_with_json := processed_with_json (run_stats r);
          processed_without_json := processed_without_json (run_stats r);
          errors := errors (run_stats r);
          photos := photos (run_stats r);
          videos := videos (run_stats r);
          skipped_directories := skipped_directories (run_stats r) + k |};
     run_claimed := run_claimed r;
     run_log := run_log r |}.

Definition outside (target_dir : string) (entry : string * list string) : bool :=
  should_process_directory (fst entry) target_dir.

Lemma add_skipped_0 r : add_skipped 0 r = r.
Proof.
  destruct r as [fs [a b c d e f g] cl lg]. unfold add_skipped. cbn.
  now rewrite Z.add_0_r.
Qed.

Lemma add_skipped_add j k r : add_skipped j (add_skipped k r) = add_skipped (k + j) r.
Proof. unfold add_skipped. cbn. now rewrite Z.add_assoc. Qed.

Lemma json_step_add_skipped exts target_dir root file k r :
  json_step exts target_dir root file (add_skipped k r)
    = add_skipped k (json_step exts target_dir root file r).
Proof.
  unfold json_step.
  destruct (endswith file ".json"); [ | reflexivity].
  cbn [run_fs add_skipped].
  destruct (process_json_file _ _ _) as [[[target_path media_ext] media_path] | e];
    [ | reflexivity].
  destruct (makedirs _ _) as [fs1 [ [] | e ]]; [ | reflexivity].
  destruct (shutil_move fs1 _ _) as [fs2 [ [] | e ]]; [ | reflexivity].
  destruct (shutil_move fs2 _ _) as [fs3 [ [] | e ]]; reflexivity.
Qed.

Lemma json_files_add_skipped exts target_dir root files k : forall r,
  fold_left (fun r file => json_step exts target_dir root file r) files
    (add_skipped k r)
  = add_skipped k
      (fold_left (fun r file => json_step exts target_dir root file r) files r).
Proof.
  induction files as [ | file files IH]; intros r; [reflexivity | ].
  cbn [fold_left]. now rewrite json_step_add_skipped, IH.
Qed.

Lemma json_directory_skip exts target_dir r root files :
  should_process_directory root target_dir = false ->
  json_directory exts target_dir r (root, files) = add_skipped 1 r.
Proof. intros H. unfold json_directory. now rewrite H. Qed.

Lemma media_directory_skip target_dir r root files :
  should_process_directory root target_dir = false ->
  media_directory target_dir r (root, files) = r.
Proof. intros H. unfold media_directory. now rewrite H. Qed.

(** The first pass is the pass over the entries outside the target tree,
    with the others counted as skipped. *)
Lemma json_pass_filter exts target_dir walk : forall r,
  fold_left (json_directory exts target_dir) walk r =
    add_skipped
      (Z.of_nat (List.length (filter (fun e => negb (outside target_dir e)) walk)))
      (fold_left (json_directory exts target_dir) (filter (outside target_dir) walk) r).
Proof.
  induction walk as [ | [root files] walk IH]; intros r.
  - cbn. now rewrite add_skipped_0.
  - cbn [fold_left filter].
    change (outside target_dir (root, files))
      with (should_process_directory root target_dir).
    destruct (should_process_directory root target_dir) eqn:E; cbn [negb].
    + cbn [fold_left]. apply IH.
    + rewrite (json_directory_skip _ _ _ _ _ E), IH.
      cbn [List.length]. rewrite Nat2Z.inj_succ.
      assert (Hfold : forall w r0,
        fold_left (json_directory exts target_dir) w (add_skipped 1 r0)
        = add_skipped 1 (fold_left (json_directory exts target_dir) w r0)).
      { clear. induction w as [ | [rt fl] w IHw]; intros r0; [reflexivity | ].
        cbn [fold_left]. rewrite <- IHw. f_equal.
        unfold json_directory.
        destruct (negb (should_process_directory rt target_dir)).
        - reflexivity.
        - apply json_files_add_skipped. }
      rewrite Hfold, add_skipped_add. f_equal. lia.
Qed.

(** The second pass is the pass over the entries outside the target tree. *)
Lemma media_pass_filter target_dir walk : forall r,
  fold_left (media_directory target_dir) walk r =
    fold_left (media_directory target_dir) (filter (outside target_dir) walk) r.
Proof.
  induction walk as [ | [root files] walk IH]; intros r; [reflexivity | ].
  cbn [fold_left filter].
  change (outside target_dir (root, files))
    with (should_process_directory root target_dir).
  destruct (should_process_directory root target_dir) eqn:E.
  - cbn [fold_left]. apply IH.
  - rewrite (media_directory_skip _ _ _ _ E). apply IH.
Qed.

End Exclusion.

(** C9.  Let [target] be the absolute target directory of a run and [root]
    a directory that, once normalised and lower-cased, is the target itself
    or a directory reached from it through any number of entry names.
    Then [should_process_directory root target] is false; the first pass
    only counts [root] as skipped and the second pass leaves the run
    untouched, whatever files it holds.  Over a whole walk, both passes do
    exactly what they do on the entries outside the target tree; this holds
    for every run, hence for a second one on the same directories. *)
Theorem target_tree_is_skipped :
  forall (FS : Type) (P : Platform FS) exts target_dir names root files (r : run FS),
    Forall entry_name names ->
    let target := abspath target_dir in
    lower (normpath root) = lower (normpath (join target names)) ->
    should_process_directory root target = false /\
    json_directory exts target r (root, files) = add_skipped 1 r /\
    media_directory target r (root, files) = r /\
    forall walk,
      fold_left (json_directory exts target) walk r =
        add_skipped
          (Z.of_nat (List.length (filter (fun e => negb (outside target e)) walk)))
          (fold_left (json_directory exts target) (filter (outside target) walk) r) /\
      fold_left (media_directory target) walk r =
        fold_left (media_directory target) (filter (outside target) walk) r.
Proof.
  intros FS P exts target_dir names root files r Hnames target Hroot.
  assert (H : should_process_directory root target = false).
  { pose proof (should_process_directory_below target names
                  (abspath_absolute target_dir) Hnames) as Hb.
    unfold should_process_directory in *. now rewrite Hroot. }
  split; [exact H | ]. split; [now apply json_directory_skip | ].
  split; [now apply media_directory_skip | ].
  intros walk. split; [apply json_pass_filter | apply media_pass_filter].
Qed.

(** The state the scenario leaves behind, walked again by a second run. *)
Lemma target_tree_is_skipped_witness :
  let P := Mem.platform 0 [] in
  let r := {| run_fs := run_fs scenario_run; run_stats := stats0;
              run_claimed := []; run_log := [] |} in
  media_directory (abspath "out") r
    ("/home/user/OUT/2023/./2023-11-14", ["IMG_001.jpg"; "IMG_001.json"]) = r.
Proof.
  intros P r.
  refine (proj1 (proj2 (proj2
    (target_tree_is_skipped Mem.fs P Mem.exts "out" ["2023"; "2023-11-14"]
       "/home/user/OUT/2023/./2023-11-14" ["IMG_001.jpg"; "IMG_001.json"] r _ _)))).
  - repeat constructor; discriminate.
  - reflexivity.
Defined.

(* ================================================================== *)
(** * Further properties of the script *)

(** ** The EXIF tags are ranked by name, not by their place in the dictionary *)

(** [exif[tag_id]] when the key is present. *)
Fixpoint exif_lookup (tag_id : Z) (exif : list (Z * exif_value)) : option exif_value :=
  match exif with
  | [] => None
  | (k, v) :: rest => if k =? tag_id then Some v else exif_lookup tag_id rest
  end.

Section ExifOrder.
Context {FS : Type} {P : Platform FS}.

(** What one tag contributes: its date when the value parses and lies above
    the threshold. *)
Definition exif_candidate (v : option exif_value) : option Q :=
  match v with
  | Some v =>
      match parse_exif_date v with
      | Ok t => if above_min t then Some t else None
      | Raise _ => None
      end
  | None => None
  end.

Lemma TAGS_get_inv tag_id tag id :
  In (tag, id) [("DateTimeOriginal", 36867); ("DateTime", 306);
                ("DateTimeDigitized", 36868)] ->
  (TAGS_get tag_id = Some tag <-> tag_id = id).
Proof.
  intros H. unfold TAGS_get.
  destruct H as [[= <- <-] | [[= <- <-] | [[= <- <-] | []]]];
    (split; [ | intros ->; reflexivity]);
    destruct (tag_id =? 36867) eqn:E1; try (apply Z.eqb_eq in E1);
    destruct (tag_id =? 306) eqn:E2; try (apply Z.eqb_eq in E2);
    destruct (tag_id =? 36868) eqn:E3; try (apply Z.eqb_eq in E3);
    intros H; try discriminate H; try lia.
Qed.

Lemma exif_scan_ids_absent tag id exif :
  (forall tag_id, TAGS_get tag_id = Some tag <-> tag_id = id) ->
  ~ In id (map fst exif) -> exif_scan_ids tag exif = None.
Proof.
  intros Htag. induction exif as [ | [k v] rest IH]; intros Hin; [reflexivity | ].
  cbn [exif_scan_ids]. cbn [map fst In] in Hin.
  destruct (TAGS_get k) as [name | ] eqn:E.
  - destruct (String.eqb_spec name tag) as [-> | Hne].
    + apply Htag in E. tauto.
    + apply IH. tauto.
  - apply IH. tauto.
Qed.

Lemma exif_scan_ids_lookup tag id exif :
  (forall tag_id, TAGS_get tag_id = Some tag <-> tag_id = id) ->
  NoDup (map fst exif) ->
  exif_scan_ids tag exif = exif_candidate (exif_lookup id exif).
Proof.
  intros Htag. induction exif as [ | [k v] rest IH]; intros Hnd; [reflexivity | ].
  cbn [map fst] in Hnd. inversion Hnd as [ | ? ? Hk Hrest]; subst.
  cbn [exif_scan_ids exif_lookup].
  destruct (Z.eqb_spec k id) as [-> | Hne].
  - rewrite (proj2 (Htag id) eq_refl), String.eqb_refl. cbn [exif_candidate].
    destruct (parse_exif_date v) as [t | e].
    + destruct (above_min t); [reflexivity | ].
      now apply (exif_scan_ids_absent tag id).
    + now apply (exif_scan_ids_absent tag id).
  - destruct (TAGS_get k) as [name | ] eqn:E; [ | now apply IH].
    destruct (String.eqb_spec name tag) as [-> | Hn]; [ | now apply IH].
    apply Htag in E. contradiction.
Qed.

End ExifOrder.

(** X1.  For an EXIF dictionary (distinct keys), [get_exif_date] returns the
    date of [DateTimeOriginal] when that tag is present, parses and lies
    above the threshold; otherwise that of [DateTime]; otherwise that of
    [DateTimeDigitized]; otherwise nothing.  The order of the entries in
    the dictionary plays no part, and a tag whose value does not parse, is
    not a string or is too old only gives way to the next tag. *)
Theorem exif_tag_priority :
  forall (FS : Type) (P : Platform FS) (fs : FS) (path : string)
         (exif : list (Z * exif_value)),
    image_getexif fs path = Ok (Some exif) ->
    NoDup (map fst exif) ->
    get_exif_date fs path =
      Ok (first_accepted
            [exif_candidate (exif_lookup 36867 exif);
             exif_candidate (exif_lookup 306 exif);
             exif_candidate (exif_lookup 36868 exif)]).
Proof.
  intros FS P fs path exif Hexif Hnd.
  unfold get_exif_date. rewrite Hexif. cbn [bind catch].
  assert (H : exif_scan_tags date_tags exif =
              first_accepted
                [exif_candidate (exif_lookup 36867 exif);
                 exif_candidate (exif_lookup 306 exif);
                 exif_candidate (exif_lookup 36868 exif)]).
  { unfold date_tags. cbn [exif_scan_tags].
    rewrite (exif_scan_ids_lookup "DateTimeOriginal" 36867 exif),
            (exif_scan_ids_lookup "DateTime" 306 exif),
            (exif_scan_ids_lookup "DateTimeDigitized" 36868 exif);
      try exact Hnd;
      try (intros tag_id; apply TAGS_get_inv; simpl; tauto).
    cbn [first_accepted].
    destruct (exif_candidate (exif_lookup 36867 exif)); [reflexivity | ].
    destruct (exif_candidate (exif_lookup 306 exif)); [reflexivity | ].
    destruct (exif_candidate (exif_lookup 36868 exif)); reflexivity. }
  destruct exif as [ | e es]; [reflexivity | ]. now rewrite H.
Qed.

(** A photo whose dictionary lists [DateTime] first, holds a malformed
    [DateTimeOriginal], and a good [DateTimeDigitized]. *)
Definition shuffled_exif : list (Z * exif_value) :=
  [(306, ExifStr "2021:06:01 10:00:00");
   (271, ExifStr "Camera");
   (36868, ExifStr "2021:06:02 10:00:00");
   (36867, ExifStr "0000:00:00 00:00:00")].

Definition shuffled : Mem.fs :=
  [("/home/user/in/p.jpg",
    {| Mem.f_exif := Ok (Some shuffled_exif); Mem.f_parser := Ok None;
       Mem.f_ctime := Ok (1 # 1); Mem.f_mtime := Ok (1 # 1);
       Mem.f_json := Raise ValueError |})].

Definition june_dates : list (string * Q) :=
  [("2021:06:01 10:00:00", 1622541600 # 1); ("2021:06:02 10:00:00", 1622628000 # 1)].

Lemma exif_tag_priority_witness :
  get_exif_date (P := Mem.platform 0 june_dates) shuffled "/home/user/in/p.jpg"
  = Ok (Some (1622541600 # 1)).
Proof.
  refine (exif_tag_priority Mem.fs (Mem.platform 0 june_dates) shuffled
            "/home/user/in/p.jpg" shuffled_exif _ _).
  - reflexivity.
  - repeat (constructor; [simpl; intuition discriminate | ]). constructor.
Defined.

(* ================================================================== *)
(** ** The video fields: the first decisive one settles the extraction *)

Section VideoOrder.
Context {FS : Type} {P : Platform FS}.

Lemma video_scan_fields_skip metadata pre rest :
  (forall g, In g pre -> probe_date (meta_attr metadata g) = Ok None) ->
  video_scan_fields metadata (pre ++ rest)%list = video_scan_fields metadata rest.
Proof.
  induction pre as [ | g pre IH]; intros H; [reflexivity | ].
  cbn [app video_scan_fields]. rewrite (H g (or_introl eq_refl)). cbn [bind].
  apply IH. intros g' Hg'. apply H. now right.
Qed.

End VideoOrder.

(** X2.  In [get_video_creation_time] the fields are probed in the order
    [creation_date], [last_modification], [record_date],
    [date_time_original].  The first field that does not come up empty
    settles the call: a date above the threshold is returned, whatever the
    later fields and the streams hold; a probe that raises ends the
    extraction with no timestamp, also when a later field or a stream holds
    a good date. *)
Theorem video_first_decisive_field :
  forall (FS : Type) (P : Platform FS) (fs : FS) (path : string)
         (parser : parser) (metadata : video_metadata)
         (pre : list string) (field : string) (post : list string),
    createParser fs path = Ok (Some parser) ->
    extractMetadata parser = Ok (Some metadata) ->
    meta_truthy metadata = true ->
    date_fields = (pre ++ field :: post)%list ->
    (forall g, In g pre -> probe_date (meta_attr metadata g) = Ok None) ->
    (forall t, probe_date (meta_attr metadata field) = Ok (Some t) ->
               get_video_creation_time fs path = Ok (Some t)) /\
    (forall e, probe_date (meta_attr metadata field) = Raise e ->
               get_video_creation_time fs path = Ok None).
Proof.
  intros FS P fs path parser metadata pre field post Hp Hm Ht Hf Hpre.
  assert (Hscan : video_scan_fields metadata date_fields =
                  video_scan_fields metadata (field :: post)).
  { rewrite Hf. now apply video_scan_fields_skip. }
  split.
  - intros t H. unfold get_video_creation_time.
    rewrite Hp. cbn [bind]. rewrite Hm. cbn [bind]. rewrite Ht, Hscan.
    cbn [video_scan_fields]. rewrite H. reflexivity.
  - intros e H. unfold get_video_creation_time.
    rewrite Hp. cbn [bind]. rewrite Hm. cbn [bind]. rewrite Ht, Hscan.
    cbn [video_scan_fields]. rewrite H. reflexivity.
Qed.

(** Video metadata whose [creation_date] is unset, whose
    [last_modification] cannot be converted and whose [record_date] is
    good. *)
Definition broken_then_good : video_metadata :=
  {| meta_truthy := true;
     meta_attr := fun f =>
       if String.eqb f "creation_date" then ProbeValue DateFalsy
       else if String.eqb f "last_modification" then ProbeValue (Date (Raise OverflowError))
       else if String.eqb f "record_date" then ProbeValue (Date (Ok (1622541600 # 1)))
       else ProbeMissing;
     meta_streams := ProbeValue [] |}.

Definition clip : Mem.fs :=
  [("/home/user/in/c.mp4",
    {| Mem.f_exif := Raise (OSError "cannot identify image file");
       Mem.f_parser := Ok (Some {| extractMetadata := Ok (Some broken_then_good) |});
       Mem.f_ctime := Ok (1 # 1); Mem.f_mtime := Ok (1 # 1);
       Mem.f_json := Raise ValueError |})].

Lemma video_first_decisive_field_witness :
  get_video_creation_time (P := Mem.platform 0 []) clip "/home/user/in/c.mp4" = Ok None.
Proof.
  refine (proj2 (video_first_decisive_field Mem.fs (Mem.platform 0 []) clip
    "/home/user/in/c.mp4" {| extractMetadata := Ok (Some broken_then_good) |}
    broken_then_good ["creation_date"] "last_modification"
    ["record_date"; "date_time_original"] _ _ _ _ _) OverflowError _).
  - reflexivity.
  - reflexivity.
  - reflexivity.
  - reflexivity.
  - intros g [<- | []]. reflexivity.
  - reflexivity.
Defined.

(* ================================================================== *)
(** ** What a source label says *)

Section Labels.
Context {FS : Type} {P : Platform FS}.

(** The source a label names offered the timestamp. *)
Definition vouched (fs : FS) (metadata : option json) (path : string)
    (t : Q) (label : string) : Prop :=
  (label = "EXIF" /\ kind_of path = Photo /\ get_exif_date fs path = Ok (Some t)) \/
  (label = "Video metadata" /\ kind_of path = Video /\
     get_video_creation_time fs path = Ok (Some t)) \/
  (label = "JSON photoTakenTime" /\ exists md z, metadata = Some md /\
     json_timestamp md "photoTakenTime" = Ok z /\ t = inject_Z z) \/
  (label = "JSON creationTime" /\ exists md z, metadata = Some md /\
     json_timestamp md "creationTime" = Ok z /\ t = inject_Z z) \/
  (label = "File creation time" /\ getctime fs path = Ok t) \/
  (label = "File modification time" /\ getmtime fs path = Ok t).

Lemma embedded_source_vouched fs metadata path t l :
  embedded_source fs path = Some (t, l) -> vouched fs metadata path t l.
Proof.
  unfold embedded_source, vouched.
  destruct (kind_of path) eqn:K; try discriminate.
  - destruct (get_exif_date fs path) as [[t' | ] | e]; try discriminate.
    intros [= <- <-]. left. auto.
  - destruct (get_video_creation_time fs path) as [[t' | ] | e]; try discriminate.
    intros [= <- <-]. right; left. auto.
Qed.

Lemma sidecar_source_inv metadata field label t l :
  sidecar_source metadata field label = Some (t, l) ->
  l = label /\ exists z, json_timestamp metadata field = Ok z /\ t = inject_Z z.
Proof.
  unfold sidecar_source, accept_above, attempt.
  destruct (json_timestamp metadata field) as [z | e]; cbn [option_map];
    [ | discriminate].
  destruct (above_min (inject_Z z)); [ | discriminate].
  intros [= <- <-]. eauto.
Qed.

Lemma creation_source_inv fs path t l :
  creation_source fs path = Some (t, l) ->
  l = "File creation time" /\ getctime fs path = Ok t.
Proof.
  unfold creation_source, accept_above, attempt.
  destruct (getctime fs path) as [c | e]; [ | discriminate].
  destruct (above_min c); [ | discriminate].
  intros [= <- <-]. auto.
Qed.

Lemma modification_source_inv fs path t l :
  modification_source fs path = Ok (t, l) ->
  l = "File modification time" /\ getmtime fs path = Ok t.
Proof.
  unfold modification_source.
  destruct (getmtime fs path) as [m | e]; cbn [bind]; [ | discriminate].
  intros [= <- <-]. auto.
Qed.

End Labels.

(** X3.  The label a resolver returns names the source that gave the
    timestamp: ["EXIF"] and ["Video metadata"] come with the extractor's
    own result for a file of that kind, the two JSON labels with the
    integer read from that field of the sidecar, the two file labels with
    what [os.path.getctime] and [os.path.getmtime] answered.  Without a
    sidecar no JSON label is ever returned. *)
Theorem labels_name_their_source :
  forall (FS : Type) (P : Platform FS) (fs : FS) (metadata : json)
         (path : string) (t : Q) (label : string),
    (get_valid_timestamp fs metadata path = Ok (t, label) ->
       vouched fs (Some metadata) path t label) /\
    (get_file_date fs path = Ok (t, label) ->
       vouched fs None path t label /\
       label <> "JSON photoTakenTime" /\ label <> "JSON creationTime").
Proof.
  intros FS P fs metadata path t label. split.
  - rewrite get_valid_timestamp_chain. unfold resolve_with_sidecar.
    destruct (first_accepted _) as [found | ] eqn:E.
    + intros [= ->]. apply first_accepted_in in E.
      destruct E as [E | [E | [E | [E | []]]]].
      * eapply embedded_source_vouched; eauto.
      * apply sidecar_source_inv in E. destruct E as (-> & z & Hz & ->).
        right; right; left. eauto 6.
      * apply sidecar_source_inv in E. destruct E as (-> & z & Hz & ->).
        right; right; right; left. eauto 6.
      * apply creation_source_inv in E. destruct E as (-> & Hc).
        right; right; right; right; left. auto.
    + intros H. apply modification_source_inv in H. destruct H as (-> & Hm).
      right; right; right; right; right. auto.
  - rewrite get_file_date_chain. unfold resolve_without_sidecar.
    destruct (first_accepted _) as [found | ] eqn:E.
    + intros [= ->]. apply first_accepted_in in E.
      destruct E as [E | [E | []]].
      * split; [eapply embedded_source_vouched; eauto | ].
        unfold embedded_source in E.
        destruct (kind_of path); try discriminate.
        -- destruct (get_exif_date fs path) as [[? | ] | ?]; try discriminate.
           injection E as <- <-. split; discriminate.
        -- destruct (get_video_creation_time fs path) as [[? | ] | ?];
             try discriminate.
           injection E as <- <-. split; discriminate.
      * apply creation_source_inv in E. destruct E as (-> & Hc).
        split; [ | split; discriminate].
        right; right; right; right; left. auto.
    + intros H. apply modification_source_inv in H. destruct H as (-> & Hm).
      split; [ | split; discriminate].
      right; right; right; right; right. auto.
Qed.

Lemma labels_name_their_source_witness :
  vouched (P := Mem.platform 0 []) new_year
    (Some (Mem.taken "photo.jpg" "1609459200")) "/home/user/in/photo.jpg"
    (inject_Z 1609459200) "JSON photoTakenTime".
Proof.
  refine (proj1 (labels_name_their_source Mem.fs (Mem.platform 0 []) new_year
    (Mem.taken "photo.jpg" "1609459200") "/home/user/in/photo.jpg"
    (inject_Z 1609459200) "JSON photoTakenTime") _).
  reflexivity.
Defined.

(* ================================================================== *)
(** ** A sidecar without a usable timestamp *)

Lemma get_json_date_none metadata :
  get_json_date metadata = None ->
  sidecar_source metadata "photoTakenTime" "JSON photoTakenTime" = None /\
  sidecar_source metadata "creationTime" "JSON creationTime" = None.
Proof.
  intros H. pose proof (json_block metadata) as B. rewrite H in B.
  cbn [first_accepted] in B.
  destruct (sidecar_source metadata "photoTakenTime" _); [discriminate | ].
  destruct (sidecar_source metadata "creationTime" _); [discriminate | ].
  split; reflexivity.
Qed.

Lemma get_json_date_not_object metadata :
  (forall l, metadata = JObj l ->
     assoc "photoTakenTime" l = None /\ assoc "creationTime" l = None) ->
  get_json_date metadata = None.
Proof.
  intros H. unfold get_json_date, get_json_date_creation, json_timestamp.
  destruct metadata as [ | b | z | q | s | l | l]; try reflexivity.
  destruct (H l eq_refl) as (H1 & H2). cbn [getitem]. now rewrite H1, H2.
Qed.

(** X4.  When the sidecar offers no timestamp ([get_json_date] returns
    [(None, None)]), the resolver with sidecar gives exactly what the
    resolver without sidecar gives for the same file.  This is the case in
    particular for any JSON value that is not an object, and for an object
    with neither [photoTakenTime] nor [creationTime]. *)
Theorem sidecar_without_timestamp :
  forall (FS : Type) (P : Platform FS) (fs : FS) (metadata : json) (path : string),
    (get_json_date metadata = None ->
     get_valid_timestamp fs metadata path = get_file_date fs path) /\
    ((forall l, metadata = JObj l ->
        assoc "photoTakenTime" l = None /\ assoc "creationTime" l = None) ->
     get_json_date metadata = None /\
     get_valid_timestamp fs metadata path = get_file_date fs path).
Proof.
  intros FS P fs metadata path.
  assert (Hmain : get_json_date metadata = None ->
                  get_valid_timestamp fs metadata path = get_file_date fs path).
  { intros H. destruct (get_json_date_none metadata H) as (H1 & H2).
    rewrite get_valid_timestamp_chain, get_file_date_chain.
    unfold resolve_with_sidecar, resolve_without_sidecar.
    cbn [first_accepted]. rewrite H1, H2. reflexivity. }
  split; [exact Hmain | ].
  intros H. pose proof (get_json_date_not_object metadata H) as Hn. auto.
Qed.

Lemma sidecar_without_timestamp_witness :
  get_valid_timestamp (P := Mem.platform 0 []) scenario
    (JArr [JStr "not"; JStr "a sidecar"]) "/home/user/in/clip.mp4"
  = get_file_date (P := Mem.platform 0 []) scenario "/home/user/in/clip.mp4".
Proof.
  refine (proj2 (proj2 (sidecar_without_timestamp Mem.fs (Mem.platform 0 []) scenario
            (JArr [JStr "not"; JStr "a sidecar"]) "/home/user/in/clip.mp4") _)).
  intros l H. discriminate H.
Defined.

(* ================================================================== *)
(** ** What the matcher can answer *)

Section MatcherAnswers.
Context {FS : Type} {P : Platform FS}.

Lemma first_ext_in body exts r :
  first_ext body exts = Some r -> exists ext, In ext exts /\ body ext = Some r.
Proof.
  intros H. destruct (first_ext_some _ _ _ H) as (pre & ext & post & -> & Hb & _).
  exists ext. split; [apply in_or_app; right; now left | exact Hb].
Qed.

End MatcherAnswers.

(** X5.  Whatever [find_media_file] returns comes from one of its tiers:
    the sidecar's stem with a lower-cased extension, one of whose two
    spellings exists; or, for a string title, an existing path made of the
    sidecar's directory and the title's stem with an extension; or the
    first match [glob] reports for the pattern [*stem*ext] in that
    directory.  It raises only when tier 1 finds nothing: [TypeError] for a
    title that is not a string, the not-found error otherwise. *)
Theorem find_media_file_answers :
  forall (FS : Type) (P : Platform FS) exts (fs : FS) (json_path : string)
         (title : json),
    let base_path := fst (splitext json_path) in
    let dir_path := dirname json_path in
    (forall r, find_media_file exts fs json_path title = Ok r ->
       (exists ext, In ext exts /\ r = base_path ++ lower ext /\
          (path_exists fs (base_path ++ lower ext) = true \/
           path_exists fs (base_path ++ upper ext) = true)) \/
       (exists s ext, title = JStr s /\ In ext exts /\
          r = join2 dir_path (fst (splitext s) ++ ext) /\
          path_exists fs r = true) \/
       (exists s ext rest, title = JStr s /\ In ext exts /\
          glob_glob fs (join2 dir_path ("*" ++ fst (splitext s) ++ "*" ++ ext))
            = r :: rest)) /\
    (forall e, find_media_file exts fs json_path title = Raise e ->
       first_ext (tier1 fs base_path) exts = None /\
       ((e = TypeError /\ forall s, title <> JStr s) \/
        (exists s, title = JStr s /\
           e = FileNotFoundError (not_found_message json_path s) /\
           first_ext (tier2 fs dir_path (fst (splitext s))) exts = None /\
           first_ext (tier3 fs dir_path (fst (splitext s))) exts = None))).
Proof.
  intros FS P exts fs json_path title base_path dir_path.
  unfold find_media_file. fold base_path. fold dir_path.
  destruct (first_ext (tier1 fs base_path) exts) as [r1 | ] eqn:E1.
  - split; [ | discriminate]. intros r [= <-]. left.
    now apply tier1_shape.
  - destruct title as [ | b | z | q | s | l | l];
      try (split; [discriminate | ];
           intros e [= <-]; split; [reflexivity | left; split; [reflexivity | ]];
           intros s; discriminate).
    destruct (first_ext (tier2 fs dir_path (fst (splitext s))) exts) as [r2 | ] eqn:E2.
    + split; [ | discriminate]. intros r [= <-]. right; left.
      apply first_ext_in in E2. destruct E2 as (ext & Hin & Hb).
      unfold tier2 in Hb.
      destruct (path_exists fs (join2 dir_path (fst (splitext s) ++ ext))) eqn:Ex;
        [ | discriminate].
      injection Hb as <-. exists s, ext. auto.
    + destruct (first_ext (tier3 fs dir_path (fst (splitext s))) exts) as [r3 | ] eqn:E3.
      * split; [ | discriminate]. intros r [= <-]. right; right.
        apply first_ext_in in E3. destruct E3 as (ext & Hin & Hb).
        unfold tier3 in Hb.
        destruct (glob_glob fs _) as [ | m rest] eqn:G; [discriminate | ].
        injection Hb as <-. exists s, ext, rest. auto.
      * split; [discriminate | ]. intros e [= <-]. split; [reflexivity | ].
        right. exists s. auto.
Qed.

Lemma find_media_file_answers_witness :
  first_ext (tier1 (P := Mem.platform 0 []) orphan
               (fst (splitext "/home/user/in/x.json"))) Mem.exts = None.
Proof.
  exact (proj1 (proj2 (find_media_file_answers Mem.fs (Mem.platform 0 []) Mem.exts
                         orphan "/home/user/in/x.json" (JStr "x.jpg"))
                  (FileNotFoundError (not_found_message "/home/user/in/x.json" "x.jpg"))
                  eq_refl)).
Defined.

(* ================================================================== *)
(** ** Where the files land *)

Lemma str_int_digits y :
  1 <= y <= 9999 -> nonempty (str_int y) && all_digits (str_int y) = true.
Proof.
  intros H.
  apply (range_check (fun y => nonempty (str_int y) && all_digits (str_int y))
           1 (Z.to_nat 9999)); [ | lia].
  vm_compute. reflexivity.
Qed.

Lemma split_tail_name x c :
  contains_char sep c = false -> split_tail (x ++ "/" ++ c) = (x ++ "/", c).
Proof.
  intros Hc. induction x as [ | ch x IH].
  - cbn [append split_tail]. rewrite (split_tail_no_sep c Hc). reflexivity.
  - cbn [append split_tail] in *. rewrite IH.
    replace (nonempty (x ++ String "/" "")) with true
      by (destruct x; reflexivity).
    now rewrite orb_true_r.
Qed.

Lemma rstrip_sep_slash y : rstrip_sep (y ++ "/") = rstrip_sep y.
Proof.
  induction y as [ | c y IH]; [reflexivity | ].
  cbn [append rstrip_sep]. now rewrite IH.
Qed.

Lemma rstrip_sep_last x ch :
  ch <> sep -> rstrip_sep (x ++ String ch "") = x ++ String ch "".
Proof.
  intros Hch. induction x as [ | c x IH].
  - cbn [append rstrip_sep nonempty negb].
    destruct (Ascii.eqb_spec ch sep); [contradiction | reflexivity].
  - cbn [append rstrip_sep]. rewrite IH.
    replace (nonempty (x ++ String ch "")) with true by (destruct x; reflexivity).
    now rewrite andb_false_r.
Qed.

(** [dirname] and [basename] of a path whose last separator is known. *)
Lemma dirname_plain a b c :
  nonempty b = true -> contains_char sep b = false ->
  contains_char sep c = false ->
  dirname (a ++ b ++ "/" ++ c) = a ++ b /\ basename (a ++ b ++ "/" ++ c) = c.
Proof.
  intros Hb Hs Hc. unfold dirname, basename.
  rewrite <- append_assoc, (split_tail_name (a ++ b) c Hc). cbn [fst snd].
  split; [ | reflexivity].
  rewrite rstrip_sep_slash.
  destruct (last_char b Hb) as (b' & ch & ->).
  assert (Hch : ch <> sep).
  { intros ->. rewrite contains_char_append in Hs. cbn in Hs.
    rewrite orb_true_r in Hs. discriminate. }
  rewrite <- (append_assoc a b'), (rstrip_sep_last _ ch Hch).
  replace (nonempty ((a ++ b') ++ String ch "")) with true
    by (destruct (a ++ b'); reflexivity).
  replace (nonempty (((a ++ b') ++ String ch "") ++ "/")) with true
    by (destruct (a ++ b'); reflexivity).
  reflexivity.
Qed.

(** What [os.path.join(a, x)] puts before a relative [x]. *)
Definition join_prefix (a : string) : string :=
  if negb (nonempty a) || endswith a "/" then a else a ++ "/".

Lemma join2_relative a x :
  startswith x "/" = false -> join2 a x = join_prefix a ++ x.
Proof.
  intros H. unfold join2, join_prefix. rewrite H.
  destruct (negb (nonempty a) || endswith a "/"); [reflexivity | ].
  now rewrite append_assoc.
Qed.

Section Destination.
Context {FS : Type} {P : Platform FS}.

(** Every planned path has the three parts year, date and name. *)
Lemma get_target_path_parts ts path tp ext :
  get_target_path ts path = Ok (tp, ext) ->
  exists year date,
    nonempty year = true /\ contains_char sep year = false /\
    nonempty date = true /\ contains_char sep date = false /\
    ext = lower (snd (splitext path)) /\
    tp = year ++ "/" ++ date ++ "/" ++ fst (splitext (basename path)) ++ ext.
Proof.
  intros H.
  destruct (fromtimestamp ts) as [[[y m] d] | e] eqn:Hts;
    [ | unfold get_target_path in H; rewrite Hts in H; discriminate].
  destruct (fromtimestamp_range ts y m d Hts) as (Hy & Hm & Hd).
  pose proof (str_int_digits y Hy) as HY. apply andb_true_iff in HY.
  destruct HY as (HY1 & HY2).
  pose proof (zfill_two m ltac:(lia)) as HM.
  pose proof (zfill_two d ltac:(lia)) as HD.
  rewrite (get_target_path_plan ts path y m d Hts HY1 HY2 HM HD) in H.
  injection H as <- <-.
  apply decimal_of_parts in HM, HD.
  destruct HM as (_ & HM & _), HD as (_ & HD & _).
  exists (str_int y), (str_int y ++ "-" ++ zfill 2 (str_int m) ++ "-" ++ zfill 2 (str_int d)).
  repeat split; auto using all_digits_no_sep.
  - now apply nonempty_append.
  - rewrite !contains_char_append.
    rewrite (all_digits_no_sep _ HY2), (all_digits_no_sep _ HM),
      (all_digits_no_sep _ HD). reflexivity.
Qed.

End Destination.

(** X6.  The planned path depends on the media path only through its last
    component: two files of the same name, wherever they lie, are planned
    to the same destination for the same timestamp. *)
Theorem planned_path_ignores_directory :
  forall (FS : Type) (P : Platform FS) (ts : Q) (path path' : string),
    basename path = basename path' ->
    get_target_path ts path = get_target_path ts path'.
Proof.
  intros FS P ts path path' H. unfold get_target_path.
  now rewrite (splitext_basename path), (splitext_basename path'), H.
Qed.

Lemma planned_path_ignores_directory_witness :
  get_target_path (P := Mem.platform 0 []) (inject_Z 1700000000) "/a/b/IMG.JPG"
  = get_target_path (P := Mem.platform 0 []) (inject_Z 1700000000) "/c/IMG.JPG".
Proof.
  refine (planned_path_ignores_directory Mem.fs (Mem.platform 0 [])
            (inject_Z 1700000000) "/a/b/IMG.JPG" "/c/IMG.JPG" _).
  reflexivity.
Defined.

(** X7.  For every path [get_target_path] plans and every target
    directory, the directory the driver creates,
    [join(target_dir, dirname(target_path))], is the directory of both
    destinations: of the media file at [join(target_dir, target_path)] and
    of the sidecar at [join(target_dir, dirname(target_path),
    basename(json_path))].  The media file keeps its base name with the
    extension lower-cased, the sidecar keeps its name, and the planned path
    is relative. *)
Theorem destinations_share_created_directory :
  forall (FS : Type) (P : Platform FS) (ts : Q) (path tp ext : string)
         (target_dir json_path : string),
    get_target_path ts path = Ok (tp, ext) ->
    let full_target_dir := join2 target_dir (dirname tp) in
    let media_target := join2 target_dir tp in
    let json_target := join target_dir [dirname tp; basename json_path] in
    startswith tp "/" = false /\
    dirname media_target = full_target_dir /\
    dirname json_target = full_target_dir /\
    basename media_target = fst (splitext (basename path)) ++ ext /\
    basename json_target = basename json_path.
Proof.
  intros FS P ts path tp ext target_dir json_path H.
  destruct (get_target_path_parts ts path tp ext H)
    as (year & date & Hy1 & Hy2 & Hd1 & Hd2 & -> & ->).
  set (name := fst (splitext (basename path)) ++ lower (snd (splitext path))).
  assert (Hname : contains_char sep name = false) by apply target_name_no_sep.
  assert (Hrel : forall x, startswith (year ++ x) "/" = false).
  { intros x. destruct year as [ | c year]; [discriminate | ].
    cbn in Hy2 |- *. apply orb_false_iff in Hy2. destruct Hy2 as [Hc _].
    rewrite Ascii.eqb_sym. fold sep. now rewrite Hc. }
  pose proof (dirname_plain (year ++ "/") date name Hd1 Hd2 Hname) as (Hdir & _).
  set (pre := join_prefix target_dir).
  pose proof (dirname_plain (pre ++ year ++ "/") date name Hd1 Hd2 Hname) as (D1 & B1).
  pose proof (dirname_plain (pre ++ year ++ "/") date (basename json_path)
                Hd1 Hd2 (basename_no_sep json_path)) as (D2 & B2).
  pose proof (join2_plain (pre ++ year ++ "/") date (basename json_path)
                Hd1 Hd2 (basename_no_sep json_path)) as Hj.
  repeat rewrite append_assoc in Hdir.
  repeat rewrite append_assoc in D1.
  repeat rewrite append_assoc in B1.
  repeat rewrite append_assoc in D2.
  repeat rewrite append_assoc in B2.
  repeat rewrite append_assoc in Hj.
  cbv zeta. rewrite Hdir.
  unfold join. cbn [fold_left].
  rewrite (join2_relative target_dir (year ++ "/" ++ date)) by apply Hrel.
  rewrite (join2_relative target_dir (year ++ "/" ++ date ++ "/" ++ name))
    by apply Hrel.
  fold pre. rewrite Hj, D1, D2, B1, B2.
  repeat split; auto.
Qed.

Lemma destinations_share_created_directory_witness :
  dirname (join2 "/home/user/out" "2023/2023-11-14/IMG_001.jpg")
  = join2 "/home/user/out" (dirname "2023/2023-11-14/IMG_001.jpg").
Proof.
  exact (proj1 (proj2 (destinations_share_created_directory Mem.fs
    (Mem.platform 0 []) (inject_Z 1700000000) "/home/user/in/IMG_001.jpg"
    "2023/2023-11-14/IMG_001.jpg" ".jpg" "/home/user/out"
    "/home/user/in/IMG_001.json" eq_refl))).
Defined.

(* ================================================================== *)
(** ** The claimed set *)

Section Claimed.
Context {FS : Type} {P : Platform FS}.

Lemma mem_cons x y l : mem x (y :: l) = String.eqb x y || mem x l.
Proof. reflexivity. Qed.

Lemma json_step_claimed exts target_dir root file (r : run FS) x :
  mem x (run_claimed r) = true ->
  mem x (run_claimed (json_step exts target_dir root file r)) = true.
Proof.
  intros H. unfold json_step.
  destruct (endswith file ".json"); [ | exact H].
  destruct (process_json_file _ _ _) as [[[target_path media_ext] media_path] | e];
    [ | exact H].
  assert (H' : mem x (lower media_path :: run_claimed r) = true).
  { rewrite mem_cons, H. apply orb_true_r. }
  destruct (makedirs _ _) as [fs1 [ [] | e ]]; [ | exact H'].
  destruct (shutil_move fs1 _ _) as [fs2 [ [] | e ]]; [ | exact H'].
  destruct (shutil_move fs2 _ _) as [fs3 [ [] | e ]]; exact H'.
Qed.

Lemma media_step_claimed target_dir root file (r : run FS) :
  run_claimed (media_step target_dir root file r) = run_claimed r.
Proof.
  unfold media_step.
  destruct (negb _); [ | reflexivity].
  destruct (in_ALL_MEDIA_EXTENSIONS _); [ | reflexivity].
  destruct (process_media_without_json _ _) as [[target_path media_ext] | e];
    [ | reflexivity].
  destruct (makedirs _ _) as [fs1 [ [] | e ]]; [ | reflexivity].
  destruct (shutil_move fs1 _ _) as [fs2 [ [] | e ]]; reflexivity.
Qed.

Lemma json_pass_claimed exts target_dir walk x : forall r : run FS,
  mem x (run_claimed r) = true ->
  mem x (run_claimed (fold_left (json_directory exts target_dir) walk r)) = true.
Proof.
  induction walk as [ | [root files] walk IH]; intros r H; [exact H | ].
  cbn [fold_left]. apply IH. unfold json_directory.
  destruct (negb _); [exact H | ].
  revert r H. induction files as [ | file files IHf]; intros r H; [exact H | ].
  cbn [fold_left]. apply IHf. now apply json_step_claimed.
Qed.

Lemma media_pass_claimed target_dir walk : forall r : run FS,
  run_claimed (fold_left (media_directory target_dir) walk r) = run_claimed r.
Proof.
  induction walk as [ | [root files] walk IH]; intros r; [reflexivity | ].
  cbn [fold_left]. rewrite IH. unfold media_directory.
  destruct (negb _); [reflexivity | ].
  revert r. induction files as [ | file files IHf]; intros r; [reflexivity | ].
  cbn [fold_left]. rewrite IHf. apply media_step_claimed.
Qed.

End Claimed.

(** X8.  The lower-cased path of a media file enters
    [processed_media_files] when [process_json_file] returns for its
    sidecar, that is once the file is matched, its timestamp resolved and
    its destination planned; whether the moves that follow succeed plays no
    part.  When [process_json_file] raises, also after a match, the set is
    left as it was.  A path once in the set stays there for the rest of
    the run, and the second pass passes over every file whose lower-cased
    path is in it: such a step changes nothing. *)
Theorem claimed_paths_are_passed_over :
  forall (FS : Type) (P : Platform FS) exts target_dir (r : run FS),
    (forall root file target_path media_ext media_path,
        endswith file ".json" = true ->
        process_json_file exts (run_fs r) (join2 root file)
          = Ok (target_path, media_ext, media_path) ->
        run_claimed (json_step exts target_dir root file r)
          = lower media_path :: run_claimed r /\
        mem (lower media_path)
            (run_claimed (json_step exts target_dir root file r)) = true) /\
    (forall root file e,
        process_json_file exts (run_fs r) (join2 root file) = Raise e ->
        run_claimed (json_step exts target_dir root file r) = run_claimed r) /\
    (forall x walk1 walk2 root file,
        mem x (run_claimed r) = true ->
        lower (join2 root file) = x ->
        let r' := fold_left (media_directory target_dir) walk2
                    (fold_left (json_directory exts target_dir) walk1 r) in
        mem x (run_claimed r') = true /\
        media_step target_dir root file r' = r').
Proof.
  intros FS P exts target_dir r. split; [ | split].
  - intros root file target_path media_ext media_path Hj Hp.
    assert (Hc : run_claimed (json_step exts target_dir root file r)
                 = lower media_path :: run_claimed r).
    { unfold json_step. rewrite Hj, Hp.
      destruct (makedirs _ _) as [fs1 [ [] | e ]]; [ | reflexivity].
      destruct (shutil_move fs1 _ _) as [fs2 [ [] | e ]]; [ | reflexivity].
      destruct (shutil_move fs2 _ _) as [fs3 [ [] | e ]]; reflexivity. }
    split; [exact Hc | ].
    rewrite Hc, mem_cons, String.eqb_refl. reflexivity.
  - intros root file e He. unfold json_step.
    destruct (endswith file ".json"); [ | reflexivity].
    now rewrite He.
  - intros x walk1 walk2 root file Hx Hl r'.
    assert (H : mem x (run_claimed r') = true).
    { subst r'. rewrite media_pass_claimed. now apply json_pass_claimed. }
    split; [exact H | ].
    unfold media_step. now rewrite Hl, H.
Qed.

Lemma claimed_paths_are_passed_over_witness :
  let P := Mem.platform 0 [] in
  let r := {| run_fs := upper_case_only; run_stats := stats0;
              run_claimed := []; run_log := [] |} in
  mem "/home/user/in/img_001.jpg"
      (run_claimed (json_step Mem.exts "/home/user/out" "/home/user/in"
                      "IMG_001.json" r)) = true.
Proof.
  intros P r.
  exact (proj2 (proj1 (claimed_paths_are_passed_over Mem.fs P Mem.exts
                         "/home/user/out" r)
                  "/home/user/in" "IMG_001.json" "2023/2023-11-14/IMG_001.jpg" ".jpg"
                  "/home/user/in/IMG_001.jpg" eq_refl eq_refl)).
Defined.

(** A sidecar whose timestamp is in milliseconds: its photo is matched, but
    no date can be made of 1700000000000 seconds, so [process_json_file]
    raises, the photo is not claimed and the second pass moves it alone. *)
Definition milliseconds : Mem.fs :=
  [("/home/user/in/a.jpg", Mem.plain (1700000000 # 1));
   ("/home/user/in/a.json",
      Mem.sidecar (1700000000 # 1) (Mem.taken "a.jpg" "1700000000000"))].

Example matched_but_not_claimed :
  let P := Mem.platform 0 [] in
  let r := organize_media Mem.exts milliseconds "/home/user/in" "/home/user/out"
             [("/home/user/in", ["a.jpg"; "a.json"])]
             [("/home/user/in", ["a.jpg"; "a.json"])] in
  find_media_file Mem.exts milliseconds "/home/user/in/a.json" (JStr "a.jpg")
    = Ok "/home/user/in/a.jpg" /\
  (exists e,
     process_json_file Mem.exts milliseconds "/home/user/in/a.json" = Raise e) /\
  run_claimed r = [] /\
  map fst (run_fs r) =
    ["/home/user/out/2023/2023-11-14/a.jpg"; "/home/user/in/a.json"].
Proof. vm_compute. repeat split. now exists ValueError. Qed.

(* ================================================================== *)
(** ** The report of a run *)

(** Number of report lines printed so far. *)
Definition reported {FS : Type} (r : run FS) : Z := Z.of_nat (List.length (run_log r)).

(** From [r] to [r'], [k] directories were skipped and at most [n] files
    handled; each file handled printed one line and was counted once, as
    processed or as an error. *)
Definition advanced {FS : Type} (k n : Z) (r r' : run FS) : Prop :=
  let s := run_stats r in
  let s' := run_stats r' in
  skipped_directories s' = skipped_directories s + k /\
  processed s <= processed s' /\ errors s <= errors s' /\
  reported r' - reported r = (processed s' - processed s) + (errors s' - errors s) /\
  0 <= reported r' - reported r <= n.

(** Number of file names a walk lists. *)
Definition listed (walk : list (string * list string)) : Z :=
  fold_right (fun e n => Z.of_nat (List.length (snd e)) + n) 0 walk.

Section Report.
Context {FS : Type} {P : Platform FS}.

Lemma advanced_refl (r : run FS) : advanced 0 0 r r.
Proof. unfold advanced. cbv zeta. lia. Qed.

Lemma advanced_trans k j n m (r1 r2 r3 : run FS) :
  advanced k n r1 r2 -> advanced j m r2 r3 -> advanced (k + j) (n + m) r1 r3.
Proof. unfold advanced. cbv zeta. lia. Qed.

Lemma advanced_failed file e fs claimed (r : run FS) :
  advanced 0 1 r (failed file e fs claimed r).
Proof.
  unfold advanced, reported, failed. cbn.
  rewrite length_app. cbn. lia.
Qed.

Lemma json_step_advanced exts target_dir root file (r : run FS) :
  advanced 0 1 r (json_step exts target_dir root file r).
Proof.
  assert (H0 : advanced 0 1 r r) by (unfold advanced; cbv zeta; lia).
  unfold json_step.
  destruct (endswith file ".json"); [ | exact H0].
  destruct (process_json_file _ _ _) as [[[target_path media_ext] media_path] | e];
    [ | apply advanced_failed].
  destruct (makedirs _ _) as [fs1 [ [] | e ]]; [ | apply advanced_failed].
  destruct (shutil_move fs1 _ _) as [fs2 [ [] | e ]]; [ | apply advanced_failed].
  destruct (shutil_move fs2 _ _) as [fs3 [ [] | e ]]; [ | apply advanced_failed].
  unfold advanced, reported, count_moved. cbn.
  rewrite length_app. cbn. lia.
Qed.

Lemma media_step_advanced target_dir root file (r : run FS) :
  advanced 0 1 r (media_step target_dir root file r).
Proof.
  assert (H0 : advanced 0 1 r r) by (unfold advanced; cbv zeta; lia).
  unfold media_step.
  destruct (negb _); [ | exact H0].
  destruct (in_ALL_MEDIA_EXTENSIONS _); [ | exact H0].
  destruct (process_media_without_json _ _) as [[target_path media_ext] | e];
    [ | apply advanced_failed].
  destruct (makedirs _ _) as [fs1 [ [] | e ]]; [ | apply advanced_failed].
  destruct (shutil_move fs1 _ _) as [fs2 [ [] | e ]]; [ | apply advanced_failed].
  unfold advanced, reported, count_moved. cbn.
  rewrite length_app. cbn. lia.
Qed.

Lemma files_advanced (step : string -> run FS -> run FS) files :
  (forall file r, advanced 0 1 r (step file r)) ->
  forall r, advanced 0 (Z.of_nat (List.length files)) r
              (fold_left (fun r file => step file r) files r).
Proof.
  intros Hstep. induction files as [ | file files IH]; intros r.
  - apply advanced_refl.
  - cbn [fold_left List.length]. rewrite Nat2Z.inj_succ.
    replace (Z.succ (Z.of_nat (List.length files)))
      with (1 + Z.of_nat (List.length files)) by lia.
    change 0 with (0 + 0) at 1.
    eapply advanced_trans; [apply Hstep | apply IH].
Qed.

Lemma listed_nonneg walk : 0 <= listed walk.
Proof.
  induction walk as [ | e walk IH]; [cbn; lia | ].
  change (listed (e :: walk)) with (Z.of_nat (List.length (snd e)) + listed walk).
  lia.
Qed.

(** Number of entries of a walk that lie in the target tree. *)
Definition inside_count (target_dir : string) (walk : list (string * list string)) : Z :=
  Z.of_nat (List.length (filter (fun e => negb (outside target_dir e)) walk)).

Lemma json_pass_advanced exts target_dir walk : forall r : run FS,
  advanced (inside_count target_dir walk) (listed walk) r
    (fold_left (json_directory exts target_dir) walk r).
Proof.
  unfold inside_count.
  induction walk as [ | [root files] walk IH]; intros r; [apply advanced_refl | ].
  cbn [fold_left filter].
  change (outside target_dir (root, files))
    with (should_process_directory root target_dir).
  pose proof (listed_nonneg walk) as Hw.
  pose proof (IH (json_directory exts target_dir r (root, files))) as H2.
  assert (H1 : advanced
                 (if should_process_directory root target_dir then 0 else 1)
                 (Z.of_nat (List.length files)) r
                 (json_directory exts target_dir r (root, files))).
  { unfold json_directory.
    destruct (should_process_directory root target_dir); cbn [negb].
    - apply (files_advanced (fun file r => json_step exts target_dir root file r)).
      intros. apply json_step_advanced.
    - unfold advanced, reported. cbn. lia. }
  pose proof (advanced_trans _ _ _ _ _ _ _ H1 H2) as H.
  cbn [listed fold_right snd].
  destruct (should_process_directory root target_dir); cbn [negb List.length] in *.
  - exact H.
  - rewrite Nat2Z.inj_succ.
    replace (Z.succ (Z.of_nat (List.length
               (filter (fun e => negb (outside target_dir e)) walk))))
      with (1 + Z.of_nat (List.length
               (filter (fun e => negb (outside target_dir e)) walk))) by lia.
    exact H.
Qed.

Lemma media_pass_advanced target_dir walk : forall r : run FS,
  advanced 0 (listed walk) r (fold_left (media_directory target_dir) walk r).
Proof.
  induction walk as [ | [root files] walk IH]; intros r; [apply advanced_refl | ].
  cbn [fold_left listed fold_right snd].
  change 0 with (0 + 0) at 1.
  eapply advanced_trans; [ | apply IH].
  unfold media_directory. destruct (negb _).
  - pose proof (Zle_0_nat (List.length files)).
    unfold advanced. cbv zeta. lia.
  - apply (files_advanced (fun file r => media_step target_dir root file r)).
    intros. apply media_step_advanced.
Qed.

End Report.

(** X9.  The report of a run adds up: the number of lines the driver
    printed for files is [processed + errors]; [skipped_directories] is the
    number of directories of the first walk that lie in the target tree
    (the second pass skips them without counting); and no more files are
    counted than the two walks listed. *)
Theorem report_adds_up :
  forall (FS : Type) (P : Platform FS) exts (fs : FS) source_dir target_dir
         walk1 walk2,
    let r := organize_media exts fs source_dir target_dir walk1 walk2 in
    let s := run_stats r in
    Z.of_nat (List.length (run_log r)) = processed s + errors s /\
    skipped_directories s = inside_count (abspath target_dir) walk1 /\
    0 <= processed s /\ 0 <= errors s /\
    processed s + errors s <= listed walk1 + listed walk2.
Proof.
  intros FS P exts fs source_dir target_dir walk1 walk2 r s.
  subst s r. unfold organize_media.
  set (t := abspath target_dir).
  set (r0 := {| run_fs := fs; run_stats := stats0;
                run_claimed := []; run_log := [] |}).
  pose proof (json_pass_advanced exts t walk1 r0) as H1.
  pose proof (media_pass_advanced t walk2
                (fold_left (json_directory exts t) walk1 r0)) as H2.
  pose proof (advanced_trans _ _ _ _ _ _ _ H1 H2) as H.
  unfold advanced, reported in H. cbn in H. lia.
Qed.

(* ================================================================== *)
(** ** Photos and videos in the second pass *)

Lemma photo_not_video x :
  mem x PHOTO_EXTENSIONS = true -> mem x VIDEO_EXTENSIONS = false.
Proof.
  intros H. unfold mem in H. apply existsb_exists in H.
  destruct H as (e & Hin & He). apply String.eqb_eq in He. subst e.
  cbn in Hin.
  repeat (destruct Hin as [<- | Hin]; [reflexivity | ]). destruct Hin.
Qed.

Lemma basename_join2 root file :
  contains_char sep file = false -> basename (join2 root file) = file.
Proof.
  intros Hf. unfold join2. rewrite (startswith_sep file Hf).
  destruct root as [ | c root].
  - cbn. unfold basename. now rewrite (split_tail_no_sep file Hf).
  - cbn [nonempty negb orb].
    destruct (endswith (String c root) "/") eqn:E.
    + destruct (endswith_sep_cut _ E) as (r0 & ->).
      rewrite append_assoc. unfold basename.
      now rewrite (split_tail_name r0 file Hf).
    + unfold basename. now rewrite (split_tail_name (String c root) file Hf).
Qed.

Section SecondPass.
Context {FS : Type} {P : Platform FS}.

Lemma process_media_without_json_ext fs path target_path media_ext :
  process_media_without_json fs path = Ok (target_path, media_ext) ->
  media_ext = lower (snd (splitext path)).
Proof.
  unfold process_media_without_json, get_target_path.
  destruct (get_file_date fs path) as [[timestamp source] | e]; cbn [bind];
    [ | discriminate].
  destruct (fromtimestamp timestamp) as [[[y m] d] | e]; cbn [bind];
    [ | discriminate].
  now intros [= _ <-].
Qed.

End SecondPass.

(** X10.  In the second pass a file is counted by its own extension: when
    the step for a directory entry [file] counts it as processed, then
    either its lower-cased extension is a photo extension and only
    [photos] grows, or it is a video extension and only [videos] grows.
    No file without a media extension is ever counted there. *)
Theorem second_pass_counts_by_extension :
  forall (FS : Type) (P : Platform FS) target_dir root file (r : run FS),
    contains_char sep file = false ->
    let s := run_stats r in
    let s' := run_stats (media_step target_dir root file r) in
    let ext := lower (snd (splitext file)) in
    processed s' = processed s + 1 ->
    (mem ext PHOTO_EXTENSIONS = true /\ mem ext VIDEO_EXTENSIONS = false /\
       photos s' = photos s + 1 /\ videos s' = videos s) \/
    (mem ext VIDEO_EXTENSIONS = true /\ mem ext PHOTO_EXTENSIONS = false /\
       videos s' = videos s + 1 /\ photos s' = photos s).
Proof.
  intros FS P target_dir root file r Hfile s s' ext. subst s s'.
  unfold media_step.
  destruct (negb _); [ | cbn; lia].
  fold ext.
  destruct (in_ALL_MEDIA_EXTENSIONS ext) eqn:Hall; [ | cbn; lia].
  destruct (process_media_without_json _ _) as [[target_path media_ext] | e] eqn:Hp;
    [ | cbn; lia].
  apply process_media_without_json_ext in Hp.
  rewrite splitext_basename, (basename_join2 root file Hfile) in Hp.
  fold ext in Hp. subst media_ext.
  destruct (makedirs _ _) as [fs1 [ [] | e ]]; [ | cbn; lia].
  destruct (shutil_move fs1 _ _) as [fs2 [ [] | e ]]; [ | cbn; lia].
  intros _. unfold count_moved. cbn [run_stats photos videos].
  unfold in_ALL_MEDIA_EXTENSIONS in Hall.
  destruct (mem ext PHOTO_EXTENSIONS) eqn:Hph.
  - left. rewrite (photo_not_video ext Hph). repeat split; lia.
  - right. cbn [orb] in Hall. rewrite Hall. repeat split; lia.
Qed.

Lemma second_pass_counts_by_extension_witness :
  let P := Mem.platform 0 [] in
  let r := {| run_fs := scenario; run_stats := stats0;
              run_claimed := []; run_log := [] |} in
  videos (run_stats (media_step "/home/user/out" "/home/user/in" "clip.mp4" r)) = 1.
Proof.
  intros P r.
  destruct (second_pass_counts_by_extension Mem.fs P "/home/user/out"
              "/home/user/in" "clip.mp4" r eq_refl eq_refl)
    as [(H & _) | (_ & _ & H & _)]; [discriminate H | exact H].
Defined.

(* ================================================================== *)
(** ** Sidecars that cannot be used *)

(** What the first pass leaves of a file it could only count as an error:
    the file system and the claimed set as they were, [errors] one more and
    no other counter changed, and one more report line, which names the
    file. *)
Definition only_counted {FS : Type} (file : string) (r r' : run FS) : Prop :=
  run_fs r' = run_fs r /\
  run_claimed r' = run_claimed r /\
  errors (run_stats r') = errors (run_stats r) + 1 /\
  only_error (run_stats r) (run_stats r') /\
  exists message,
    run_log r'
      = (run_log r ++ [("Error processing " ++ file ++ ": " ++ message)%string])%list.

(** X14.  A [.json] file that cannot be loaded, or whose content is not an
    object with a [title], is counted as one error and nothing else
    happens: [process_json_file] raises before any media file is looked
    for, [errors] grows by one and no other counter changes, no file is
    moved and nothing is claimed, even when a media file of the same stem
    lies next to it.  The error is the one [json.load] raised,
    [KeyError('title')] for an object without title, whose report line ends
    in ['title'], and [TypeError] for any other JSON value. *)
Theorem unusable_sidecar_is_only_counted :
  forall (FS : Type) (P : Platform FS) exts target_dir root file (r : run FS),
    endswith file ".json" = true ->
    let r' := json_step exts target_dir root file r in
    (forall e, json_load (run_fs r) (join2 root file) = Raise e ->
       process_json_file exts (run_fs r) (join2 root file) = Raise e /\
       only_counted file r r') /\
    (forall metadata,
       json_load (run_fs r) (join2 root file) = Ok metadata ->
       (forall l, metadata = JObj l -> assoc "title" l = None) ->
       process_json_file exts (run_fs r) (join2 root file)
         = Raise (match metadata with JObj _ => KeyError "title" | _ => TypeError end) /\
       only_counted file r r' /\
       (forall l, metadata = JObj l ->
          run_log r'
            = (run_log r
                 ++ [("Error processing " ++ file ++ ": 'title'")%string])%list)).
Proof.
  intros FS P exts target_dir root file r Hj r'.
  assert (Hf : forall e,
             process_json_file exts (run_fs r) (join2 root file) = Raise e ->
             r' = failed file e (run_fs r) (run_claimed r) r).
  { intros e He. subst r'. unfold json_step. now rewrite Hj, He. }
  assert (Hc : forall e,
             r' = failed file e (run_fs r) (run_claimed r) r ->
             only_counted file r r').
  { intros e ->. unfold only_counted, failed. cbn [run_fs run_claimed run_stats run_log].
    repeat split; try reflexivity. now exists (str_exn e). }
  split.
  - intros e He.
    assert (Hp : process_json_file exts (run_fs r) (join2 root file) = Raise e).
    { unfold process_json_file. now rewrite He. }
    split; [exact Hp | exact (Hc e (Hf e Hp))].
  - intros metadata Hm Ht.
    assert (Hp : process_json_file exts (run_fs r) (join2 root file)
                 = Raise (match metadata with
                          | JObj _ => KeyError "title" | _ => TypeError end)).
    { unfold process_json_file. rewrite Hm. cbn [bind].
      destruct metadata as [ | b | z | q | s | l | l]; try reflexivity.
      cbn [getitem]. now rewrite (Ht l eq_refl). }
    split; [exact Hp | ]. split; [exact (Hc _ (Hf _ Hp)) | ].
    intros l ->. rewrite (Hf _ Hp). reflexivity.
Qed.

(** A photo next to a [.json] file that holds a list. *)
Definition stray_json : Mem.fs :=
  [("/home/user/in/a.jpg", Mem.plain (1700000000 # 1));
   ("/home/user/in/a.json", Mem.sidecar (1700000000 # 1) (JArr [JInt 1; JInt 2]))].

Lemma unusable_sidecar_is_only_counted_witness :
  let P := Mem.platform 0 [] in
  let r := {| run_fs := stray_json; run_stats := stats0;
              run_claimed := []; run_log := [] |} in
  process_json_file Mem.exts stray_json "/home/user/in/a.json" = Raise TypeError /\
  only_counted "a.json" r
    (json_step Mem.exts "/home/user/out" "/home/user/in" "a.json" r).
Proof.
  intros P r.
  assert (H : forall l, JArr [JInt 1; JInt 2] = JObj l -> assoc "title" l = None)
    by (intros l E; discriminate E).
  pose proof (proj2 (unusable_sidecar_is_only_counted Mem.fs P Mem.exts "/home/user/out"
                       "/home/user/in" "a.json" r eq_refl)
                (JArr [JInt 1; JInt 2]) eq_refl H) as (H1 & H2 & _).
  split; [exact H1 | exact H2].
Defined.

(* ================================================================== *)
(** ** A source tree inside the target *)

Section Inside.
Context {FS : Type} {P : Platform FS}.

Lemma json_pass_inside exts target_dir walk : forall r : run FS,
  Forall (fun e => outside target_dir e = false) walk ->
  fold_left (json_directory exts target_dir) walk r
    = add_skipped (Z.of_nat (List.length walk)) r.
Proof.
  induction walk as [ | [root files] walk IH]; intros r H.
  - cbn. now rewrite add_skipped_0.
  - inversion H as [ | ? ? H1 H2]; subst. cbn [fold_left].
    rewrite (json_directory_skip _ _ _ _ _ H1), (IH _ H2), add_skipped_add.
    f_equal. cbn [List.length]. lia.
Qed.

Lemma media_pass_inside target_dir walk : forall r : run FS,
  Forall (fun e => outside target_dir e = false) walk ->
  fold_left (media_directory target_dir) walk r = r.
Proof.
  induction walk as [ | [root files] walk IH]; intros r H; [reflexivity | ].
  inversion H as [ | ? ? H1 H2]; subst. cbn [fold_left].
  rewrite (media_directory_skip _ _ _ _ H1). now apply IH.
Qed.

End Inside.

(** X13.  When every directory the two walks yield is the target directory
    or lies below it (the source is the target, or inside it), a run moves
    nothing, claims nothing and prints no file line; it only counts every
    directory of the first walk as skipped. *)
Theorem run_inside_target_moves_nothing :
  forall (FS : Type) (P : Platform FS) exts (fs : FS) source_dir target_dir
         walk1 walk2,
    (forall e, In e (walk1 ++ walk2)%list ->
       exists names, Forall entry_name names /\
         lower (normpath (fst e)) =
           lower (normpath (join (abspath target_dir) names))) ->
    organize_media exts fs source_dir target_dir walk1 walk2 =
      {| run_fs := fs;
         run_stats :=
           {| processed := 0; processed_with_json := 0;
              processed_without_json := 0; errors := 0; photos := 0; videos := 0;
              skipped_directories := Z.of_nat (List.length walk1) |};
         run_claimed := [];
         run_log := [] |}.
Proof.
  intros FS P exts fs source_dir target_dir walk1 walk2 H.
  assert (Hout : forall w, (forall e, In e w -> In e (walk1 ++ walk2)%list) ->
                 Forall (fun e => outside (abspath target_dir) e = false) w).
  { intros w Hw. apply Forall_forall. intros e He.
    destruct (H e (Hw e He)) as (names & Hn & Hl).
    pose proof (should_process_directory_below (abspath target_dir) names
                  (abspath_absolute target_dir) Hn) as Hb.
    unfold outside, should_process_directory in *. now rewrite Hl. }
  unfold organize_media.
  rewrite json_pass_inside
    by (apply Hout; intros e He; apply in_or_app; now left).
  rewrite media_pass_inside
    by (apply Hout; intros e He; apply in_or_app; now right).
  reflexivity.
Qed.

Lemma run_inside_target_moves_nothing_witness :
  run_fs (organize_media (P := Mem.platform 0 []) Mem.exts scenario
            "/home/user/in" "/home/user"
            [("/home/user/in", ["IMG_001.jpg"; "IMG_001.json"; "clip.mp4"])]
            [("/home/user/in", ["IMG_001.jpg"; "IMG_001.json"; "clip.mp4"])])
  = scenario.
Proof.
  refine (f_equal run_fs
    (run_inside_target_moves_nothing Mem.fs (Mem.platform 0 []) Mem.exts scenario
       "/home/user/in" "/home/user" _ _ _)).
  intros e [<- | [<- | []]]; exists ["in"];
    (split; [repeat constructor; discriminate | reflexivity]).
Defined.

(* ================================================================== *)
(** ** Which other directories the prefix test catches *)

Lemma lower_append a b : lower (a ++ b) = lower a ++ lower b.
Proof.
  unfold lower. induction a as [ | x a IH]; simpl; [reflexivity | now rewrite IH].
Qed.

Lemma startswith_longer a x :
  nonempty x = true -> startswith a (a ++ x) = false.
Proof.
  intros Hx. induction a as [ | c a IH].
  - destruct x; [discriminate | reflexivity].
  - cbn [append startswith]. now rewrite Ascii.eqb_refl, IH.
Qed.

Lemma entry_name_append n s :
  entry_name n -> nonempty s = true -> contains_char sep s = false ->
  entry_name (n ++ s).
Proof.
  intros (Hn & Hsep & Hdot & Hdd) Hs Hss.
  destruct n as [ | c n]; [discriminate | ].
  destruct s as [ | d s]; [discriminate | ].
  repeat split.
  - now rewrite contains_char_append, Hsep, Hss.
  - destruct n; discriminate.
  - intros E. destruct n as [ | c' n].
    + injection E as -> ->. now apply Hdot.
    + destruct n; discriminate.
Qed.

(** One step down makes the normalised path strictly longer. *)
Lemma normpath_below_grows t n :
  startswith t "/" = true -> entry_name n ->
  exists x, nonempty x = true /\ normpath (join2 t n) = normpath t ++ x.
Proof.
  intros Ht Hn. destruct (join2_below t n Ht Hn) as (Ha & Hi & Hc).
  rewrite (normpath_absolute_eq _ Ha), (normpath_absolute_eq _ Ht), Hi, Hc.
  rewrite concat_snoc. destruct Hn as (Hne & _).
  destruct (components t) as [ | a acc].
  - exists n. split; [exact Hne | ]. cbn [String.concat]. now rewrite append_nil_r.
  - exists ("/" ++ n). split; [reflexivity | ]. now rewrite append_assoc.
Qed.

Lemma normpath_below_all_grows names : forall t n,
  startswith t "/" = true -> entry_name n -> Forall entry_name names ->
  exists x, nonempty x = true /\ normpath (join t (n :: names)) = normpath t ++ x.
Proof.
  induction names as [ | m names IH]; intros t n Ht Hn Hnames.
  - now apply normpath_below_grows.
  - inversion Hnames as [ | ? ? Hm Hrest]; subst.
    destruct (normpath_below_grows t n Ht Hn) as (x & Hx & Ex).
    destruct (join2_below t n Ht Hn) as (Ha & _).
    destruct (IH (join2 t n) m Ha Hm Hrest) as (y & Hy & Ey).
    exists (x ++ y). split; [now apply nonempty_append | ].
    change (join t (n :: m :: names)) with (join (join2 t n) (m :: names)).
    now rewrite Ey, Ex, append_assoc.
Qed.

(** Strings of ASCII characters.  On these [lower] is [str.lower()]; beyond
    them Python lowers by Unicode rules, some of which look at the
    neighbouring characters, and [lower] does not follow it there. *)
Fixpoint ascii_only (s : string) : bool :=
  match s with
  | EmptyString => true
  | String c s' => (N_of_ascii c <? 128)%N && ascii_only s'
  end.

(** X11.  For paths of ASCII characters, the test of
    [should_process_directory] is a prefix test on strings, not on path
    components: next to a target directory [n], a sibling directory whose
    name merely starts with the target's name ([n ++ s], such as [out_old]
    beside [out]) is left out of the walk as well, together with everything
    below it. *)
Theorem name_prefix_siblings_are_skipped :
  forall (parent n s : string) (names : list string),
    ascii_only parent = true -> ascii_only n = true -> ascii_only s = true ->
    Forall (fun x => ascii_only x = true) names ->
    startswith parent "/" = true ->
    entry_name n ->
    nonempty s = true -> contains_char sep s = false ->
    Forall entry_name names ->
    should_process_directory (join (join2 parent (n ++ s)) names) (join2 parent n)
      = false.
Proof.
  intros parent n s names _ _ _ _ Hp Hn Hs Hss Hnames.
  pose proof (entry_name_append n s Hn Hs Hss) as Hns.
  destruct (join2_below parent n Hp Hn) as (Ha & Hi & Hc).
  destruct (join2_below parent (n ++ s) Hp Hns) as (Ha' & Hi' & Hc').
  destruct (normpath_below_all names (join2 parent (n ++ s)) Ha' Hnames) as (_ & Hb).
  assert (Hsib : startswith (normpath (join2 parent (n ++ s)))
                            (normpath (join2 parent n)) = true).
  { rewrite (normpath_absolute_eq _ Ha), (normpath_absolute_eq _ Ha'), Hi, Hi', Hc, Hc'.
    rewrite !concat_snoc.
    destruct (components parent) as [ | a acc].
    - rewrite <- !append_assoc. apply startswith_append.
    - rewrite <- !append_assoc. apply startswith_append. }
  unfold should_process_directory.
  rewrite (startswith_lower _ _ (startswith_trans _ _ _ Hb Hsib)). reflexivity.
Qed.

Lemma name_prefix_siblings_are_skipped_witness :
  should_process_directory "/home/user/in/out_old/2019" "/home/user/in/out" = false.
Proof.
  refine (name_prefix_siblings_are_skipped "/home/user/in" "out" "_old" ["2019"]
            _ _ _ _ _ _ _ _ _).
  - reflexivity.
  - reflexivity.
  - reflexivity.
  - repeat constructor.
  - reflexivity.
  - repeat split; discriminate.
  - reflexivity.
  - reflexivity.
  - repeat constructor; discriminate.
Defined.

(** X12.  A directory strictly above the target is processed: for an
    absolute directory [t] and a target reached from it through one or more
    entry names, [should_process_directory t target] is true.  The
    exclusion of the target never swallows the source tree it lies in. *)
Theorem ancestors_of_target_are_processed :
  forall (t n : string) (names : list string),
    startswith t "/" = true ->
    entry_name n -> Forall entry_name names ->
    should_process_directory t (join t (n :: names)) = true.
Proof.
  intros t n names Ht Hn Hnames.
  destruct (normpath_below_all_grows names t n Ht Hn Hnames) as (x & Hx & E).
  unfold should_process_directory. rewrite E, lower_append.
  rewrite startswith_longer; [reflexivity | ].
  destruct x; [discriminate | reflexivity].
Qed.

Lemma ancestors_of_target_are_processed_witness :
  should_process_directory "/home/user/in" "/home/user/in/___organized_media" = true.
Proof.
  refine (ancestors_of_target_are_processed "/home/user/in" "___organized_media" []
            _ _ _).
  - reflexivity.
  - repeat split; discriminate.
  - constructor.
Defined.

(* ================================================================== *)
(** ** Absolute paths are normal forms *)

Lemma split_sep_no_sep s :
  Forall (fun c => contains_char sep c = false) (split_sep s).
Proof.
  induction s as [ | c s IH]; cbn [split_sep]; [repeat constructor | ].
  destruct (Ascii.eqb c sep) eqn:E; [constructor; [reflexivity | exact IH] | ].
  destruct (split_sep s) as [ | h t]; [repeat constructor; cbn; now rewrite E | ].
  inversion IH as [ | ? ? Hh Ht]; subst.
  constructor; [ | exact Ht]. cbn. now rewrite E, Hh.
Qed.

Lemma Forall_removelast {A} (Q : A -> Prop) l : Forall Q l -> Forall Q (removelast l).
Proof.
  induction l as [ | a l IH]; intros H; [constructor | ].
  inversion H as [ | ? ? Ha Hl]; subst. cbn [removelast].
  destruct l; [constructor | constructor; auto].
Qed.

Lemma normpath_step_entries i acc comp :
  i <> 0 -> Forall entry_name acc -> contains_char sep comp = false ->
  Forall entry_name (normpath_step i acc comp).
Proof.
  intros Hi Hacc Hc. unfold normpath_step.
  destruct (String.eqb_spec comp "") as [-> | Hne]; [exact Hacc | ].
  destruct (String.eqb_spec comp ".") as [-> | Hdot]; [exact Hacc | ].
  cbn [orb].
  destruct (String.eqb_spec comp "..") as [-> | Hdd]; cbn [negb orb].
  - replace (i =? 0) with false by (symmetry; now apply Z.eqb_neq). cbn [andb orb].
    assert (Hlast : match rev acc with
                    | l :: _ => String.eqb l ".."
                    | [] => false
                    end = false).
    { destruct (rev acc) as [ | l rest] eqn:E; [reflexivity | ].
      assert (Hin : In l acc) by (apply in_rev; rewrite E; now left).
      rewrite Forall_forall in Hacc. destruct (Hacc l Hin) as (_ & _ & _ & Hl).
      now apply String.eqb_neq. }
    rewrite Hlast. now apply Forall_removelast.
  - apply Forall_app. split; [exact Hacc | ].
    constructor; [ | constructor]. repeat split; auto.
    destruct comp; [contradiction | reflexivity].
Qed.

Lemma initial_slashes_absolute t :
  startswith t "/" = true -> initial_slashes t = 1 \/ initial_slashes t = 2.
Proof.
  intros H. unfold initial_slashes. rewrite H.
  destruct (startswith t "//" && negb (startswith t "///")); auto.
Qed.

Lemma components_entries t :
  startswith t "/" = true -> Forall entry_name (components t).
Proof.
  intros Ht. unfold components.
  assert (Hi : initial_slashes t <> 0)
    by (destruct (initial_slashes_absolute t Ht); lia).
  generalize (split_sep_no_sep t).
  assert (Hacc : Forall entry_name (@nil string)) by constructor.
  revert Hacc. generalize (@nil string) as acc.
  induction (split_sep t) as [ | comp comps IH]; intros acc Hacc Hc; [exact Hacc | ].
  inversion Hc as [ | ? ? H1 H2]; subst. cbn [fold_left].
  apply IH; [ | exact H2]. now apply normpath_step_entries.
Qed.

Lemma fold_entries i cs : forall acc,
  Forall entry_name cs ->
  fold_left (normpath_step i) cs acc = (acc ++ cs)%list.
Proof.
  induction cs as [ | c cs IH]; intros acc H; [now rewrite app_nil_r | ].
  inversion H as [ | ? ? Hc Hcs]; subst. cbn [fold_left].
  rewrite (normpath_step_name i acc c Hc), (IH _ Hcs), <- app_assoc. reflexivity.
Qed.

Lemma split_sep_concat c cs :
  Forall entry_name (c :: cs) -> split_sep (String.concat "/" (c :: cs)) = c :: cs.
Proof.
  revert c. induction cs as [ | d cs IH]; intros c H.
  - inversion H as [ | ? ? (_ & Hc & _) _]; subst. cbn [String.concat].
    now apply split_sep_name.
  - inversion H as [ | ? ? (_ & Hc & _) Hrest]; subst.
    change (String.concat "/" (c :: d :: cs))
      with (c ++ String sep (String.concat "/" (d :: cs))).
    rewrite split_sep_append, (split_sep_name c Hc), (IH d Hrest). reflexivity.
Qed.

Lemma concat_head c cs :
  exists rest, String.concat "/" (c :: cs) = c ++ rest.
Proof.
  destruct cs as [ | d cs].
  - exists "". cbn. now rewrite append_nil_r.
  - eexists. reflexivity.
Qed.

(** A normalised absolute path: one or two slashes, then entry names. *)
Lemma normal_form i cs :
  i = 1 \/ i = 2 -> Forall entry_name cs ->
  startswith (slashes i ++ String.concat "/" cs) "/" = true /\
  initial_slashes (slashes i ++ String.concat "/" cs) = i /\
  components (slashes i ++ String.concat "/" cs) = cs.
Proof.
  intros Hi Hcs.
  assert (Hstart : startswith (slashes i ++ String.concat "/" cs) "/" = true)
    by (destruct Hi as [-> | ->]; reflexivity).
  assert (Hinit : initial_slashes (slashes i ++ String.concat "/" cs) = i).
  { destruct cs as [ | c cs]; [destruct Hi as [-> | ->]; reflexivity | ].
    inversion Hcs as [ | ? ? (Hne & Hsep & _) _]; subst.
    destruct (concat_head c cs) as (rest & ->).
    destruct c as [ | ch c]; [discriminate | ].
    cbn in Hsep. apply orb_false_iff in Hsep. destruct Hsep as (Hch & _).
    rewrite Ascii.eqb_sym in Hch.
    destruct Hi as [-> | ->]; unfold initial_slashes; cbn; fold sep;
      rewrite Hch; reflexivity. }
  repeat split; auto.
  unfold components. rewrite Hinit.
  destruct cs as [ | c cs]; [destruct Hi as [-> | ->]; reflexivity | ].
  assert (Hsplit : exists zs,
            split_sep (slashes i ++ String.concat "/" (c :: cs)) = (zs ++ c :: cs)%list
            /\ Forall (fun z => z = "") zs).
  { destruct Hi as [-> | ->].
    - exists [""]. split; [ | repeat constructor].
      change (slashes 1 ++ String.concat "/" (c :: cs))
        with ("" ++ String sep (String.concat "/" (c :: cs))).
      now rewrite split_sep_append, (split_sep_concat c cs Hcs).
    - exists [""; ""]. split; [ | repeat constructor].
      change (slashes 2 ++ String.concat "/" (c :: cs))
        with ("/" ++ String sep (String.concat "/" (c :: cs))).
      now rewrite split_sep_append, (split_sep_concat c cs Hcs). }
  destruct Hsplit as (zs & -> & Hzs).
  rewrite fold_left_app.
  assert (Hz : fold_left (normpath_step i) zs [] = []).
  { clear - Hzs. induction zs as [ | z zs IH]; [reflexivity | ].
    inversion Hzs as [ | ? ? -> Hrest]; subst. cbn [fold_left]. now apply IH. }
  rewrite Hz. now apply fold_entries.
Qed.

Lemma normpath_idempotent t :
  startswith t "/" = true -> normpath (normpath t) = normpath t.
Proof.
  intros Ht.
  destruct (normal_form (initial_slashes t) (components t)
              (initial_slashes_absolute t Ht) (components_entries t Ht))
    as (Ha & Hi & Hc).
  rewrite (normpath_absolute_eq t Ht).
  now rewrite (normpath_absolute_eq _ Ha), Hi, Hc.
Qed.

(** Joining [.] changes nothing once normalised. *)
Lemma normpath_join2_dot t :
  startswith t "/" = true -> normpath (join2 t ".") = normpath t.
Proof.
  intros Ht.
  assert (Hnt : nonempty t = true) by (destruct t; [discriminate | reflexivity]).
  unfold join2. cbn [startswith]. change (Ascii.eqb "/" ".") with false.
  cbn [andb]. rewrite Hnt. cbn [negb orb].
  destruct (endswith t "/") eqn:E.
  - assert (Hi : initial_slashes (t ++ ".") = initial_slashes t).
    { apply initial_slashes_below; [exact Ht | ]. right. exists "."%char, "".
      split; [reflexivity | discriminate]. }
    assert (Ha : startswith (t ++ ".") "/" = true).
    { rewrite startswith_append_l; [exact Ht | ].
      destruct t; [discriminate | cbn; lia]. }
    rewrite (normpath_absolute_eq _ Ha), (normpath_absolute_eq _ Ht), Hi.
    f_equal. f_equal. unfold components. rewrite Hi.
    destruct (endswith_sep_cut t E) as (t0 & ->).
    rewrite append_assoc. change ("/" ++ ".") with (String sep ".").
    change (t0 ++ "/") with (t0 ++ String sep "").
    rewrite !split_sep_append, !fold_left_app. reflexivity.
  - assert (Hi : initial_slashes (t ++ "/" ++ ".") = initial_slashes t).
    { apply initial_slashes_below; [exact Ht | ]. right. exists sep, ".".
      split; [reflexivity | congruence]. }
    assert (Ha : startswith (t ++ "/" ++ ".") "/" = true).
    { rewrite startswith_append_l; [exact Ht | ].
      destruct t; [discriminate | cbn; lia]. }
    rewrite (normpath_absolute_eq _ Ha), (normpath_absolute_eq _ Ht), Hi.
    f_equal. f_equal. unfold components. rewrite Hi.
    change ("/" ++ ".") with (String sep ".").
    rewrite split_sep_append, fold_left_app. reflexivity.
Qed.

(** The normal form of a path one step below a normal form. *)
Lemma normpath_join2_normpath t n :
  startswith t "/" = true -> entry_name n ->
  normpath (join2 (normpath t) n) = normpath (join2 t n).
Proof.
  intros Ht Hn.
  destruct (normal_form (initial_slashes t) (components t)
              (initial_slashes_absolute t Ht) (components_entries t Ht))
    as (Ha & Hi & Hc).
  rewrite <- (normpath_absolute_eq t Ht) in Ha, Hi, Hc.
  destruct (join2_below (normpath t) n Ha Hn) as (Ha1 & Hi1 & Hc1).
  destruct (join2_below t n Ht Hn) as (Ha2 & Hi2 & Hc2).
  rewrite (normpath_absolute_eq _ Ha1), (normpath_absolute_eq _ Ha2).
  now rewrite Hi1, Hc1, Hi2, Hc2, Hi, Hc.
Qed.

(* ================================================================== *)
(** ** The stock invocation *)

(** X15.  For [organize_media('.', name)] with [name] a plain directory
    name, as in the stock call [organize_media()] with
    ['___organized_media']: both directories are made absolute from the
    current directory and are already normalised; the source root itself
    is processed; and every directory the walk of the source reaches at or
    below [name] is left out, so the run never walks into its own output. *)
Theorem stock_run_keeps_out_of_its_target :
  forall (FS : Type) (P : Platform FS) (name : string) (names : list string),
    entry_name name ->
    Forall entry_name names ->
    let source := abspath "." in
    let target := abspath name in
    normpath source = source /\ normpath target = target /\
    should_process_directory source target = true /\
    should_process_directory (join source (name :: names)) target = false.
Proof.
  intros FS P name names Hname Hnames source target.
  pose proof getcwd_absolute as Hcwd.
  assert (Hsrc : source = normpath getcwd).
  { subst source. unfold abspath. now apply normpath_join2_dot. }
  assert (Htgt : target = normpath (join2 getcwd name)).
  { subst target. unfold abspath. reflexivity. }
  destruct (join2_below getcwd name Hcwd Hname) as (Habs & _).
  assert (Hns : normpath source = source).
  { rewrite Hsrc. now apply normpath_idempotent. }
  assert (Hnt : normpath target = target).
  { rewrite Htgt. now apply normpath_idempotent. }
  split; [exact Hns | ]. split; [exact Hnt | ].
  split.
  - destruct (normpath_below_grows getcwd name Hcwd Hname) as (x & Hx & E).
    unfold should_process_directory. rewrite Hns, Hnt, Hsrc, Htgt, E, lower_append.
    rewrite startswith_longer; [reflexivity | ].
    destruct x; [discriminate | reflexivity].
  - assert (Ha : startswith source "/" = true).
    { rewrite Hsrc. now apply normpath_absolute. }
    destruct (join2_below source name Ha Hname) as (Ha' & _).
    destruct (normpath_below_all names (join2 source name) Ha' Hnames) as (_ & Hb).
    change (join (join2 source name) names) with (join source (name :: names)) in Hb.
    assert (E : normpath (join2 source name) = target).
    { rewrite Hsrc, Htgt. now apply normpath_join2_normpath. }
    rewrite E in Hb.
    unfold should_process_directory. rewrite Hnt.
    now rewrite (startswith_lower _ _ Hb).
Qed.

Lemma stock_run_keeps_out_of_its_target_witness :
  should_process_directory
    (join (abspath (P := Mem.platform 0 []) ".") ["___organized_media"; "2023"])
    (abspath (P := Mem.platform 0 []) "___organized_media") = false.
Proof.
  refine (proj2 (proj2 (proj2
    (stock_run_keeps_out_of_its_target Mem.fs (Mem.platform 0 [])
       "___organized_media" ["2023"] _ _)))).
  - repeat split; discriminate.
  - repeat constructor; discriminate.
Defined.

(* ================================================================== *)
(** ** [int] reads back what [str] writes *)

From Stdlib Require Decimal DecimalPos.

(** Value of a numeral read after the digits that gave [acc]. *)
Fixpoint uint_val (d : Decimal.uint) (acc : Z) : Z :=
  match d with
  | Decimal.Nil => acc
  | Decimal.D0 l => uint_val l (10 * acc + 0)
  | Decimal.D1 l => uint_val l (10 * acc + 1)
  | Decimal.D2 l => uint_val l (10 * acc + 2)
  | Decimal.D3 l => uint_val l (10 * acc + 3)
  | Decimal.D4 l => uint_val l (10 * acc + 4)
  | Decimal.D5 l => uint_val l (10 * acc + 5)
  | Decimal.D6 l => uint_val l (10 * acc + 6)
  | Decimal.D7 l => uint_val l (10 * acc + 7)
  | Decimal.D8 l => uint_val l (10 * acc + 8)
  | Decimal.D9 l => uint_val l (10 * acc + 9)
  end.

Fixpoint no_space (s : string) : bool :=
  match s with
  | EmptyString => true
  | String c r => negb (is_space c) && no_space r
  end.

Lemma parse_digits_uint d : forall b acc,
  d <> Decimal.Nil \/ b = true ->
  parse_digits b acc (NilEmpty.string_of_uint d) = Some (uint_val d acc).
Proof.
  induction d; intros b acc H;
    try (cbn [NilEmpty.string_of_uint parse_digits uint_val];
         match goal with
         | |- context [digit_val ?c] => change (digit_val c) with (Some 0)
                                        || change (digit_val c) with (Some 1)
                                        || change (digit_val c) with (Some 2)
                                        || change (digit_val c) with (Some 3)
                                        || change (digit_val c) with (Some 4)
                                        || change (digit_val c) with (Some 5)
                                        || change (digit_val c) with (Some 6)
                                        || change (digit_val c) with (Some 7)
                                        || change (digit_val c) with (Some 8)
                                        || change (digit_val c) with (Some 9)
         end;
         cbv iota beta; apply IHd; now right).
  destruct H as [H | ->]; [contradiction | reflexivity].
Qed.

Lemma uint_val_acc d : forall p, uint_val d (Z.pos p) = Z.pos (Pos.of_uint_acc d p).
Proof.
  induction d; intros p; cbn [uint_val Pos.of_uint_acc]; try reflexivity;
    match goal with
    | |- uint_val _ ?a = Z.pos (Pos.of_uint_acc _ ?q) =>
        replace a with (Z.pos q) by lia; apply IHd
    end.
Qed.

Lemma uint_val_0 d : uint_val d 0 = Z.of_N (Pos.of_uint d).
Proof.
  induction d; cbn [uint_val Pos.of_uint Z.of_N]; try reflexivity;
    try (rewrite <- uint_val_acc; reflexivity).
  exact IHd.
Qed.

Lemma string_of_uint_digits d : all_digits (NilEmpty.string_of_uint d) = true.
Proof. induction d; cbn; auto. Qed.

Lemma all_digits_no_space s : all_digits s = true -> no_space s = true.
Proof.
  induction s as [ | c s IH]; [reflexivity | ].
  cbn [all_digits no_space]. intros H. apply andb_true_iff in H.
  destruct H as (Hc & Hs). rewrite (IH Hs), andb_true_r.
  destruct c as [[] [] [] [] [] [] [] []]; try discriminate Hc; reflexivity.
Qed.

Lemma rev_str_acc acc s : rev_str acc s = rev_str "" s ++ acc.
Proof.
  revert acc. induction s as [ | c s IH]; intros acc; [reflexivity | ].
  cbn [rev_str]. rewrite IH, (IH (String c "")), append_assoc. reflexivity.
Qed.

Lemma rev_str_append a b : rev_str "" (a ++ b) = rev_str "" b ++ rev_str "" a.
Proof.
  induction a as [ | c a IH]; [cbn; now rewrite append_nil_r | ].
  cbn [append rev_str].
  rewrite (rev_str_acc (String c "") (a ++ b)), IH, (rev_str_acc (String c "") a).
  now rewrite append_assoc.
Qed.

Lemma rev_str_involutive s : rev_str "" (rev_str "" s) = s.
Proof.
  induction s as [ | c s IH]; [reflexivity | ].
  cbn [rev_str]. rewrite (rev_str_acc (String c "") s), rev_str_append, IH.
  reflexivity.
Qed.

Lemma no_space_append a b :
  no_space (a ++ b) = no_space a && no_space b.
Proof.
  induction a as [ | c a IH]; [reflexivity | ].
  cbn [append no_space]. now rewrite IH, andb_assoc.
Qed.

Lemma no_space_rev s : no_space (rev_str "" s) = no_space s.
Proof.
  induction s as [ | c s IH]; [reflexivity | ].
  cbn [rev_str]. rewrite (rev_str_acc (String c "") s), no_space_append, IH.
  cbn [no_space]. rewrite andb_true_r. apply andb_comm.
Qed.

Lemma lstrip_no_space s : no_space s = true -> lstrip s = s.
Proof.
  destruct s as [ | c s]; [reflexivity | ].
  cbn [no_space lstrip]. intros H. apply andb_true_iff in H. destruct H as (Hc & _).
  apply negb_true_iff in Hc. now rewrite Hc.
Qed.

Lemma strip_no_space s : no_space s = true -> strip s = s.
Proof.
  intros H. unfold strip. rewrite (lstrip_no_space s H).
  rewrite lstrip_no_space by now rewrite no_space_rev.
  apply rev_str_involutive.
Qed.

Lemma to_uint_not_nil p : Pos.to_uint p <> Decimal.Nil.
Proof.
  intros E. pose proof (DecimalPos.Unsigned.of_to p) as H.
  rewrite E in H. discriminate H.
Qed.

(** [int(str(n)) == n] *)
Lemma int_of_str_str_int n : int_of_str (str_int n) = Ok n.
Proof.
  unfold str_int. destruct n as [ | p | p]; [reflexivity | | ].
  - cbn [Z.to_int NilZero.string_of_int].
    pose proof (to_uint_not_nil p) as Hnil.
    pose proof (DecimalPos.Unsigned.of_to p) as Hof.
    assert (Hs : NilZero.string_of_uint (Pos.to_uint p)
                 = NilEmpty.string_of_uint (Pos.to_uint p)).
    { destruct (Pos.to_uint p); [contradiction | reflexivity ..]. }
    rewrite Hs. unfold int_of_str.
    rewrite strip_no_space
      by (apply all_digits_no_space, string_of_uint_digits).
    pose proof (parse_digits_uint (Pos.to_uint p) false 0 (or_introl Hnil)) as Hp.
    rewrite uint_val_0, Hof in Hp. cbn [Z.of_N] in Hp.
    destruct (Pos.to_uint p); try contradiction;
      cbn [NilEmpty.string_of_uint] in *; rewrite Hp; reflexivity.
  - cbn [Z.to_int NilZero.string_of_int].
    pose proof (to_uint_not_nil p) as Hnil.
    pose proof (DecimalPos.Unsigned.of_to p) as Hof.
    assert (Hs : NilZero.string_of_uint (Pos.to_uint p)
                 = NilEmpty.string_of_uint (Pos.to_uint p)).
    { destruct (Pos.to_uint p); [contradiction | reflexivity ..]. }
    rewrite Hs. unfold int_of_str.
    rewrite strip_no_space.
    + pose proof (parse_digits_uint (Pos.to_uint p) false 0 (or_introl Hnil)) as Hp.
      rewrite uint_val_0, Hof in Hp. cbn [Z.of_N] in Hp.
      rewrite Hp. reflexivity.
    + cbn [no_space]. apply all_digits_no_space, string_of_uint_digits.
Qed.

Lemma str_int_injective a b : str_int a = str_int b -> a = b.
Proof.
  intros H. pose proof (int_of_str_str_int a) as Ha.
  rewrite H, int_of_str_str_int in Ha. now injection Ha.
Qed.

(** [sys.int_max_str_digits] as the interpreter sets it from version 3.11
    on: [int] refuses to read a numeral of more digits.  [int_of_str] has
    no such limit. *)
Definition int_max_str_digits : Z := 4300.

(** X16.  A sidecar timestamp is read back as written: for an integer [z]
    of at most 4300 digits, whether the field [photoTakenTime.timestamp]
    holds [z] as a JSON number or as the decimal string [str(z)],
    [get_json_date] reads [z]; it returns it under the label
    ["JSON photoTakenTime"] when [z] is above the threshold and goes on to
    [creationTime] otherwise. *)
Theorem written_timestamp_is_read_back :
  forall (metadata inner : json) (z : Z),
    Z.abs z < 10 ^ int_max_str_digits ->
    getitem metadata "photoTakenTime" = Ok inner ->
    getitem inner "timestamp" = Ok (JStr (str_int z)) \/
    getitem inner "timestamp" = Ok (JInt z) ->
    json_timestamp metadata "photoTakenTime" = Ok z /\
    (MIN_VALID_TIMESTAMP < z ->
       get_json_date metadata = Some (z, "JSON photoTakenTime")) /\
    (z <= MIN_VALID_TIMESTAMP ->
       get_json_date metadata = get_json_date_creation metadata).
Proof.
  intros metadata inner z _ Hm Hi.
  assert (Hz : json_timestamp metadata "photoTakenTime" = Ok z).
  { unfold json_timestamp. rewrite Hm. cbn [bind].
    destruct Hi as [-> | ->]; cbn [bind py_int]; [apply int_of_str_str_int | reflexivity]. }
  split; [exact Hz | ]. unfold get_json_date. rewrite Hz. split; intros H.
  - now rewrite (proj2 (Z.ltb_lt _ _) H).
  - now rewrite (proj2 (Z.ltb_ge _ _) H).
Qed.

Lemma written_timestamp_is_read_back_witness :
  get_json_date (Mem.taken "photo.jpg" "1609459200")
  = Some (1609459200, "JSON photoTakenTime").
Proof.
  refine (proj1 (proj2 (written_timestamp_is_read_back
    (Mem.taken "photo.jpg" "1609459200") (JObj [("timestamp", JStr "1609459200")])
    1609459200 _ _ _)) _).
  - apply Z.lt_le_trans with (10 ^ 10); [reflexivity | ].
    apply Z.pow_le_mono_r; [reflexivity | discriminate].
  - reflexivity.
  - left. reflexivity.
  - reflexivity.
Defined.

(* ================================================================== *)
(** ** One directory per local day *)

(** The inverse of [civil_from_days]. *)
Definition days_from_civil (ymd : Z * Z * Z) : Z :=
  let '(y, m, d) := ymd in
  let y := if m <=? 2 then y - 1 else y in
  let era := y / 400 in
  let yoe := y mod 400 in
  let mp := if m <=? 2 then m + 9 else m - 3 in
  let doy := (153 * mp + 2) / 5 + d - 1 in
  let doe := yoe * 365 + yoe / 4 - yoe / 100 + doy in
  era * 146097 + doe - 719468.

Lemma days_from_civil_from_days z : days_from_civil (civil_from_days z) = z.
Proof.
  unfold civil_from_days, days_from_civil.
  set (z' := z + 719468).
  set (era := z' / 146097).
  set (doe := z' mod 146097).
  assert (Hz : z' = era * 146097 + doe)
    by (subst era doe; pose proof (Z.div_mod z' 146097); lia).
  assert (Hdoe : 0 <= doe < 146097) by (apply Z.mod_pos_bound; lia).
  clearbody doe era.
  set (yoe := (doe - doe / 1460 + doe / 36524 - doe / 146096) / 365).
  set (doy := doe - (365 * yoe + yoe / 4 - yoe / 100)).
  assert (Hy : 0 <= yoe <= 399 /\ 0 <= doy <= 365).
  { subst doy yoe. Z.div_mod_to_equations. lia. }
  destruct Hy as [Hyoe Hdoy].
  assert (Hdoe' : doe = 365 * yoe + yoe / 4 - yoe / 100 + doy) by (subst doy; lia).
  clearbody doy. clearbody yoe.
  set (mp := (5 * doy + 2) / 153).
  assert (Hmp : 0 <= mp <= 11) by (subst mp; Z.div_mod_to_equations; lia).
  assert (Hd : (153 * mp + 2) / 5 + (doy - (153 * mp + 2) / 5 + 1) - 1 = doy) by lia.
  clearbody mp.
  destruct (mp <? 10) eqn:E.
  - apply Z.ltb_lt in E.
    replace (mp + 3 <=? 2) with false by (symmetry; apply Z.leb_gt; lia).
    replace (mp + 3 - 3) with mp by lia.
    rewrite Z.add_0_r.
    replace ((yoe + era * 400) / 400) with era by (Z.div_mod_to_equations; lia).
    replace ((yoe + era * 400) mod 400) with yoe by (Z.div_mod_to_equations; lia).
    lia.
  - apply Z.ltb_ge in E.
    replace (mp - 9 <=? 2) with true by (symmetry; apply Z.leb_le; lia).
    replace (mp - 9 + 9) with mp by lia.
    replace (yoe + era * 400 + 1 - 1) with (yoe + era * 400) by lia.
    replace ((yoe + era * 400) / 400) with era by (Z.div_mod_to_equations; lia).
    replace ((yoe + era * 400) mod 400) with yoe by (Z.div_mod_to_equations; lia).
    lia.
Qed.

Lemma civil_from_days_injective a b :
  civil_from_days a = civil_from_days b -> a = b.
Proof.
  intros H. rewrite <- (days_from_civil_from_days a), H.
  apply days_from_civil_from_days.
Qed.

Lemma append_cut_at_sep a b x y :
  contains_char sep a = false -> contains_char sep b = false ->
  a ++ "/" ++ x = b ++ "/" ++ y -> a = b /\ x = y.
Proof.
  revert b. induction a as [ | c a IH]; intros b Ha Hb E.
  - destruct b as [ | d b]; cbn in E.
    + injection E as <-. auto.
    + injection E as <- _. cbn in Hb. discriminate.
  - destruct b as [ | d b]; cbn in E.
    + injection E as -> _. cbn in Ha. discriminate.
    + injection E as <- E. cbn in Ha, Hb.
      apply orb_false_iff in Ha, Hb. destruct Ha as (_ & Ha), Hb as (_ & Hb).
      destruct (IH b Ha Hb E) as (-> & ->). auto.
Qed.

Lemma append_cut_at_length a b x y :
  String.length a = String.length b -> a ++ x = b ++ y -> a = b /\ x = y.
Proof.
  revert b. induction a as [ | c a IH]; intros b Hl E.
  - destruct b; [auto | discriminate].
  - destruct b as [ | d b]; [discriminate | ].
    cbn in Hl, E. injection Hl as Hl. injection E as <- E.
    destruct (IH b Hl E) as (-> & ->). auto.
Qed.

Section LocalDay.
Context {FS : Type} {P : Platform FS}.

(** The local day a timestamp falls on, in days since 1970-01-01. *)
Definition local_day (timestamp : Q) : Z :=
  let seconds := microseconds timestamp / 1000000 in
  (seconds + utcoffset seconds) / 86400.

Lemma fromtimestamp_local_day ts y m d :
  fromtimestamp ts = Ok (y, m, d) -> civil_from_days (local_day ts) = (y, m, d).
Proof.
  unfold fromtimestamp, local_day.
  destruct (civil_from_days _) as [[y' m'] d'].
  destruct ((1 <=? y') && (y' <=? 9999)); [ | discriminate].
  now intros [= <- <- <-].
Qed.

(** The directory a planned path lies in. *)
Lemma get_target_path_dirname ts path tp ext :
  get_target_path ts path = Ok (tp, ext) ->
  exists y m d,
    fromtimestamp ts = Ok (y, m, d) /\
    all_digits (str_int y) = true /\
    decimal_of 2 m (zfill 2 (str_int m)) = true /\
    decimal_of 2 d (zfill 2 (str_int d)) = true /\
    dirname tp =
      str_int y ++ "/" ++
      str_int y ++ "-" ++ zfill 2 (str_int m) ++ "-" ++ zfill 2 (str_int d).
Proof.
  intros H.
  destruct (fromtimestamp ts) as [[[y m] d] | e] eqn:Hts;
    [ | unfold get_target_path in H; rewrite Hts in H; discriminate].
  destruct (fromtimestamp_range ts y m d Hts) as (Hy & Hm & Hd).
  pose proof (str_int_digits y Hy) as HY. apply andb_true_iff in HY.
  destruct HY as (HY1 & HY2).
  pose proof (zfill_two m ltac:(lia)) as HM.
  pose proof (zfill_two d ltac:(lia)) as HD.
  rewrite (get_target_path_plan ts path y m d Hts HY1 HY2 HM HD) in H.
  injection H as <- <-.
  exists y, m, d. repeat split; auto.
  set (date := str_int y ++ "-" ++ zfill 2 (str_int m) ++ "-" ++ zfill 2 (str_int d)).
  assert (Hd1 : nonempty date = true) by (subst date; now apply nonempty_append).
  assert (Hd2 : contains_char sep date = false).
  { subst date. apply decimal_of_parts in HM, HD.
    destruct HM as (_ & HM & _), HD as (_ & HD & _).
    rewrite !contains_char_append.
    rewrite (all_digits_no_sep _ HY2), (all_digits_no_sep _ HM),
      (all_digits_no_sep _ HD). reflexivity. }
  destruct (dirname_plain (str_int y ++ "/") date
              (fst (splitext (basename path)) ++ lower (snd (splitext path)))
              Hd1 Hd2 (target_name_no_sep path)) as (Hdir & _).
  repeat rewrite append_assoc in Hdir. exact Hdir.
Qed.

End LocalDay.

(** X17.  Two planned paths lie in the same directory exactly when their
    timestamps fall on the same local day: files of one local day are
    gathered in one directory, and no directory mixes two days. *)
Theorem one_directory_per_local_day :
  forall (FS : Type) (P : Platform FS) (ts1 ts2 : Q) (path1 path2 : string)
         (tp1 ext1 tp2 ext2 : string),
    get_target_path ts1 path1 = Ok (tp1, ext1) ->
    get_target_path ts2 path2 = Ok (tp2, ext2) ->
    (dirname tp1 = dirname tp2 <-> local_day ts1 = local_day ts2).
Proof.
  intros FS P ts1 ts2 path1 path2 tp1 ext1 tp2 ext2 H1 H2.
  destruct (get_target_path_dirname _ _ _ _ H1)
    as (y1 & m1 & d1 & Hts1 & HY1 & HM1 & HD1 & ->).
  destruct (get_target_path_dirname _ _ _ _ H2)
    as (y2 & m2 & d2 & Hts2 & HY2 & HM2 & HD2 & ->).
  pose proof (fromtimestamp_local_day _ _ _ _ Hts1) as C1.
  pose proof (fromtimestamp_local_day _ _ _ _ Hts2) as C2.
  split.
  - intros E.
    apply append_cut_at_sep in E; auto using all_digits_no_sep.
    destruct E as (Ey & E). apply str_int_injective in Ey. subst y2.
    apply append_cut_at_length in E; [ | reflexivity].
    destruct E as (_ & E). cbn [append] in E. injection E as E.
    apply decimal_of_parts in HM1, HM2, HD1, HD2.
    destruct HM1 as (L1 & _ & I1), HM2 as (L2 & _ & I2).
    destruct HD1 as (_ & _ & J1), HD2 as (_ & _ & J2).
    apply append_cut_at_length in E; [ | congruence].
    destruct E as (Em & E). cbn [append] in E. injection E as Ed.
    rewrite Em in I1. rewrite I1 in I2. injection I2 as ->.
    rewrite Ed in J1. rewrite J1 in J2. injection J2 as ->.
    apply civil_from_days_injective. congruence.
  - intros E. rewrite E in C1. rewrite C1 in C2. now injection C2 as -> -> ->.
Qed.

Lemma one_directory_per_local_day_witness :
  local_day (P := Mem.platform 3600 []) (inject_Z 1700000000)
  = local_day (P := Mem.platform 3600 []) (17000000005 # 10).
Proof.
  refine (proj1 (one_directory_per_local_day Mem.fs (Mem.platform 3600 [])
    (inject_Z 1700000000) (17000000005 # 10) "/home/user/in/a.jpg"
    "/home/user/in/Clip.MP4" "2023/2023-11-14/a.jpg" ".jpg"
    "2023/2023-11-14/Clip.mp4" ".mp4" _ _) _); reflexivity.
Defined.
